(** * restful.py: a command-line REST client

    A shallow embedding of [restful.py] (class [RestClient] and [main])
    together with the parts of the Python library the script calls:
    [argparse] choices, [json.loads] / [json.dumps(indent=4)],
    [os.path.splitext] (POSIX), [csv.DictWriter] and, for the round trips,
    [csv.reader] with the default (excel) dialect.

    Modelling boundary.
    - A Python [str] is a list of code points ([N]); text streams (standard
      output, files opened in text mode) are sequences of code points.  Of
      the byte encoding of a file the model has what it cannot encode: a
      write of such a text raises [UnicodeEncodeError].
    - Python floats, [repr] of a [str] and the wording of library exception
      messages and of the help are taken from a [PyRuntime] interface.
    - The remote server, transport failures, [open] failures and the
      encoding of text files come from a [World].
    - A command line is given as [argparse] sorts it, with its options well
      formed; the help option is part of the model ([Argv]).
    - The size limits of the interpreter (the recursion limit met by
      [json.loads] on deeply nested text, the digit limit of [int]) are not
      part of the decoder; [nesting_limit] bounds the text where a statement
      needs it. *)

From Stdlib Require Import ZArith NArith List String Ascii Bool Lia.
Import ListNotations.

Set Implicit Arguments.
Set Warnings "-register-all".
Local Open Scope N_scope.

(** ** Python strings *)

Definition pystr := list N.

(** The code points of an ASCII literal. *)
Definition py (s : string) : pystr := map N_of_ascii (list_ascii_of_string s).

Module Chr.
Definition TAB : N := 9.
Definition LF : N := 10.
Definition CR : N := 13.
Definition SPACE : N := 32.
Definition QUOTE : N := 34.      (* double quote *)
Definition PLUS : N := 43.
Definition COMMA : N := 44.
Definition MINUS : N := 45.
Definition DOT : N := 46.
Definition SLASH : N := 47.
Definition ZERO : N := 48.
Definition NINE : N := 57.
Definition COLON : N := 58.
Definition LBRACKET : N := 91.
Definition BACKSLASH : N := 92.
Definition RBRACKET : N := 93.
Definition LBRACE : N := 123.
Definition RBRACE : N := 125.
Definition BOM : N := 65279.     (* U+FEFF *)
End Chr.

Fixpoint str_eqb (a b : pystr) : bool :=
  match a, b with
  | [], [] => true
  | x :: a', y :: b' => (x =? y) && str_eqb a' b'
  | _, _ => false
  end.

(** [s.startswith(p)] and the text after the prefix. *)
Fixpoint strip_prefix (p s : pystr) : option pystr :=
  match p, s with
  | [], _ => Some s
  | x :: p', y :: s' => if x =? y then strip_prefix p' s' else None
  | _ :: _, [] => None
  end.

(** [sep.join(parts)] *)
Fixpoint join (sep : pystr) (parts : list pystr) : pystr :=
  match parts with
  | [] => []
  | [x] => x
  | x :: rest => x ++ sep ++ join sep rest
  end.

(** [str.lower()] on the ASCII letters; the script only compares the result
    with ["get"] and ["post"]. *)
Definition lower_char (c : N) : N :=
  if (65 <=? c) && (c <=? 90) then c + 32 else c.

Definition str_lower (s : pystr) : pystr := map lower_char s.

(** Truth value of an optional string: [None] and [""] are false. *)
Definition truthy (o : option pystr) : bool :=
  match o with
  | None => false
  | Some [] => false
  | Some (_ :: _) => true
  end.

(** ** Decimal integers: [str(int)] and [int(str)] *)

Definition is_digit (c : N) : bool := (Chr.ZERO <=? c) && (c <=? Chr.NINE).

Fixpoint digits_loop (fuel : nat) (n : N) (acc : pystr) : pystr :=
  match fuel with
  | O => acc
  | S fuel' =>
      let acc' := (Chr.ZERO + n mod 10) :: acc in
      if n / 10 =? 0 then acc' else digits_loop fuel' (n / 10) acc'
  end.

Definition str_N (n : N) : pystr := digits_loop (S (N.to_nat (N.log2 n))) n [].

Definition str_int (z : Z) : pystr :=
  if (z <? 0)%Z then Chr.MINUS :: str_N (Z.abs_N z) else str_N (Z.abs_N z).

(** Value of a run of decimal digits, most significant first. *)
Definition digits_value (ds : pystr) : N :=
  fold_left (fun acc d => 10 * acc + (d - Chr.ZERO)) ds 0.

(** [int(text)] for a text matched by the integer part of the JSON number
    pattern: an optional minus sign and decimal digits. *)
Definition int_of_literal (s : pystr) : Z :=
  match s with
  | c :: ds => if c =? Chr.MINUS then (- Z.of_N (digits_value ds))%Z
               else Z.of_N (digits_value s)
  | [] => 0%Z
  end.

(** ** Python values produced by the JSON decoder *)

Inductive pyfloat (F : Type) : Type :=
| FNan
| FInf (negative : bool)
| FFin (x : F).
Arguments FNan {F}.
Arguments FInf {F} negative.
Arguments FFin {F} x.

(** The ways [parse_args] ends the program instead of returning: the three
    errors of the command line, and the help option. *)
Inductive usage_error : Type :=
| InvalidChoice (token : pystr)
| MissingArguments
| UnrecognizedArguments (extra : list pystr)
| HelpRequested.

(** What the model takes from the Python runtime without defining it. *)
Class PyRuntime : Type := {
  (** the finite binary64 values *)
  finite_float : Type;
  (** [float(text)] on a text matched by the JSON number pattern (it may
      overflow to an infinity) *)
  float_of_literal : pystr -> pyfloat finite_float;
  (** [float.__repr__] of a finite float *)
  float_repr : finite_float -> pystr;
  (** [repr] of a [str] *)
  str_repr : pystr -> pystr;
  (** [str(e)] of the [JSONDecodeError] raised on a document *)
  json_error_text : pystr -> pystr;
  (** [str(e)] of the [ValueError] of [csv.DictWriter] for a row with keys
      that are not field names *)
  csv_extras_text : list pystr -> pystr;
  (** what [argparse] prints for a rejected command line: the usage line and
      the error line *)
  usage_text : usage_error -> list pystr;
  (** what [argparse] prints for the help option: [parser.format_help()] *)
  help_text : pystr;
  (** [str(e)] of the [UnicodeEncodeError] raised on writing a text that the
      encoding of the file cannot encode *)
  encode_error_text : pystr -> pystr;
  (** a number of nested arrays and objects that [json.loads] reads without
      [RecursionError] (the recursion limit of the interpreter is 1000
      unless it is changed) *)
  nesting_limit : nat
}.

(** ** Insertion-ordered dictionaries with [str] keys *)

Section Dict.
Variable V : Type.

Definition pydict := list (pystr * V).

Definition keys (d : pydict) : list pystr := map fst d.

Fixpoint dict_get (d : pydict) (k : pystr) : option V :=
  match d with
  | [] => None
  | (k', v) :: d' => if str_eqb k' k then Some v else dict_get d' k
  end.

(** [d[k] = v]: an existing key keeps its position. *)
Fixpoint dict_set (d : pydict) (k : pystr) (v : V) : pydict :=
  match d with
  | [] => [(k, v)]
  | (k', v') :: d' =>
      if str_eqb k' k then (k', v) :: d' else (k', v') :: dict_set d' k v
  end.

(** [dict(pairs)] *)
Definition dict_of_pairs (pairs : list (pystr * V)) : pydict :=
  fold_left (fun d kv => dict_set d (fst kv) (snd kv)) pairs [].

End Dict.

Definition mem (k : pystr) (l : list pystr) : bool := existsb (str_eqb k) l.

(** ** The [json] module *)

Inductive res (A : Type) : Type :=
| Done (a : A)
| Fail
| OutOfFuel.
Arguments Done {A} a.
Arguments Fail {A}.
Arguments OutOfFuel {A}.

Definition is_ws (c : N) : bool :=
  (c =? Chr.SPACE) || (c =? Chr.TAB) || (c =? Chr.LF) || (c =? Chr.CR).

(** [WHITESPACE.match(s, idx).end()] *)
Fixpoint skip_ws (s : pystr) : pystr :=
  match s with
  | c :: s' => if is_ws c then skip_ws s' else s
  | [] => []
  end.

Fixpoint span_digits (s : pystr) : pystr * pystr :=
  match s with
  | c :: s' =>
      if is_digit c then let (ds, r) := span_digits s' in (c :: ds, r)
      else ([], s)
  | [] => ([], [])
  end.

(** The optional groups of [NUMBER_RE] after the integer part: a fraction
    (a dot and at least one digit) and an exponent (e or E, an optional
    sign, at least one digit). *)
Definition match_frac (s : pystr) : pystr * pystr :=
  match s with
  | d :: s1 =>
      if d =? Chr.DOT then
        match span_digits s1 with
        | ([], _) => ([], s)
        | (ds, r) => (d :: ds, r)
        end
      else ([], s)
  | [] => ([], s)
  end.

Definition match_exp (s : pystr) : pystr * pystr :=
  match s with
  | e :: s1 =>
      if (e =? 101) || (e =? 69) then
        let (sg, s2) :=
          match s1 with
          | g :: s2 => if (g =? Chr.PLUS) || (g =? Chr.MINUS) then ([g], s2)
                       else ([], s1)
          | [] => ([], s1)
          end in
        match span_digits s2 with
        | ([], _) => ([], s)
        | (ds, r) => (e :: sg ++ ds, r)
        end
      else ([], s)
  | [] => ([], s)
  end.

Definition match_tail (integer s : pystr) : pystr * pystr * pystr * pystr :=
  let (frac, s1) := match_frac s in
  let (exp, s2) := match_exp s1 in
  (integer, frac, exp, s2).

(** [NUMBER_RE.match]: the groups (integer, frac, exp) and the text after
    the match. *)
Definition match_number (s : pystr) : option (pystr * pystr * pystr * pystr) :=
  let (sign, s1) :=
    match s with
    | c :: s' => if c =? Chr.MINUS then ([c], s') else ([], s)
    | [] => ([], s)
    end in
  match s1 with
  | c :: s2 =>
      if c =? Chr.ZERO then Some (match_tail (sign ++ [c]) s2)
      else if is_digit c then
        let (ds, s3) := span_digits s2 in
        Some (match_tail (sign ++ c :: ds) s3)
      else None
  | [] => None
  end.

Definition hex_value (c : N) : option N :=
  if is_digit c then Some (c - Chr.ZERO)
  else if (97 <=? c) && (c <=? 102) then Some (c - 87)
  else if (65 <=? c) && (c <=? 70) then Some (c - 55)
  else None.

(** The four hexadecimal digits of a [\uXXXX] escape. *)
Definition decode_uXXXX (a b c d : N) : option N :=
  match hex_value a, hex_value b, hex_value c, hex_value d with
  | Some x, Some y, Some z, Some w => Some (((x * 16 + y) * 16 + z) * 16 + w)
  | _, _, _, _ => None
  end.

Definition is_high_surrogate (c : N) : bool := (55296 <=? c) && (c <=? 56319).
Definition is_low_surrogate (c : N) : bool := (56320 <=? c) && (c <=? 57343).

Definition join_surrogates (hi lo : N) : N :=
  65536 + N.lor (N.shiftl (hi - 55296) 10) (lo - 56320).

(** The [BACKSLASH] table of the decoder. *)
Definition backslash (e : N) : option N :=
  if e =? Chr.QUOTE then Some Chr.QUOTE
  else if e =? Chr.BACKSLASH then Some Chr.BACKSLASH
  else if e =? Chr.SLASH then Some Chr.SLASH
  else if e =? 98 then Some 8
  else if e =? 102 then Some 12
  else if e =? 110 then Some Chr.LF
  else if e =? 114 then Some Chr.CR
  else if e =? 116 then Some Chr.TAB
  else None.

Definition cons_char (c : N) (r : option (pystr * pystr)) : option (pystr * pystr) :=
  match r with
  | Some (str, rest) => Some (c :: str, rest)
  | None => None
  end.

(** [scanstring(s, end)] in strict mode, on the text after the opening
    quote: the decoded string and the text after the closing quote. *)
Fixpoint scanstring (s : pystr) : option (pystr * pystr) :=
  match s with
  | [] => None
  | c :: s1 =>
      if c =? Chr.QUOTE then Some ([], s1)
      else if c =? Chr.BACKSLASH then
        match s1 with
        | [] => None
        | e :: s2 =>
            if e =? 117 then
              match s2 with
              | h1 :: h2 :: h3 :: h4 :: s3 =>
                  match decode_uXXXX h1 h2 h3 h4 with
                  | None => None
                  | Some uni =>
                      if is_high_surrogate uni then
                        match s3 with
                        | b :: u :: g1 :: g2 :: g3 :: g4 :: s4 =>
                            if (b =? Chr.BACKSLASH) && (u =? 117) then
                              match decode_uXXXX g1 g2 g3 g4 with
                              | None => None
                              | Some uni2 =>
                                  if is_low_surrogate uni2
                                  then cons_char (join_surrogates uni uni2)
                                                 (scanstring s4)
                                  else cons_char uni (scanstring s3)
                              end
                            else cons_char uni (scanstring s3)
                        | _ => cons_char uni (scanstring s3)
                        end
                      else cons_char uni (scanstring s3)
                  end
              | _ => None
              end
            else
              match backslash e with
              | Some ch => cons_char ch (scanstring s2)
              | None => None
              end
        end
      else if c <? 32 then None
      else cons_char c (scanstring s1)
  end.

Section Json.
Context {RT : PyRuntime}.

(** The values [json.loads] returns. *)
#[local] Unset Elimination Schemes.
Inductive pyval : Type :=
| PyNone
| PyBool (b : bool)
| PyInt (z : Z)
| PyFloat (f : pyfloat finite_float)
| PyStr (s : pystr)
| PyList (items : list pyval)
| PyDict (d : list (pystr * pyval)).
#[local] Set Elimination Schemes.

(** *** Decoder *)

(** The branches of [scan_once] that read no nested value: the constants
    [null], [true] and [false], a number, then [NaN], [Infinity] and
    [-Infinity], tried in this order. *)
Definition scan_literal (s : pystr) : res (pyval * pystr) :=
  match strip_prefix (py "null") s, strip_prefix (py "true") s,
        strip_prefix (py "false") s with
  | Some rest, _, _ => Done (PyNone, rest)
  | None, Some rest, _ => Done (PyBool true, rest)
  | None, None, Some rest => Done (PyBool false, rest)
  | None, None, None =>
      match match_number s with
      | Some (integer, frac, exp, rest) =>
          match frac, exp with
          | [], [] => Done (PyInt (int_of_literal integer), rest)
          | _, _ =>
              Done (PyFloat (float_of_literal (integer ++ frac ++ exp)), rest)
          end
      | None =>
          match strip_prefix (py "NaN") s,
                strip_prefix (py "Infinity") s,
                strip_prefix (py "-Infinity") s with
          | Some rest, _, _ => Done (PyFloat FNan, rest)
          | None, Some rest, _ => Done (PyFloat (FInf false), rest)
          | None, None, Some rest => Done (PyFloat (FInf true), rest)
          | None, None, None => Fail
          end
      end
  end.

(** [scan_once], with [parse_array] and [parse_object] split into the part
    before the first item and the loop over the items.  Each call spends one
    unit of fuel; [json_loads] supplies more than twice the length of the
    text, which is enough for every text ([json_loads_total]). *)
Fixpoint scan_once (fuel : nat) (s : pystr) : res (pyval * pystr) :=
  match fuel with
  | O => OutOfFuel
  | S fuel' =>
      match s with
      | [] => Fail
      | c :: s1 =>
          if c =? Chr.QUOTE then
            match scanstring s1 with
            | Some (str, rest) => Done (PyStr str, rest)
            | None => Fail
            end
          else if c =? Chr.LBRACE then
            match skip_ws s1 with
            | c1 :: s2 =>
                if c1 =? Chr.RBRACE then Done (PyDict [], s2)
                else if c1 =? Chr.QUOTE then object_items fuel' s2 []
                else Fail
            | [] => Fail
            end
          else if c =? Chr.LBRACKET then
            match skip_ws s1 with
            | c1 :: s2 =>
                if c1 =? Chr.RBRACKET then Done (PyList [], s2)
                else array_items fuel' (c1 :: s2) []
            | [] => Fail
            end
          else scan_literal s
      end
  end

(** the [while True] loop of [JSONArray]; [acc] holds the values in reverse *)
with array_items (fuel : nat) (s : pystr) (acc : list pyval)
  : res (pyval * pystr) :=
  match fuel with
  | O => OutOfFuel
  | S fuel' =>
      match scan_once fuel' s with
      | Done (v, s1) =>
          match skip_ws s1 with
          | c :: s2 =>
              if c =? Chr.RBRACKET then Done (PyList (rev (v :: acc)), s2)
              else if c =? Chr.COMMA then array_items fuel' (skip_ws s2) (v :: acc)
              else Fail
          | [] => Fail
          end
      | Fail => Fail
      | OutOfFuel => OutOfFuel
      end
  end

(** the [while True] loop of [JSONObject], entered after the opening quote of
    a key; [acc] holds the pairs in reverse *)
with object_items (fuel : nat) (s : pystr) (acc : list (pystr * pyval))
  : res (pyval * pystr) :=
  match fuel with
  | O => OutOfFuel
  | S fuel' =>
      match scanstring s with
      | None => Fail
      | Some (key, s1) =>
          match skip_ws s1 with
          | c :: s2 =>
              if c =? Chr.COLON then
                match scan_once fuel' (skip_ws s2) with
                | Done (v, s3) =>
                    match skip_ws s3 with
                    | c1 :: s4 =>
                        if c1 =? Chr.RBRACE then
                          Done (PyDict (dict_of_pairs (rev ((key, v) :: acc))), s4)
                        else if c1 =? Chr.COMMA then
                          match skip_ws s4 with
                          | c2 :: s5 =>
                              if c2 =? Chr.QUOTE
                              then object_items fuel' s5 ((key, v) :: acc)
                              else Fail
                          | [] => Fail
                          end
                        else Fail
                    | [] => Fail
                    end
                | Fail => Fail
                | OutOfFuel => OutOfFuel
                end
              else Fail
          | [] => Fail
          end
      end
  end.

(** [json.loads(s)]: no byte order mark, one value between optional
    whitespace, nothing after it. *)
Definition json_loads (s : pystr) : res pyval :=
  match s with
  | c :: _ => if c =? Chr.BOM then Fail else
      match scan_once (S (2 * List.length s)) (skip_ws s) with
      | Done (v, rest) =>
          match skip_ws rest with
          | [] => Done v
          | _ :: _ => Fail
          end
      | Fail => Fail
      | OutOfFuel => OutOfFuel
      end
  | [] => Fail
  end.

(** *** Encoder *)

Definition hex_digit (n : N) : N := if n <? 10 then Chr.ZERO + n else 87 + n.

(** [{0:04x}] for a number below 0x10000 *)
Definition hex4 (n : N) : pystr :=
  [hex_digit (n / 4096 mod 16); hex_digit (n / 256 mod 16);
   hex_digit (n / 16 mod 16); hex_digit (n mod 16)].

Definition escape_u (n : N) : pystr := Chr.BACKSLASH :: 117 :: hex4 n.

(** The replacement of one character in [encode_basestring_ascii]. *)
Definition escape_char (c : N) : pystr :=
  if c =? Chr.QUOTE then [Chr.BACKSLASH; Chr.QUOTE]
  else if c =? Chr.BACKSLASH then [Chr.BACKSLASH; Chr.BACKSLASH]
  else if c =? 8 then [Chr.BACKSLASH; 98]
  else if c =? 12 then [Chr.BACKSLASH; 102]
  else if c =? Chr.LF then [Chr.BACKSLASH; 110]
  else if c =? Chr.CR then [Chr.BACKSLASH; 114]
  else if c =? Chr.TAB then [Chr.BACKSLASH; 116]
  else if (32 <=? c) && (c <=? 126) then [c]
  else if c <? 65536 then escape_u c
  else
    let n := c - 65536 in
    escape_u (N.lor 55296 (N.land (N.shiftr n 10) 1023))
    ++ escape_u (N.lor 56320 (N.land n 1023)).

(** [encode_basestring_ascii] (the default [ensure_ascii=True]) *)
Definition encode_basestring_ascii (s : pystr) : pystr :=
  Chr.QUOTE :: flat_map escape_char s ++ [Chr.QUOTE].

(** [floatstr] with the default [allow_nan=True] *)
Definition floatstr (f : pyfloat finite_float) : pystr :=
  match f with
  | FNan => py "NaN"
  | FInf false => py "Infinity"
  | FInf true => py "-Infinity"
  | FFin x => float_repr x
  end.

(** ['\n' + _indent * level] *)
Definition newline_indent (indent level : nat) : pystr :=
  Chr.LF :: repeat Chr.SPACE (indent * level).

(** [_iterencode(o, level)] of an encoder made with an integer [indent]:
    item separator [","], key separator [": "]; the chunks are joined. *)
Fixpoint iterencode (indent : nat) (o : pyval) (level : nat) : pystr :=
  match o with
  | PyStr s => encode_basestring_ascii s
  | PyNone => py "null"
  | PyBool true => py "true"
  | PyBool false => py "false"
  | PyInt z => str_int z
  | PyFloat f => floatstr f
  | PyList [] => py "[]"
  | PyList items =>
      [Chr.LBRACKET] ++ newline_indent indent (S level)
      ++ join (Chr.COMMA :: newline_indent indent (S level))
              (map (fun v => iterencode indent v (S level)) items)
      ++ newline_indent indent level ++ [Chr.RBRACKET]
  | PyDict [] => py "{}"
  | PyDict d =>
      [Chr.LBRACE] ++ newline_indent indent (S level)
      ++ join (Chr.COMMA :: newline_indent indent (S level))
              (map (fun kv => encode_basestring_ascii (fst kv) ++ py ": "
                              ++ iterencode indent (snd kv) (S level)) d)
      ++ newline_indent indent level ++ [Chr.RBRACE]
  end.

(** [json.dumps(o, indent=indent)] *)
Definition json_dumps (indent : nat) (o : pyval) : pystr := iterencode indent o 0.

End Json.

(** ** [os.path.splitext] (posixpath) *)

Fixpoint rfind_loop (s : pystr) (c : N) (i last : Z) : Z :=
  match s with
  | [] => last
  | x :: s' => rfind_loop s' c (i + 1)%Z (if x =? c then i else last)
  end.

(** [s.rfind(c)]: the index of the last occurrence, [-1] when there is none *)
Definition rfind (s : pystr) (c : N) : Z := rfind_loop s c 0%Z (-1)%Z.

(** The [while filenameIndex < dotIndex] loop of [_splitext], run for the
    [count] indexes from [filenameIndex] on. *)
Fixpoint splitext_loop (count : nat) (p : pystr) (filenameIndex dotIndex : nat)
  : pystr * pystr :=
  match count with
  | O => (p, [])
  | S count' =>
      match nth_error p filenameIndex with
      | Some c =>
          if c =? Chr.DOT
          then splitext_loop count' p (S filenameIndex) dotIndex
          else (firstn dotIndex p, skipn dotIndex p)
      | None => (firstn dotIndex p, skipn dotIndex p)
      end
  end.

Definition splitext (p : pystr) : pystr * pystr :=
  let sepIndex := rfind p Chr.SLASH in
  let dotIndex := rfind p Chr.DOT in
  if (dotIndex >? sepIndex)%Z then
    let filenameIndex := (sepIndex + 1)%Z in
    splitext_loop (Z.to_nat (dotIndex - filenameIndex)) p
                  (Z.to_nat filenameIndex) (Z.to_nat dotIndex)
  else (p, []).

(** ** The [csv] module, excel dialect *)

Module Csv.

(** A field is quoted under [QUOTE_MINIMAL] when it holds the delimiter, the
    quote character or a character of the line terminator. *)
Definition special (c : N) : bool :=
  (c =? Chr.COMMA) || (c =? Chr.QUOTE) || (c =? Chr.CR) || (c =? Chr.LF).

Definition needs_quotes (field : pystr) : bool := existsb special field.

Definition double_quote (c : N) : pystr :=
  if c =? Chr.QUOTE then [Chr.QUOTE; Chr.QUOTE] else [c].

(** [join_append] of one field *)
Definition write_field (field : pystr) : pystr :=
  if needs_quotes field
  then Chr.QUOTE :: flat_map double_quote field ++ [Chr.QUOTE]
  else field.

(** [writer.writerow] on fields already converted to text: a record made of
    one empty field is written as a pair of quotes. *)
Definition writerow (fields : list pystr) : pystr :=
  match fields with
  | [[]] => [Chr.QUOTE; Chr.QUOTE; Chr.CR; Chr.LF]
  | _ => join [Chr.COMMA] (map write_field fields) ++ [Chr.CR; Chr.LF]
  end.

(** *** [csv.reader] *)

Inductive parser_state : Type :=
| START_RECORD
| START_FIELD
| IN_FIELD
| IN_QUOTED_FIELD
| QUOTE_IN_QUOTED_FIELD
| EAT_CRNL.

Record reader : Type := {
  state : parser_state;
  field : pystr;
  fields : list pystr
}.

Definition parse_reset : reader :=
  {| state := START_RECORD; field := []; fields := [] |}.

Definition parse_save_field (r : reader) (next : parser_state) : reader :=
  {| state := next; field := []; fields := fields r ++ [field r] |}.

Definition parse_add_char (r : reader) (c : N) (next : parser_state) : reader :=
  {| state := next; field := field r ++ [c]; fields := fields r |}.

Definition set_state (r : reader) (next : parser_state) : reader :=
  {| state := next; field := field r; fields := fields r |}.

Definition is_newline (c : N) : bool := (c =? Chr.LF) || (c =? Chr.CR).

(** [parse_process_char] for a character of the line ([Some c]) or the end
    of line marker ([None]); the result is [None] when the reader raises
    [csv.Error]. *)
Definition start_field (r : reader) (c : option N) : option reader :=
  match c with
  | None => Some (parse_save_field r START_RECORD)
  | Some c =>
      if is_newline c then Some (parse_save_field r EAT_CRNL)
      else if c =? Chr.QUOTE then Some (set_state r IN_QUOTED_FIELD)
      else if c =? Chr.COMMA then Some (parse_save_field r START_FIELD)
      else Some (parse_add_char r c IN_FIELD)
  end.

Definition parse_process_char (r : reader) (c : option N) : option reader :=
  match state r with
  | START_RECORD =>
      match c with
      | None => Some r
      | Some c' => if is_newline c' then Some (set_state r EAT_CRNL)
                   else start_field r c
      end
  | START_FIELD => start_field r c
  | IN_FIELD =>
      match c with
      | None => Some (parse_save_field r START_RECORD)
      | Some c =>
          if is_newline c then Some (parse_save_field r EAT_CRNL)
          else if c =? Chr.COMMA then Some (parse_save_field r START_FIELD)
          else Some (parse_add_char r c IN_FIELD)
      end
  | IN_QUOTED_FIELD =>
      match c with
      | None => Some r
      | Some c =>
          if c =? Chr.QUOTE then Some (set_state r QUOTE_IN_QUOTED_FIELD)
          else Some (parse_add_char r c IN_QUOTED_FIELD)
      end
  | QUOTE_IN_QUOTED_FIELD =>
      match c with
      | None => Some (parse_save_field r START_RECORD)
      | Some c =>
          if c =? Chr.QUOTE then Some (parse_add_char r c IN_QUOTED_FIELD)
          else if c =? Chr.COMMA then Some (parse_save_field r START_FIELD)
          else if is_newline c then Some (parse_save_field r EAT_CRNL)
          else Some (parse_add_char r c IN_FIELD)
      end
  | EAT_CRNL =>
      match c with
      | None => Some (set_state r START_RECORD)
      | Some c => if is_newline c then Some r else None
      end
  end.

(** The characters of one line, then the end of line marker. *)
Fixpoint feed_line (r : reader) (line : pystr) : option reader :=
  match line with
  | [] => parse_process_char r None
  | c :: line' =>
      match parse_process_char r (Some c) with
      | Some r' => feed_line r' line'
      | None => None
      end
  end.

(** The lines a text file opened with [newline=''] yields: they end after a
    line feed, after a carriage return and line feed, and after a carriage
    return alone; the ends are kept. *)
Fixpoint split_lines (s : pystr) (cur : pystr) : list pystr :=
  match s with
  | [] => match cur with [] => [] | _ :: _ => [cur] end
  | c :: s' =>
      if c =? Chr.LF then (cur ++ [c]) :: split_lines s' []
      else if c =? Chr.CR then
        match s' with
        | c' :: s'' =>
            if c' =? Chr.LF then (cur ++ [c; c']) :: split_lines s'' []
            else (cur ++ [c]) :: split_lines s' []
        | [] => [cur ++ [c]]
        end
      else split_lines s' (cur ++ [c])
  end.

(** [list(csv.reader(lines))]: [Reader_iternext] repeated until the lines are
    used up; a record is complete when a line leaves the reader in
    [START_RECORD]. *)
Fixpoint read_lines (lines : list pystr) (r : reader) (rows : list (list pystr))
  : option (list (list pystr)) :=
  match lines with
  | [] =>
      match field r, state r with
      | [], START_RECORD => Some rows
      | [], START_FIELD | [], IN_FIELD | [], QUOTE_IN_QUOTED_FIELD
      | [], EAT_CRNL => Some rows
      | _, _ => Some (rows ++ [fields (parse_save_field r START_RECORD)])
      end
  | line :: lines' =>
      match feed_line r line with
      | None => None
      | Some r' =>
          match state r' with
          | START_RECORD => read_lines lines' parse_reset (rows ++ [fields r'])
          | _ => read_lines lines' r' rows
          end
      end
  end.

(** Reading back a whole file. *)
Definition read_text (text : pystr) : option (list (list pystr)) :=
  read_lines (split_lines text []) parse_reset [].

End Csv.

(** ** Exceptions, the outside world and the program state *)

Inductive exc_class : Type :=
| Exception
| ValueError
| JSONDecodeError            (* json.JSONDecodeError, a ValueError *)
| RequestException           (* requests.RequestException *)
| RequestsJSONDecodeError    (* requests.JSONDecodeError: both of the above *)
| OSError
| IndexError
| AttributeError
| UnicodeEncodeError.        (* a UnicodeError, which is a ValueError *)

(** [issubclass(cls, parent)] *)
Definition subclass (cls parent : exc_class) : bool :=
  match parent, cls with
  | Exception, _ => true
  | ValueError, (ValueError | JSONDecodeError | RequestsJSONDecodeError
                 | UnicodeEncodeError) => true
  | JSONDecodeError, (JSONDecodeError | RequestsJSONDecodeError) => true
  | RequestException, (RequestException | RequestsJSONDecodeError) => true
  | RequestsJSONDecodeError, RequestsJSONDecodeError => true
  | OSError, OSError => true
  | IndexError, IndexError => true
  | AttributeError, AttributeError => true
  | UnicodeEncodeError, UnicodeEncodeError => true
  | _, _ => false
  end.

(** [SystemExit] is not an [Exception]: no handler of the script catches it. *)
Inductive exc : Type :=
| SystemExit (code : Z)
| Raised (cls : exc_class) (msg : pystr).

Record response : Type := {
  status_code : Z;
  text : pystr
}.

(** [Response.ok] of the requests library: [raise_for_status] raises for the
    client and server error codes, 400 to 599. *)
Definition ok (r : response) : bool :=
  negb ((400 <=? status_code r)%Z && (status_code r <? 600)%Z).

Section Program.
Context {RT : PyRuntime}.

Inductive request : Type :=
| GET (url : pystr)
| POST (url : pystr) (json : pyval).

Inductive net_result : Type :=
| Answer (r : response)
| TransportFailure (msg : pystr).

Record World : Type := {
  (** what the network does with a request *)
  serve : request -> net_result;
  (** [open(path, "w")]: [Some msg] when it raises [OSError] *)
  open_error : pystr -> option pystr;
  (** the characters outside ASCII that the encoding of text files (the one
      of the locale, UTF-8 as a rule) can encode *)
  encodes : N -> bool
}.

Record State : Type := {
  stdout : list pystr;               (* one entry per [print] *)
  stderr : list pystr;
  sent : list request;               (* the network calls made, in order *)
  files : list (pystr * pystr)       (* path and content *)
}.

Definition M (A : Type) : Type := State -> (A + exc) * State.

Definition ret {A : Type} (a : A) : M A := fun st => (inl a, st).

Definition bind {A B : Type} (m : M A) (k : A -> M B) : M B :=
  fun st =>
    match m st with
    | (inl a, st') => k a st'
    | (inr e, st') => (inr e, st')
    end.

Definition raise {A : Type} (cls : exc_class) (msg : pystr) : M A :=
  fun st => (inr (Raised cls msg), st).

Definition sys_exit {A : Type} (code : Z) : M A :=
  fun st => (inr (SystemExit code), st).

(** [try: body  except C1 as e: h1  except C2 as e: h2 ...]: the first
    handler whose class the exception is an instance of. *)
Definition try_except {A : Type} (body : M A)
  (handlers : list (exc_class * (pystr -> M A))) : M A :=
  fun st =>
    match body st with
    | (inr (Raised cls msg), st') =>
        match find (fun h => subclass cls (fst h)) handlers with
        | Some h => snd h msg st'
        | None => (inr (Raised cls msg), st')
        end
    | r => r
    end.

Definition print (line : pystr) : M unit :=
  fun st => (inl tt, {| stdout := stdout st ++ [line]; stderr := stderr st;
                        sent := sent st; files := files st |}).

Definition eprint (lines : list pystr) : M unit :=
  fun st => (inl tt, {| stdout := stdout st; stderr := stderr st ++ lines;
                        sent := sent st; files := files st |}).

Definition set_files (fs : list (pystr * pystr)) : M unit :=
  fun st => (inl tt, {| stdout := stdout st; stderr := stderr st;
                        sent := sent st; files := fs |}).

Definition get_files : M (list (pystr * pystr)) := fun st => (inl (files st), st).

End Program.

Declare Scope py_scope.
Delimit Scope py_scope with pym.
Notation "x <- m ;; k" := (bind m (fun x => k))
  (at level 61, m at next level, right associativity) : py_scope.
Notation "m ;; k" := (bind m (fun _ => k))
  (at level 61, right associativity) : py_scope.

Section RestClient.
Context {RT : PyRuntime}.
Variable W : World.
Local Open Scope py_scope.

(** [open(path, "w")]: the file is created or truncated. *)
Definition open_w (path : pystr) : M unit :=
  match open_error W path with
  | Some msg => raise OSError msg
  | None => fs <- get_files ;; set_files (dict_set fs path [])
  end.

(** A character that the encoding of the file takes: an ASCII character,
    or one the encoding has that is not a surrogate. *)
Definition writable (c : N) : bool :=
  (c <? 128)
  || (negb (is_high_surrogate c || is_low_surrogate c) && encodes W c).

(** [f.write(text)] on the file opened at [path]: a text that cannot be
    encoded raises [UnicodeEncodeError] and nothing of it is written. *)
Definition write (path text : pystr) : M unit :=
  if forallb writable text then
    fs <- get_files ;;
    match dict_get fs path with
    | Some old => set_files (dict_set fs path (old ++ text))
    | None => set_files (dict_set fs path text)
    end
  else raise UnicodeEncodeError (encode_error_text text).

(** [requests.get(url)] and [requests.post(url, json=value)]: one network
    call; a transport failure raises [RequestException]. *)
Definition perform (rq : request) : M response :=
  fun st =>
    let st' := {| stdout := stdout st; stderr := stderr st;
                  sent := sent st ++ [rq]; files := files st |} in
    match serve W rq with
    | Answer r => (inl r, st')
    | TransportFailure msg => (inr (Raised RequestException msg), st')
    end.

Definition requests_get (url : pystr) : M response := perform (GET url).
Definition requests_post (url : pystr) (json : pyval) : M response :=
  perform (POST url json).

(** [json.loads(s)] as the script calls it: a failure raises
    [JSONDecodeError]. *)
Definition loads (s : pystr) : M pyval :=
  match json_loads s with
  | Done v => ret v
  | _ => raise JSONDecodeError (json_error_text s)
  end.

(** [response.json()]: a failure raises the library's own
    [JSONDecodeError]. *)
Definition response_json (r : response) : M pyval :=
  match json_loads (text r) with
  | Done v => ret v
  | _ => raise RequestsJSONDecodeError (json_error_text (text r))
  end.

(** *** [str()] and [repr()] of the decoded values *)

Definition float_str (f : pyfloat finite_float) : pystr :=
  match f with
  | FNan => py "nan"
  | FInf false => py "inf"
  | FInf true => py "-inf"
  | FFin x => float_repr x
  end.

Fixpoint py_repr (v : pyval) : pystr :=
  match v with
  | PyNone => py "None"
  | PyBool true => py "True"
  | PyBool false => py "False"
  | PyInt z => str_int z
  | PyFloat f => float_str f
  | PyStr s => str_repr s
  | PyList items => py "[" ++ join (py ", ") (map py_repr items) ++ py "]"
  | PyDict d =>
      py "{" ++ join (py ", ")
                     (map (fun kv => str_repr (fst kv) ++ py ": " ++ py_repr (snd kv)) d)
      ++ py "}"
  end.

Definition py_str (v : pyval) : pystr :=
  match v with
  | PyStr s => s
  | _ => py_repr v
  end.

Definition type_name (v : pyval) : pystr :=
  match v with
  | PyNone => py "NoneType"
  | PyBool _ => py "bool"
  | PyInt _ => py "int"
  | PyFloat _ => py "float"
  | PyStr _ => py "str"
  | PyList _ => py "list"
  | PyDict _ => py "dict"
  end.

(** *** [csv.DictWriter] *)

(** The text [csv.writer] writes for a field: a [str] as it is, [None] as
    the empty string, anything else through [str()]. *)
Definition csv_text (v : pyval) : pystr :=
  match v with
  | PyNone => []
  | _ => py_str v
  end.

Definition no_keys {A : Type} (v : pyval) : M A :=
  raise AttributeError
        (py "'" ++ type_name v ++ py "' object has no attribute 'keys'").

(** [data[0].keys()] *)
Definition first_keys (data : list pyval) : M (list pystr) :=
  match data with
  | [] => raise IndexError (py "list index out of range")
  | PyDict d :: _ => ret (keys d)
  | v :: _ => no_keys v
  end.

(** [DictWriter._dict_to_list] with [extrasaction="raise"], [restval=""] *)
Definition dict_to_list (fieldnames : list pystr) (rowdict : pyval)
  : M (list pyval) :=
  match rowdict with
  | PyDict d =>
      match filter (fun k => negb (mem k fieldnames)) (keys d) with
      | [] => ret (map (fun k => match dict_get d k with
                                 | Some v => v
                                 | None => PyStr []
                                 end) fieldnames)
      | wrong_fields => raise ValueError (csv_extras_text wrong_fields)
      end
  | v => no_keys v
  end.

Definition writer_writerow (path : pystr) (row : list pyval) : M unit :=
  write path (Csv.writerow (map csv_text row)).

(** [DictWriter.writeheader]: the row of the field names *)
Definition writeheader (path : pystr) (fieldnames : list pystr) : M unit :=
  row <- dict_to_list fieldnames (PyDict (map (fun k => (k, PyStr k)) fieldnames)) ;;
  writer_writerow path row.

(** [DictWriter.writerows]: each row is converted, then written *)
Fixpoint writerows (path : pystr) (fieldnames : list pystr)
  (rowdicts : list pyval) : M unit :=
  match rowdicts with
  | [] => ret tt
  | rowdict :: rest =>
      row <- dict_to_list fieldnames rowdict ;;
      writer_writerow path row ;;
      writerows path fieldnames rest
  end.

(** *** class [RestClient] *)

Definition BASE_URL : pystr := py "https://jsonplaceholder.typicode.com".

Record RestClient : Type := {
  method : pystr;
  endpoint : pystr;
  data : option pystr;
  output : option pystr
}.

(** [RestClient.__init__] *)
Definition init (method endpoint : pystr) (data output : option pystr)
  : RestClient :=
  {| method := str_lower method; endpoint := endpoint;
     data := data; output := output |}.

Definition path_of (self : RestClient) : pystr :=
  match output self with Some p => p | None => py "None" end.

Definition save_json (self : RestClient) (body : pyval) : M unit :=
  try_except
    (open_w (path_of self) ;;
     write (path_of self) (json_dumps 4 body) ;;
     print (py "Response successfully saved to " ++ path_of self))
    [(Exception, fun e => print (py "File write error: " ++ e) ;; sys_exit 1%Z)].

Definition save_csv (self : RestClient) (body : pyval) : M unit :=
  let data := match body with PyList items => items | _ => [body] end in
  try_except
    (open_w (path_of self) ;;
     fieldnames <- first_keys data ;;
     writeheader (path_of self) fieldnames ;;
     writerows (path_of self) fieldnames data ;;
     print (py "Response successfully saved to " ++ path_of self))
    [(Exception, fun e => print (py "File write error: " ++ e) ;; sys_exit 1%Z)].

Definition save_response (self : RestClient) (body : pyval) : M unit :=
  let ext := snd (splitext (path_of self)) in
  if str_eqb ext (py ".json") then save_json self body
  else if str_eqb ext (py ".csv") then save_csv self body
  else
    print (py "Error: Unsupported file format '" ++ ext ++ py "'.") ;;
    sys_exit 1%Z.

Definition handle_response (self : RestClient) (r : response) : M unit :=
  print (py "HTTP Status Code: " ++ str_int (status_code r)) ;;
  if negb (ok r) then
    print (py "Error: Request was not successful.") ;; sys_exit 1%Z
  else if truthy (output self) then
    body <- response_json r ;; save_response self body
  else
    body <- response_json r ;; print (json_dumps 4 body).

Definition send_request (self : RestClient) : M unit :=
  let url := BASE_URL ++ endpoint self in
  try_except
    (r <- (if str_eqb (method self) (py "get") then requests_get url
           else if str_eqb (method self) (py "post") then
             if negb (truthy (data self)) then
               raise ValueError (py "For POST requests, data is required.")
             else
               payload <- loads (match data self with Some d => d | None => [] end) ;;
               requests_post url payload
           else raise ValueError (py "Unsupported HTTP method: " ++ method self)) ;;
     handle_response self r)
    [(RequestException,
      fun e => print (py "Network error: " ++ e) ;; sys_exit 1%Z);
     (ValueError,
      fun e => print (py "Invalid input: " ++ e) ;; sys_exit 1%Z)].

(** *** [main] *)

(** The command line as [argparse] sorts it: the positional strings in
    order and the values given to [-d/--data] and [-o/--output]. *)
Record CommandLine : Type := {
  positionals : list pystr;
  opt_data : option pystr;
  opt_output : option pystr
}.

(** The command line as [parse_args] meets it: one without the help option,
    sorted as above, or one with [-h] or [--help], of which the positional
    strings before the first help option count ([argparse] goes from left to
    right and the help option ends the program where it stands). *)
Inductive Argv : Type :=
| Args (cl : CommandLine)
| HelpAfter (seen : list pystr).

Coercion Args : CommandLine >-> Argv.

Record Namespace : Type := {
  ns_method : pystr;
  ns_endpoint : pystr;
  ns_data : option pystr;
  ns_output : option pystr
}.

(** The [choices] of the [method] argument. *)
Definition method_choices : list pystr := [py "get"; py "post"].

(** [parser.parse_args()]: [method] must be one of its choices (compared as
    it is typed), [endpoint] is required, nothing may follow.  The help
    option is met after the positional strings before it were taken: a
    method among them was checked, and what is missing or too many is only
    seen at the end of the command line, which the help option never
    reaches. *)
Definition parse_args (argv : Argv) : Namespace + usage_error :=
  match argv with
  | Args cl =>
      match positionals cl with
      | [] => inr MissingArguments
      | m :: rest =>
          if mem m method_choices then
            match rest with
            | [] => inr MissingArguments
            | [e] => inl {| ns_method := m; ns_endpoint := e;
                            ns_data := opt_data cl; ns_output := opt_output cl |}
            | _ :: extra => inr (UnrecognizedArguments extra)
            end
          else inr (InvalidChoice m)
      end
  | HelpAfter seen =>
      match seen with
      | [] => inr HelpRequested
      | m :: _ =>
          if mem m method_choices then inr HelpRequested
          else inr (InvalidChoice m)
      end
  end.

(** [main]: the help option prints the help on standard output and exits
    with status 0; a rejected command line prints the usage on standard error
    and exits with status 2. *)
Definition main (argv : Argv) : M unit :=
  match parse_args argv with
  | inr HelpRequested => print help_text ;; sys_exit 0%Z
  | inr e => eprint (usage_text e) ;; sys_exit 2%Z
  | inl args =>
      let client := init (ns_method args) (ns_endpoint args)
                         (ns_data args) (ns_output args) in
      send_request client
  end.

(** What a run of the script leaves behind. *)
Record Outcome : Type := {
  exit_code : Z;
  out : list pystr;
  err : list pystr;
  calls : list request;
  disk : list (pystr * pystr)
}.

(** The process exit status: 0 at the end of [main], the argument of
    [sys.exit], 1 for an exception nobody caught. *)
Definition exit_status (r : unit + exc) : Z :=
  match r with
  | inl _ => 0%Z
  | inr (SystemExit code) => code
  | inr (Raised _ _) => 1%Z
  end.

Definition run (argv : Argv) (fs : list (pystr * pystr)) : Outcome :=
  let '(r, st) := main argv {| stdout := []; stderr := []; sent := []; files := fs |} in
  {| exit_code := exit_status r; out := stdout st; err := stderr st;
     calls := sent st; disk := files st |}.

End RestClient.

(** ** Definitions used to state the properties *)

Section Statements.
Context {RT : PyRuntime}.

(** [issues cl rq]: the command line is accepted and makes the script send
    the request [rq]: a GET, or a POST whose payload is present and is decoded
    by [json.loads]. *)
Inductive issues : CommandLine -> request -> Prop :=
| issues_get (e : pystr) (d o : option pystr) :
    issues {| positionals := [py "get"; e]; opt_data := d; opt_output := o |}
           (GET (BASE_URL ++ e))
| issues_post (e d : pystr) (o : option pystr) (v : pyval) :
    truthy (Some d) = true ->
    json_loads d = Done v ->
    issues {| positionals := [py "post"; e]; opt_data := Some d; opt_output := o |}
           (POST (BASE_URL ++ e) v).

(** The first line the script prints when a response arrives. *)
Definition status_line (r : response) : pystr :=
  py "HTTP Status Code: " ++ str_int (status_code r).

(** A 2xx status code. *)
Definition is_2xx (r : response) : bool :=
  (200 <=? status_code r)%Z && (status_code r <? 300)%Z.

(** The outcome of a run that sent [rq], printed [lines] and ended with
    [code] without touching the files. *)
Definition outcome (code : Z) (lines : list pystr) (rq : list request)
  (fs : list (pystr * pystr)) : Outcome :=
  {| exit_code := code; out := lines; err := []; calls := rq; disk := fs |}.

(** The first claim as the specification words it, at one run: a response
    that is not 2xx ends the run with the status line, an error line and a
    non-zero status, the files untouched. *)
Definition non_2xx_is_an_error (W : World) (cl : CommandLine) (rq : request)
  (r : response) (fs : list (pystr * pystr)) : Prop :=
  issues cl rq -> serve W rq = Answer r -> is_2xx r = false ->
  exists code line,
    code <> 0%Z /\ run W cl fs = outcome code [status_line r; line] [rq] fs.

(** The second claim as the specification words it, at one token: a method
    that is get or post in any letter case is accepted. *)
Definition accepts_case_insensitively (m e : pystr) : Prop :=
  str_lower m = py "get" \/ str_lower m = py "post" ->
  exists args,
    parse_args {| positionals := [m; e]; opt_data := None; opt_output := None |}
    = inl args.





(** The state of a run: what was printed and sent so far, and the files. *)
Definition start (rq : list request) (fs : list (pystr * pystr)) : State :=
  {| stdout := []; stderr := []; sent := rq; files := fs |}.

Definition add_out (st : State) (lines : list pystr) : State :=
  {| stdout := stdout st ++ lines; stderr := stderr st;
     sent := sent st; files := files st |}.

(** The client [main] builds from an accepted command line. *)
Definition client_of (cl : CommandLine) : RestClient :=
  init (nth 0 (positionals cl) []) (nth 1 (positionals cl) [])
       (opt_data cl) (opt_output cl).

Definition finish (p : (unit + exc) * State) : Outcome :=
  {| exit_code := exit_status (fst p); out := stdout (snd p);
     err := stderr (snd p); calls := sent (snd p); disk := files (snd p) |}.

(** The two [except] clauses of [send_request]. *)
Definition top_handlers : list (exc_class * (pystr -> M unit)) :=
  [(RequestException,
    fun e => bind (print (py "Network error: " ++ e)) (fun _ => sys_exit 1%Z));
   (ValueError,
    fun e => bind (print (py "Invalid input: " ++ e)) (fun _ => sys_exit 1%Z))].

(** The message for a destination whose extension is not supported. *)
Definition unsupported_line (path : pystr) : pystr :=
  py "Error: Unsupported file format '" ++ snd (splitext path) ++ py "'.".

Definition saved_line (path : pystr) : pystr :=
  py "Response successfully saved to " ++ path.


(** The ninth claim as the specification words it, at one run that receives
    a 2xx response: without [-o] the output is the status line and the
    decoded body with an indentation of four spaces; with [-o] and a save
    that succeeds it is the status line and the confirmation of the path. *)
Definition success_prints_or_confirms (W : World) (cl : CommandLine)
  (rq : request) (r : response) (fs : list (pystr * pystr)) : Prop :=
  issues cl rq -> serve W rq = Answer r -> is_2xx r = true ->
  match opt_output cl with
  | None =>
      exists v, json_loads (text r) = Done v
                /\ out (run W cl fs) = [status_line r; json_dumps 4 v]
  | Some p =>
      exit_code (run W cl fs) = 0%Z ->
      out (run W cl fs) = [status_line r; saved_line p]
  end.

End Statements.

(** ** A runtime and worlds to run the model on *)

Module Sample.

(** A runtime with one finite float, [0.0], and the messages of CPython
    3.11 where they do not depend on the input. *)
Definition runtime : PyRuntime := {|
  finite_float := unit;
  float_of_literal := fun _ => FFin tt;
  float_repr := fun _ => py "0.0";
  str_repr := fun s => py "'" ++ s ++ py "'";
  json_error_text := fun _ => py "Expecting value: line 1 column 1 (char 0)";
  csv_extras_text := fun _ => py "dict contains fields not in fieldnames";
  usage_text := fun _ =>
    [py "usage: restful.py [-h] [-d DATA] [-o OUTPUT] {get,post} endpoint"];
  help_text :=
    py "usage: restful.py [-h] [-d DATA] [-o OUTPUT] {get,post} endpoint";
  encode_error_text := fun _ => py "surrogates not allowed";
  nesting_limit := 100
|}.

(** A server that answers every request with the given status and body; every
    file can be opened, and is encoded in UTF-8. *)
Definition server (code : Z) (body : pystr) : World (RT := runtime) :=
  {| serve := fun _ => Answer {| status_code := code; text := body |};
     open_error := fun _ => None;
     encodes := fun _ => true |}.

Definition command (m e : string) (d o : option string) : CommandLine :=
  {| positionals := [py m; py e];
     opt_data := option_map py d; opt_output := option_map py o |}.

End Sample.

(** * Properties *)

Lemma str_eqb_eq (a b : pystr) : str_eqb a b = true <-> a = b.
Proof.
  revert b. induction a as [|x a IH]; intros [|y b]; simpl; split;
    try congruence; try reflexivity.
  - intros H. apply andb_true_iff in H. destruct H as [H1 H2].
    apply N.eqb_eq in H1. apply IH in H2. congruence.
  - intros H. injection H as -> ->. rewrite N.eqb_refl. simpl. now apply IH.
Qed.

Lemma str_eqb_refl (a : pystr) : str_eqb a a = true.
Proof. now apply str_eqb_eq. Qed.

Lemma str_eqb_neq (a b : pystr) : a <> b -> str_eqb a b = false.
Proof.
  intros H. destruct (str_eqb a b) eqn:E; [|reflexivity].
  apply str_eqb_eq in E. contradiction.
Qed.

Section Requests.
Context {RT : PyRuntime}.
Variable W : World.

(** C3. A POST command line without [-d] ends with the message that data is
    required and exit status 1; no request is sent and no file is touched. *)
Theorem post_without_data (e : pystr) (o : option pystr)
  (fs : list (pystr * pystr)) :
  run W {| positionals := [py "post"; e]; opt_data := None; opt_output := o |} fs
  = outcome 1 [py "Invalid input: For POST requests, data is required."] [] fs.
Proof. reflexivity. Qed.

(** C10. A POST command line whose [-d] value is the empty string is treated
    as one without payload: the same message as for a missing payload (the
    decoder is not reached), exit status 1, no request. *)
Theorem post_with_empty_data (e : pystr) (o : option pystr)
  (fs : list (pystr * pystr)) :
  run W {| positionals := [py "post"; e]; opt_data := Some []; opt_output := o |} fs
  = outcome 1 [py "Invalid input: For POST requests, data is required."] [] fs
  /\ run W {| positionals := [py "post"; e]; opt_data := Some []; opt_output := o |} fs
     = run W {| positionals := [py "post"; e]; opt_data := None; opt_output := o |} fs.
Proof. split; reflexivity. Qed.


End Requests.



(** ** From the command line to the response *)

Section Flow.
Context {RT : PyRuntime}.
Variable W : World.

Lemma run_issues (cl : CommandLine) (rq : request) (r : response)
  (fs : list (pystr * pystr)) :
  issues cl rq -> serve W rq = Answer r ->
  run W cl fs
  = finish (try_except (handle_response W (client_of cl) r) top_handlers
                       (start [rq] fs)).
Proof.
  intros Hi Hs. destruct Hi as [e d o | e d o v Ht Hl].
  - unfold run, main, send_request, try_except, bind, requests_get, perform.
    cbn -[handle_response BASE_URL]. rewrite Hs.
    cbn -[handle_response BASE_URL]. unfold client_of, start.
    cbn -[handle_response BASE_URL].
    destruct (handle_response _ _ _ _) as [[u|[c|c m]] st']; cbn;
      try reflexivity.
    destruct c; reflexivity.
  - destruct d as [|c d]; [discriminate|].
    unfold run, main, send_request, try_except, bind, requests_post, perform,
      loads.
    cbn -[handle_response json_loads BASE_URL]. rewrite Hl.
    cbn -[handle_response json_loads BASE_URL]. rewrite Hs.
    cbn -[handle_response BASE_URL]. unfold client_of, start.
    cbn -[handle_response BASE_URL].
    destruct (handle_response _ _ _ _) as [[u|[c0|c0 m]] st']; cbn;
      try reflexivity.
    destruct c0; reflexivity.
Qed.

Lemma issues_output (cl : CommandLine) (rq : request) :
  issues cl rq -> output (client_of cl) = opt_output cl.
Proof. intros []; reflexivity. Qed.

Lemma handle_not_ok (self : RestClient) (r : response) (st : State) :
  ok r = false ->
  handle_response W self r st
  = (inr (SystemExit 1),
     add_out st [status_line r; py "Error: Request was not successful."]).
Proof.
  intros H. unfold handle_response, bind, print, add_out, status_line.
  cbn -[str_int]. rewrite H. cbn -[str_int].
  rewrite <- app_assoc. reflexivity.
Qed.

Lemma handle_ok_print (self : RestClient) (r : response) (st : State)
  (v : pyval) :
  ok r = true -> truthy (output self) = false -> json_loads (text r) = Done v ->
  handle_response W self r st
  = (inl tt, add_out st [status_line r; json_dumps 4 v]).
Proof.
  intros H Ho Hl. unfold handle_response, bind, print, add_out, status_line,
    response_json.
  cbn -[str_int json_loads json_dumps]. rewrite H, Ho, Hl.
  cbn -[str_int json_loads json_dumps].
  rewrite <- app_assoc. reflexivity.
Qed.

Lemma handle_ok_save (self : RestClient) (r : response) (st : State)
  (v : pyval) :
  ok r = true -> truthy (output self) = true -> json_loads (text r) = Done v ->
  handle_response W self r st
  = save_response W self v (add_out st [status_line r]).
Proof.
  intros H Ho Hl. unfold handle_response, bind, print, add_out, status_line,
    response_json.
  cbn -[str_int json_loads save_response]. rewrite H, Ho, Hl.
  reflexivity.
Qed.

Lemma handle_ok_undecodable (self : RestClient) (r : response) (st : State) :
  ok r = true -> (forall v, json_loads (text r) <> Done v) ->
  handle_response W self r st
  = (inr (Raised RequestsJSONDecodeError (json_error_text (text r))),
     add_out st [status_line r]).
Proof.
  intros H Hl. unfold handle_response, bind, print, add_out, status_line,
    response_json.
  cbn -[str_int json_loads save_response]. rewrite H.
  destruct (json_loads (text r)) as [v| |] eqn:E;
    [destruct (Hl v); reflexivity| |];
    destruct (truthy (output self)); reflexivity.
Qed.

Lemma save_response_unsupported (self : RestClient) (v : pyval) (st : State) :
  snd (splitext (path_of self)) <> py ".json" ->
  snd (splitext (path_of self)) <> py ".csv" ->
  save_response W self v st
  = (inr (SystemExit 1), add_out st [unsupported_line (path_of self)]).
Proof.
  intros Hj Hc. unfold save_response.
  rewrite (str_eqb_neq Hj), (str_eqb_neq Hc). reflexivity.
Qed.

Lemma ok_error_range (r : response) :
  ok r = false <-> (400 <= status_code r < 600)%Z.
Proof.
  unfold ok. rewrite negb_false_iff, andb_true_iff, Z.leb_le, Z.ltb_lt.
  reflexivity.
Qed.

(** C2 (amended). The method token is compared with the choices as it is
    typed: get and post are accepted and stay as they are when the client
    lowers them; every other token, GET and Post included, is rejected by
    the argument grammar, and the run ends with exit status 2 before any
    request or file write. *)
Theorem method_choice_is_exact (cl : CommandLine) (m : pystr)
  (rest : list pystr) (fs : list (pystr * pystr)) :
  positionals cl = m :: rest ->
  (m = py "get" \/ m = py "post" ->
   str_lower m = m /\
   forall e, rest = [e] ->
     parse_args cl = inl {| ns_method := m; ns_endpoint := e;
                            ns_data := opt_data cl; ns_output := opt_output cl |})
  /\ (m <> py "get" -> m <> py "post" ->
      parse_args cl = inr (InvalidChoice m)
      /\ run W cl fs
         = {| exit_code := 2; out := []; err := usage_text (InvalidChoice m);
              calls := []; disk := fs |}).
Proof.
  intros Hp. split.
  - intros Hm. split; [destruct Hm as [-> | ->]; reflexivity|].
    intros e ->. unfold parse_args. rewrite Hp.
    destruct Hm as [-> | ->]; reflexivity.
  - intros Hg Ho.
    assert (Hmem : mem m method_choices = false).
    { unfold mem, method_choices. simpl.
      rewrite (str_eqb_neq Hg), (str_eqb_neq Ho). reflexivity. }
    assert (Ha : parse_args cl = inr (InvalidChoice m)).
    { unfold parse_args. rewrite Hp, Hmem. reflexivity. }
    split; [exact Ha|]. unfold run, main. rewrite Ha. reflexivity.
Qed.

End Flow.

Lemma method_choice_is_exact_witness :
  parse_args (Sample.command "post" "/posts" None None)
  = inl {| ns_method := py "post"; ns_endpoint := py "/posts";
           ns_data := None; ns_output := None |}
  /\ parse_args (Sample.command "Post" "/posts" None None)
     = inr (InvalidChoice (py "Post")).
Proof.
  split.
  - apply (method_choice_is_exact (Sample.server 200 (py "{}"))
             (Sample.command "post" "/posts" None None) [] eq_refl).
    + right. reflexivity.
    + reflexivity.
  - apply (method_choice_is_exact (Sample.server 200 (py "{}"))
             (Sample.command "Post" "/posts" None None) [] eq_refl);
      discriminate.
Defined.

(** C2 as worded fails: GET lowers to get, yet the parser rejects it. *)
Lemma uppercase_method_counterexample :
  ~ accepts_case_insensitively (py "GET") (py "/posts/1").
Proof.
  intros H. destruct H as [args H]; [left; reflexivity|].
  vm_compute in H. discriminate H.
Qed.
Section Saving.
Context {RT : PyRuntime}.
Variable W : World.



Definition same_io (st st' : State) : Prop :=
  stdout st' = stdout st /\ stderr st' = stderr st /\ sent st' = sent st.

Definition file_op {A : Type} (m : M A) : Prop :=
  forall st, same_io st (snd (m st)) /\ forall c, fst (m st) <> inr (SystemExit c).

Lemma same_io_refl st : same_io st st.
Proof. repeat split. Qed.

Lemma same_io_trans a b c : same_io a b -> same_io b c -> same_io a c.
Proof. unfold same_io. intuition congruence. Qed.

Lemma file_op_ret A (a : A) : file_op (ret a).
Proof. intros st. split; [apply same_io_refl|discriminate]. Qed.

Lemma file_op_raise A cls msg : file_op (@raise _ A cls msg).
Proof. intros st. split; [apply same_io_refl|discriminate]. Qed.

Lemma file_op_bind A B (m : M A) (k : A -> M B) :
  file_op m -> (forall a, file_op (k a)) -> file_op (bind m k).
Proof.
  intros Hm Hk st. unfold bind. specialize (Hm st).
  destruct (m st) as [[a|e] st1]; simpl in Hm.
  - destruct Hm as [Hm _]. destruct (Hk a st1) as [H1 H2]. split; [|exact H2].
    eapply same_io_trans; [exact Hm|exact H1].
  - destruct Hm as [H1 H2]. split; [exact H1|].
    intros c E. apply (H2 c). simpl in E. injection E as ->. reflexivity.
Qed.

Lemma file_op_set_files fs : file_op (set_files fs).
Proof. intros st. split; [repeat split|discriminate]. Qed.

Lemma file_op_get_files : file_op get_files.
Proof. intros st. split; [repeat split|discriminate]. Qed.

Lemma file_op_open_w p : file_op (open_w W p).
Proof.
  unfold open_w. destruct (open_error W p).
  - apply file_op_raise.
  - apply file_op_bind; [apply file_op_get_files|]. intros. apply file_op_set_files.
Qed.

Lemma file_op_write p t : file_op (write W p t).
Proof.
  unfold write. destruct (forallb _ t); [|apply file_op_raise].
  apply file_op_bind; [apply file_op_get_files|]. intros fs.
  destruct (dict_get fs p); apply file_op_set_files.
Qed.

Lemma file_op_first_keys l : file_op (first_keys l).
Proof.
  destruct l as [|[] l]; simpl; try apply file_op_raise. apply file_op_ret.
Qed.

Lemma file_op_dict_to_list fn v : file_op (dict_to_list fn v).
Proof.
  destruct v; simpl; try apply file_op_raise.
  destruct (filter _ _); [apply file_op_ret|apply file_op_raise].
Qed.

Lemma file_op_writerows p fn rows : file_op (writerows W p fn rows).
Proof.
  induction rows as [|r rows IH]; simpl; [apply file_op_ret|].
  apply file_op_bind; [apply file_op_dict_to_list|]. intros row.
  apply file_op_bind; [apply file_op_write|]. intros _. exact IH.
Qed.

Lemma file_op_writeheader p fn : file_op (writeheader W p fn).
Proof.
  unfold writeheader. apply file_op_bind; [apply file_op_dict_to_list|].
  intros row. apply file_op_write.
Qed.

(** A computation that prints [line] when it ends normally and prints nothing
    when it raises; it does not exit. *)
Definition saves (m : M unit) (line : pystr) : Prop :=
  forall st,
    match m st with
    | (inl _, st') => stdout st' = stdout st ++ [line]
                      /\ stderr st' = stderr st /\ sent st' = sent st
    | (inr (Raised _ _), st') => same_io st st'
    | (inr (SystemExit _), _) => False
    end.

Lemma saves_print line : saves (print line) line.
Proof. intros st. simpl. repeat split. Qed.

Lemma saves_bind A (m : M A) (k : A -> M unit) line :
  file_op m -> (forall a, saves (k a) line) -> saves (bind m k) line.
Proof.
  intros Hm Hk st. unfold bind. destruct (Hm st) as [H1 H2].
  destruct (m st) as [[a|e] st1]; simpl in H1, H2.
  - specialize (Hk a st1). destruct (k a st1) as [[u|[c|c msg]] st2].
    + destruct H1 as (Ha & Hb & Hc). destruct Hk as (Hd & He & Hf).
      repeat split; congruence.
    + exact Hk.
    + eapply same_io_trans; eassumption.
  - destruct e as [c|c msg]; [now apply (H2 c)|exact H1].
Qed.

Definition write_error_handler : list (exc_class * (pystr -> M unit)) :=
  [(Exception,
    fun e => bind (print (py "File write error: " ++ e)) (fun _ => sys_exit 1%Z))].

Lemma try_saves (body : M unit) (line : pystr) (st : State) :
  saves body line ->
  (exists st', try_except body write_error_handler st = (inl tt, st')
               /\ stdout st' = stdout st ++ [line]
               /\ stderr st' = stderr st /\ sent st' = sent st)
  \/ (exists msg st',
        try_except body write_error_handler st = (inr (SystemExit 1), st')
        /\ stdout st' = stdout st ++ [py "File write error: " ++ msg]
        /\ stderr st' = stderr st /\ sent st' = sent st).
Proof.
  intros H. specialize (H st). unfold try_except.
  destruct (body st) as [[[]|[c|c msg]] st1].
  - left. exists st1. split; [reflexivity|exact H].
  - contradiction.
  - right. exists msg. eexists. split; [reflexivity|].
    destruct H as (Ha & Hb & Hc). simpl. rewrite Ha. repeat split; assumption.
Qed.

Lemma save_json_saves self v :
  saves (bind (open_w W (path_of self)) (fun _ =>
         bind (write W (path_of self) (json_dumps 4 v)) (fun _ =>
         print (saved_line (path_of self))))) (saved_line (path_of self)).
Proof.
  apply saves_bind; [apply file_op_open_w|]. intros _.
  apply saves_bind; [apply file_op_write|]. intros _. apply saves_print.
Qed.

Lemma save_csv_saves self data :
  saves (bind (open_w W (path_of self)) (fun _ =>
         bind (first_keys data) (fun fieldnames =>
         bind (writeheader W (path_of self) fieldnames) (fun _ =>
         bind (writerows W (path_of self) fieldnames data) (fun _ =>
         print (saved_line (path_of self))))))) (saved_line (path_of self)).
Proof.
  apply saves_bind; [apply file_op_open_w|]. intros _.
  apply saves_bind; [apply file_op_first_keys|]. intros fn.
  apply saves_bind; [apply file_op_writeheader|]. intros _.
  apply saves_bind; [apply file_op_writerows|]. intros _. apply saves_print.
Qed.

(** What [save_response] can do from a state [st]: end normally after the
    confirmation line, or exit with status 1 after one error line. *)
Lemma save_response_cases self v st :
  (exists st', save_response W self v st = (inl tt, st')
               /\ stdout st' = stdout st ++ [saved_line (path_of self)]
               /\ stderr st' = stderr st /\ sent st' = sent st)
  \/ (exists line st',
        save_response W self v st = (inr (SystemExit 1), st')
        /\ stdout st' = stdout st ++ [line]
        /\ stderr st' = stderr st /\ sent st' = sent st).
Proof.
  unfold save_response.
  destruct (str_eqb _ (py ".json")).
  - destruct (try_saves st (save_json_saves self v)) as [H|(msg & st' & H)];
      [left; exact H|right; eauto].
  - destruct (str_eqb _ (py ".csv")).
    + destruct (try_saves st
        (save_csv_saves self match v with PyList items => items | _ => [v] end))
        as [H|(msg & st' & H)]; [left; exact H|right; eauto].
    + right. do 2 eexists. split; [reflexivity|]. repeat split.
Qed.

Lemma finish_exit (r : unit + exc) (st : State) :
  finish (r, st) = {| exit_code := exit_status r; out := stdout st;
                      err := stderr st; calls := sent st; disk := files st |}.
Proof. reflexivity. Qed.

(** C1 (amended). A response with a client or server error code (400 to 599,
    the codes for which the response is not [ok]) ends the run with the status
    line, the error line and exit status 1; no file is written, whatever the
    output option.  A response with any other code, 2xx or not (300 for one),
    is handled as a success: when its body decodes, the run prints it after
    the status line and ends with status 0, or, with an output destination,
    goes on to save it. *)
Theorem error_status_is_reported (cl : CommandLine) (rq : request)
  (r : response) (fs : list (pystr * pystr)) :
  issues cl rq -> serve W rq = Answer r ->
  ((400 <= status_code r < 600)%Z ->
   run W cl fs
   = outcome 1 [status_line r; py "Error: Request was not successful."] [rq] fs)
  /\ (~ (400 <= status_code r < 600)%Z ->
      forall v, json_loads (text r) = Done v ->
        (truthy (opt_output cl) = false ->
         run W cl fs = outcome 0 [status_line r; json_dumps 4 v] [rq] fs)
        /\ (truthy (opt_output cl) = true ->
            run W cl fs
            = finish (save_response W (client_of cl) v
                        (add_out (start [rq] fs) [status_line r])))).
Proof.
  intros Hi Hs. pose proof (issues_output Hi) as Hout. split.
  - intros Hr. rewrite (run_issues W fs Hi Hs).
    unfold try_except. rewrite handle_not_ok by now apply ok_error_range.
    reflexivity.
  - intros Hr v Hl.
    assert (Hok : ok r = true).
    { destruct (ok r) eqn:E; [reflexivity|].
      apply ok_error_range in E. contradiction. }
    split; intros Ht; rewrite (run_issues W fs Hi Hs); unfold try_except.
    + erewrite handle_ok_print;
        [reflexivity|exact Hok|rewrite Hout; exact Ht|exact Hl].
    + erewrite handle_ok_save; [|exact Hok|rewrite Hout; exact Ht|exact Hl].
      destruct (save_response_cases (client_of cl) v
                  (add_out (start [rq] fs) [status_line r]))
        as [(st' & E & _)|(line & st' & E & _)]; rewrite E; reflexivity.
Qed.


(** C9 (amended). After a successful response: without an output
    destination, or with the empty string for one, a body that decodes is
    printed after the status line, serialised with an indentation of four
    spaces, and the run ends with status 0; with an output destination that
    is not the empty string, a run that ends with status 0 has printed the
    status line and then the confirmation naming the path, and nothing
    else. *)
Theorem success_output (cl : CommandLine) (rq : request) (r : response)
  (fs : list (pystr * pystr)) :
  issues cl rq -> serve W rq = Answer r -> ok r = true ->
  (truthy (opt_output cl) = false ->
   forall v, json_loads (text r) = Done v ->
     run W cl fs = outcome 0 [status_line r; json_dumps 4 v] [rq] fs)
  /\ (forall p, opt_output cl = Some p -> truthy (Some p) = true ->
      exit_code (run W cl fs) = 0%Z ->
      out (run W cl fs) = [status_line r; saved_line p]).
Proof.
  intros Hi Hs Hok. pose proof (issues_output Hi) as Hout. split.
  - intros Ht v Hl. rewrite (run_issues W fs Hi Hs). unfold try_except.
    erewrite handle_ok_print;
      [reflexivity|exact Hok|rewrite Hout; exact Ht|exact Hl].
  - intros p Ho Ht. rewrite Ho in Hout.
    assert (Hp : path_of (client_of cl) = p) by (unfold path_of; now rewrite Hout).
    rewrite (run_issues W fs Hi Hs). unfold try_except.
    destruct (json_loads (text r)) as [v| |] eqn:Hl.
    + erewrite handle_ok_save; [|exact Hok|rewrite Hout; exact Ht|exact Hl].
      destruct (save_response_cases (client_of cl) v
                  (add_out (start [rq] fs) [status_line r]))
        as [(st' & E & H1 & _)|(line & st' & E & _)]; rewrite E.
      * intros _. simpl. rewrite H1, Hp. reflexivity.
      * discriminate.
    + rewrite handle_ok_undecodable; [|exact Hok|congruence]. discriminate.
    + rewrite handle_ok_undecodable; [|exact Hok|congruence]. discriminate.
Qed.
End Saving.

(** ** The extension of a path that ends in [.csv] *)

Lemma rfind_loop_app (a b : pystr) (c : N) (i last : Z) :
  rfind_loop (a ++ b) c i last
  = rfind_loop b c (i + Z.of_nat (List.length a))%Z (rfind_loop a c i last).
Proof.
  revert i last. induction a as [|x a IH]; intros i last; simpl.
  - now rewrite Z.add_0_r.
  - rewrite IH. f_equal. lia.
Qed.

Lemma rfind_loop_bound (a : pystr) (c : N) (i last : Z) :
  (last < i)%Z -> (rfind_loop a c i last < i + Z.of_nat (List.length a))%Z.
Proof.
  revert i last. induction a as [|x a IH]; intros i last H; simpl.
  - lia.
  - specialize (IH (i + 1)%Z (if x =? c then i else last)).
    destruct (x =? c); lia.
Qed.

Lemma splitext_loop_cases (n : nat) (p : pystr) (f d : nat) :
  splitext_loop n p f d = (p, [])
  \/ splitext_loop n p f d = (firstn d p, skipn d p).
Proof.
  revert f. induction n as [|n IH]; intros f; simpl; [now left|].
  destruct (nth_error p f) as [c|]; [|now right].
  destruct (c =? Chr.DOT); [apply IH|now right].
Qed.

Lemma splitext_csv (q : pystr) :
  snd (splitext (q ++ py ".csv")) = py ".csv"
  \/ snd (splitext (q ++ py ".csv")) = [].
Proof.
  unfold splitext, rfind. rewrite !rfind_loop_app.
  change (rfind_loop (py ".csv") Chr.DOT (0 + Z.of_nat (List.length q))
            (rfind_loop q Chr.DOT 0 (-1)))
    with (0 + Z.of_nat (List.length q))%Z.
  change (rfind_loop (py ".csv") Chr.SLASH (0 + Z.of_nat (List.length q))
            (rfind_loop q Chr.SLASH 0 (-1)))
    with (rfind_loop q Chr.SLASH 0 (-1)).
  pose proof (@rfind_loop_bound q Chr.SLASH 0 (-1) ltac:(lia)) as Hb.
  destruct (Z.gtb_spec (0 + Z.of_nat (List.length q))
                       (rfind_loop q Chr.SLASH 0 (-1))) as [_|Hle]; [|lia].
  match goal with |- context [splitext_loop ?n ?p ?f ?d] =>
    destruct (splitext_loop_cases n p f d) as [E|E]; rewrite E end.
  - now right.
  - left. simpl. rewrite ?Z.add_0_l, Nat2Z.id.
    rewrite skipn_app, skipn_all, Nat.sub_diag. reflexivity.
Qed.

Section EmptyCsv.
Context {RT : PyRuntime}.
Variable W : World.

(** C5. With a destination that ends in [.csv] and a successful response
    whose body is the empty list, the save fails: the run prints the status
    line and one error line and exits with status 1; the destination is left
    untouched or empty, so no header is written.  When the extension is
    [.csv] and the file can be opened, the error is the missing first record
    and the file is left empty. *)
Theorem csv_of_empty_list (cl : CommandLine) (rq : request) (r : response)
  (q : pystr) (fs : list (pystr * pystr)) :
  issues cl rq -> serve W rq = Answer r -> ok r = true ->
  json_loads (text r) = Done (PyList []) ->
  opt_output cl = Some (q ++ py ".csv") ->
  let p := q ++ py ".csv" in
  let o := run W cl fs in
  exit_code o = 1%Z
  /\ (exists line, out o = [status_line r; line])
  /\ (disk o = fs \/ disk o = dict_set fs p [])
  /\ (snd (splitext p) = py ".csv" -> open_error W p = None ->
      out o = [status_line r; py "File write error: list index out of range"]
      /\ disk o = dict_set fs p []).
Proof.
  intros Hi Hs Hok Hl Ho p o. subst o.
  pose proof (issues_output Hi) as Hout. rewrite Ho in Hout. fold p in Hout.
  assert (Ht : truthy (output (client_of cl)) = true).
  { rewrite Hout. unfold p. destruct q; reflexivity. }
  assert (Hp : path_of (client_of cl) = p) by (unfold path_of; now rewrite Hout).
  rewrite (run_issues W fs Hi Hs). unfold try_except.
  erewrite handle_ok_save; [|exact Hok|exact Ht|exact Hl].
  destruct (splitext_csv q) as [E|E]; fold p in E.
  - unfold save_response, save_csv. rewrite Hp, E.
    change (str_eqb (py ".csv") (py ".json")) with false.
    change (str_eqb (py ".csv") (py ".csv")) with true.
    cbv iota. unfold try_except, bind, open_w.
    destruct (open_error W p) as [msg|] eqn:Eo.
    + cbn. split; [reflexivity|]. split; [eexists; reflexivity|].
      split; [left; reflexivity|]. intros _ Hn. discriminate Hn.
    + cbn. split; [reflexivity|]. split; [eexists; reflexivity|].
      split; [right; reflexivity|]. intros _ _. split; reflexivity.
  - rewrite save_response_unsupported; rewrite ?Hp, ?E; try discriminate.
    cbn. split; [reflexivity|]. split; [eexists; reflexivity|].
    split; [left; reflexivity|]. intros Hn. discriminate Hn.
Qed.

End EmptyCsv.

Lemma error_status_is_reported_witness :
  run (Sample.server 404 (py "{}"))
      (Sample.command "get" "/posts/999" None (Some "out.json"%string)) []
  = outcome 1 [py "HTTP Status Code: 404";
               py "Error: Request was not successful."]
            [GET (py "https://jsonplaceholder.typicode.com/posts/999")] []
  /\ run (Sample.server 300 (py "[1]"))
         (Sample.command "get" "/posts" None None) []
     = outcome 0 [py "HTTP Status Code: 300";
                  Chr.LBRACKET :: Chr.LF :: py "    1"
                  ++ [Chr.LF; Chr.RBRACKET]]
               [GET (py "https://jsonplaceholder.typicode.com/posts")] [].
Proof.
  split.
  - apply (proj1 (error_status_is_reported (Sample.server 404 (py "{}"))
                    (r := {| status_code := 404; text := py "{}" |}) []
                    (issues_get (py "/posts/999") None (Some (py "out.json")))
                    eq_refl)).
    simpl. lia.
  - refine (proj1 (proj2 (error_status_is_reported
                            (Sample.server 300 (py "[1]"))
                            (r := {| status_code := 300; text := py "[1]" |}) []
                            (issues_get (py "/posts") None None) eq_refl)
                         _ (PyList [PyInt 1]) eq_refl) eq_refl).
    simpl. lia.
Defined.

(** C1 as worded fails: a 300 answer is not 2xx, yet the response is [ok];
    with an output destination its body is saved and the run ends with
    status 0. *)
Lemma multiple_choices_counterexample :
  is_2xx {| status_code := 300; text := py "{}" |} = false
  /\ run (Sample.server 300 (py "{}"))
         (Sample.command "get" "/posts/1" None (Some "out.json"%string)) []
     = {| exit_code := 0;
          out := [py "HTTP Status Code: 300";
                  py "Response successfully saved to out.json"];
          err := [];
          calls := [GET (py "https://jsonplaceholder.typicode.com/posts/1")];
          disk := [(py "out.json", py "{}")] |}
  /\ ~ non_2xx_is_an_error (Sample.server 300 (py "{}"))
        (Sample.command "get" "/posts/1" None (Some "out.json"%string))
        (GET (py "https://jsonplaceholder.typicode.com/posts/1"))
        {| status_code := 300; text := py "{}" |} [].
Proof.
  split; [reflexivity|]. split; [reflexivity|].
  intros H. destruct H as (code & line & Hc & H).
  - apply (issues_get (py "/posts/1") None (Some (py "out.json"))).
  - reflexivity.
  - reflexivity.
  - vm_compute in H. discriminate H.
Qed.



(** C9 as worded fails twice.  A 204 answer is a success response without a
    body: nothing decodes, and the line after the status line is the one of
    a network error, with exit status 1.  And with the empty string as the
    output destination a run that ends with status 0 has printed the body,
    not a confirmation. *)
Lemma no_content_counterexample :
  run (Sample.server 204 [])
      (Sample.command "get" "/posts/1" None None) []
  = outcome 1 [py "HTTP Status Code: 204";
               py "Network error: Expecting value: line 1 column 1 (char 0)"]
            [GET (py "https://jsonplaceholder.typicode.com/posts/1")] []
  /\ ~ success_prints_or_confirms (Sample.server 204 [])
        (Sample.command "get" "/posts/1" None None)
        (GET (py "https://jsonplaceholder.typicode.com/posts/1"))
        {| status_code := 204; text := [] |} []
  /\ ~ success_prints_or_confirms (Sample.server 200 (py "[1]"))
        (Sample.command "get" "/posts" None (Some ""%string))
        (GET (py "https://jsonplaceholder.typicode.com/posts"))
        {| status_code := 200; text := py "[1]" |} [].
Proof.
  split; [reflexivity|]. split.
  - intros H.
    destruct (H (issues_get (py "/posts/1") None None) eq_refl eq_refl)
      as (v & Hv & _).
    discriminate Hv.
  - intros H.
    pose proof (H (issues_get (py "/posts") None (Some [])) eq_refl eq_refl
                  eq_refl) as E.
    vm_compute in E. discriminate E.
Qed.

Lemma success_output_witness :
  let W := Sample.server 200 (py "[1, 2]") in
  run W (Sample.command "get" "/posts" None None) []
  = outcome 0 [py "HTTP Status Code: 200";
               Chr.LBRACKET :: Chr.LF :: py "    1," ++ Chr.LF :: py "    2"
               ++ [Chr.LF; Chr.RBRACKET]]
            [GET (py "https://jsonplaceholder.typicode.com/posts")] []
  /\ out (run W (Sample.command "get" "/posts" None (Some "out.json"%string)) [])
     = [py "HTTP Status Code: 200";
        py "Response successfully saved to out.json"].
Proof.
  intros W. split.
  - apply (proj1 (@success_output Sample.runtime W
                    (Sample.command "get" "/posts" None None) _
                    {| status_code := 200; text := py "[1, 2]" |} []
                    (issues_get (py "/posts") None None) eq_refl eq_refl)
                 eq_refl (PyList [PyInt 1; PyInt 2]) eq_refl).
  - apply (proj2 (@success_output Sample.runtime W
                    (Sample.command "get" "/posts" None (Some "out.json"%string)) _
                    {| status_code := 200; text := py "[1, 2]" |} []
                    (issues_get (py "/posts") None (Some (py "out.json")))
                    eq_refl eq_refl)
                 (py "out.json") eq_refl eq_refl eq_refl).
Defined.

Lemma csv_of_empty_list_witness :
  let W := Sample.server 200 (py "[]") in
  let o := run W (Sample.command "get" "/posts" None (Some "empty.csv"%string)) [] in
  exit_code o = 1%Z
  /\ out o = [py "HTTP Status Code: 200";
              py "File write error: list index out of range"]
  /\ disk o = [(py "empty.csv", [])].
Proof.
  intros W o.
  destruct (@csv_of_empty_list Sample.runtime W
              (Sample.command "get" "/posts" None (Some "empty.csv"%string)) _
              {| status_code := 200; text := py "[]" |} (py "empty") []
              (issues_get (py "/posts") None (Some (py "empty.csv")))
              eq_refl eq_refl eq_refl eq_refl) as (H1 & _ & _ & H4).
  split; [exact H1|]. apply H4; reflexivity.
Defined.
(** ** Decimal integers *)

Lemma is_digit_range (c : N) : is_digit c = true <-> 48 <= c <= 57.
Proof.
  unfold is_digit, Chr.ZERO, Chr.NINE.
  rewrite andb_true_iff, !N.leb_le. reflexivity.
Qed.

(** [lia] after the quotient and the remainder by ten are made opaque. *)
Ltac dlia n :=
  let q := fresh "q" in let m := fresh "m" in
  set (q := n / 10) in *; set (m := n mod 10) in *;
  clearbody q m; lia.

(** [dv ds a]: the value of the digits [ds] read after digits of value [a] *)
Definition dv (ds : pystr) (a : N) : N :=
  fold_left (fun acc d => 10 * acc + (d - Chr.ZERO)) ds a.

Lemma dv_app (xs ys : pystr) (a : N) : dv (xs ++ ys) a = dv ys (dv xs a).
Proof. apply fold_left_app. Qed.

(** What [digits_loop] prepends to its accumulator: digits of value [n],
    without a leading zero unless [n] is zero. *)
Definition digits_of (n : N) (ds : pystr) : Prop :=
  Forall (fun c => is_digit c = true) ds
  /\ (forall a, dv ds a = a * 10 ^ N.of_nat (List.length ds) + n)
  /\ match ds with
     | c :: tl => (n = 0 -> ds = [Chr.ZERO]) /\ (n <> 0 -> c <> Chr.ZERO)
     | [] => False
     end.

Lemma digits_loop_S (k : nat) (n : N) (acc : pystr) :
  digits_loop (S k) n acc
  = if n / 10 =? 0 then (Chr.ZERO + n mod 10) :: acc
    else digits_loop k (n / 10) ((Chr.ZERO + n mod 10) :: acc).
Proof. reflexivity. Qed.

Lemma digits_of_one (n : N) : n < 10 -> digits_of n [Chr.ZERO + n].
Proof.
  intros Hs. unfold digits_of, Chr.ZERO. repeat split.
  - constructor; [|constructor]. apply is_digit_range. lia.
  - intros a. unfold dv. cbn [fold_left List.length].
    change (N.of_nat 1) with 1. rewrite N.pow_1_r. unfold Chr.ZERO. lia.
  - intros ->. reflexivity.
  - lia.
Qed.

Lemma digits_loop_spec (k : nat) :
  forall n acc, n < 2 ^ N.of_nat (S k) ->
    exists ds, digits_loop (S k) n acc = ds ++ acc /\ digits_of n ds.
Proof.
  induction k as [|k IH]; intros n acc Hn; rewrite digits_loop_S;
    pose proof (N.mod_lt n 10 ltac:(lia)) as Hm;
    pose proof (N.div_mod n 10 ltac:(lia)) as Hdm;
    destruct (N.eqb_spec (n / 10) 0) as [Hd|Hd].
  - exists [Chr.ZERO + n mod 10]. split; [reflexivity|].
    assert (Hs : n < 10) by (clear - Hm Hdm Hd; dlia n).
    rewrite N.mod_small by exact Hs. now apply digits_of_one.
  - change (2 ^ N.of_nat 1) with 2 in Hn.
    assert (n / 10 = 0) by (apply N.div_small; clear - Hn; lia). contradiction.
  - exists [Chr.ZERO + n mod 10]. split; [reflexivity|].
    assert (Hs : n < 10) by (clear - Hm Hdm Hd; dlia n).
    rewrite N.mod_small by exact Hs. now apply digits_of_one.
  - assert (Hlt : n / 10 < 2 ^ N.of_nat (S k)).
    { apply N.Div0.div_lt_upper_bound.
      replace (N.of_nat (S (S k))) with (N.succ (N.of_nat (S k))) in Hn by lia.
      rewrite N.pow_succ_r' in Hn.
      generalize dependent (2 ^ N.of_nat (S k)). intros P _ HP.
      clear - HP. lia. }
    destruct (IH (n / 10) ((Chr.ZERO + n mod 10) :: acc) Hlt)
      as (ds & E & Hf & Hv & Hh).
    exists (ds ++ [Chr.ZERO + n mod 10]). split.
    { rewrite E, <- app_assoc. reflexivity. }
    repeat split.
    + apply Forall_app. split; [exact Hf|].
      constructor; [|constructor]. apply is_digit_range. unfold Chr.ZERO. clear - Hm. dlia n.
    + intros a. rewrite dv_app, Hv. unfold dv. cbn [fold_left].
      rewrite length_app. cbn [List.length].
      replace (N.of_nat (List.length ds + 1))
        with (N.succ (N.of_nat (List.length ds))) by lia.
      rewrite N.pow_succ_r'. unfold Chr.ZERO.
      generalize (10 ^ N.of_nat (List.length ds)). intros P. clear - Hm Hdm. dlia n.
    + destruct ds as [|c tl]; [contradiction|]. cbn [app]. split.
      * intros ->. now destruct Hd.
      * intros _. now apply Hh.
Qed.

Lemma str_N_spec (n : N) : digits_of n (str_N n).
Proof.
  unfold str_N.
  destruct (@digits_loop_spec (N.to_nat (N.log2 n)) n []) as (ds & E & H).
  - rewrite Nat2N.inj_succ, N2Nat.id.
    destruct (N.eq_dec n 0) as [->|Hn]; [reflexivity|].
    apply N.log2_spec. lia.
  - rewrite E, app_nil_r. exact H.
Qed.

(** ** The number pattern on a token followed by other text *)

(** What follows an encoded value: nothing, an item separator or the line
    feed before a closing bracket. *)
Definition delim (rest : pystr) : Prop :=
  match rest with
  | [] => True
  | c :: _ => c = Chr.COMMA \/ c = Chr.LF
  end.

Lemma span_digits_app (l rest : pystr) :
  delim rest ->
  span_digits (l ++ rest) = (fst (span_digits l), snd (span_digits l) ++ rest).
Proof.
  intros Hd. induction l as [|c l IH]; simpl.
  - destruct rest as [|c rest]; [reflexivity|].
    simpl in Hd. destruct Hd as [-> | ->]; reflexivity.
  - destruct (is_digit c); [|reflexivity].
    rewrite IH. destruct (span_digits l). reflexivity.
Qed.

Lemma span_digits_all (ds : pystr) :
  Forall (fun c => is_digit c = true) ds -> span_digits ds = (ds, []).
Proof.
  induction 1 as [|c ds Hc _ IH]; simpl; [reflexivity|].
  rewrite Hc, IH. reflexivity.
Qed.

Lemma match_frac_app (l rest : pystr) :
  delim rest ->
  match_frac (l ++ rest) = (fst (match_frac l), snd (match_frac l) ++ rest).
Proof.
  intros Hd. destruct l as [|d l]; simpl.
  - destruct rest as [|c rest]; [reflexivity|].
    simpl in Hd. destruct Hd as [-> | ->]; reflexivity.
  - destruct (d =? Chr.DOT); [|reflexivity].
    rewrite (span_digits_app l rest Hd).
    destruct (span_digits l) as [[|x ds] r]; reflexivity.
Qed.

Lemma match_exp_app (l rest : pystr) :
  delim rest ->
  match_exp (l ++ rest) = (fst (match_exp l), snd (match_exp l) ++ rest).
Proof.
  intros Hd. destruct l as [|e l]; unfold match_exp; cbn [app].
  - destruct rest as [|c rest]; [reflexivity|].
    simpl in Hd. destruct Hd as [-> | ->]; reflexivity.
  - destruct ((e =? 101) || (e =? 69)); [|reflexivity].
    destruct l as [|g l]; cbn [app].
    + destruct rest as [|c rest]; [reflexivity|].
      simpl in Hd. destruct Hd as [-> | ->]; reflexivity.
    + destruct ((g =? Chr.PLUS) || (g =? Chr.MINUS)).
      * rewrite (span_digits_app l rest Hd).
        destruct (span_digits l) as [[|x ds] r]; reflexivity.
      * change (g :: l ++ rest) with ((g :: l) ++ rest).
        rewrite (span_digits_app (g :: l) rest Hd).
        destruct (span_digits (g :: l)) as [[|x ds] r]; reflexivity.
Qed.

Lemma match_tail_app (integer l rest : pystr) :
  delim rest ->
  match_tail integer (l ++ rest)
  = let '(i, f, e, r) := match_tail integer l in (i, f, e, r ++ rest).
Proof.
  intros Hd. unfold match_tail. rewrite (match_frac_app l rest Hd).
  destruct (match_frac l) as [f s1]. simpl.
  rewrite (match_exp_app s1 rest Hd). destruct (match_exp s1). reflexivity.
Qed.

Lemma match_number_app (l rest i f e r : pystr) :
  delim rest ->
  match_number l = Some (i, f, e, r) ->
  match_number (l ++ rest) = Some (i, f, e, r ++ rest).
Proof.
  intros Hd. unfold match_number.
  assert (Hgen : forall sign s1,
    match s1 with
    | c :: s2 =>
        if c =? Chr.ZERO then Some (match_tail (sign ++ [c]) s2)
        else if is_digit c then
          let (ds, s3) := span_digits s2 in Some (match_tail (sign ++ c :: ds) s3)
        else None
    | [] => None
    end = Some (i, f, e, r) ->
    s1 <> [] /\
    match s1 ++ rest with
    | c :: s2 =>
        if c =? Chr.ZERO then Some (match_tail (sign ++ [c]) s2)
        else if is_digit c then
          let (ds, s3) := span_digits s2 in Some (match_tail (sign ++ c :: ds) s3)
        else None
    | [] => None
    end = Some (i, f, e, r ++ rest)).
  { intros sign [|c s2]; [discriminate|]. intros H. split; [discriminate|].
    simpl. destruct (c =? Chr.ZERO).
    - rewrite (match_tail_app _ s2 rest Hd). injection H as H. rewrite H. reflexivity.
    - destruct (is_digit c); [|discriminate].
      rewrite (span_digits_app s2 rest Hd). destruct (span_digits s2) as [ds s3].
      simpl. rewrite (match_tail_app _ s3 rest Hd). injection H as H. rewrite H.
      reflexivity. }
  destruct l as [|c l]; [discriminate|]. cbn [app].
  destruct (c =? Chr.MINUS); intros H.
  - apply (Hgen [c] l) in H. exact (proj2 H).
  - apply (Hgen [] (c :: l)) in H. exact (proj2 H).
Qed.

Lemma match_number_str_N (sign ds : pystr) (n : N) :
  digits_of n ds ->
  match ds with
  | c :: s2 =>
      if c =? Chr.ZERO then Some (match_tail (sign ++ [c]) s2)
      else if is_digit c then
        let (xs, s3) := span_digits s2 in Some (match_tail (sign ++ c :: xs) s3)
      else None
  | [] => None
  end = Some (sign ++ ds, [], [], []).
Proof.
  intros (Hf & _ & Hh). destruct ds as [|c tl]; [contradiction|].
  destruct Hh as [H0 Hn]. inversion Hf as [|? ? Hc Ht]; subst.
  destruct (N.eqb_spec c Chr.ZERO) as [->|Hz].
  - destruct (N.eq_dec n 0) as [->|Hne].
    + specialize (H0 eq_refl). injection H0 as ->. reflexivity.
    + now destruct (Hn Hne).
  - rewrite Hc, (span_digits_all Ht). reflexivity.
Qed.

Lemma str_N_nonempty (n : N) :
  exists c tl, str_N n = c :: tl /\ is_digit c = true.
Proof.
  destruct (str_N_spec n) as (Hf & _ & Hh).
  destruct (str_N n) as [|c tl]; [contradiction|].
  exists c, tl. split; [reflexivity|]. now inversion Hf.
Qed.

Lemma match_number_str_int (z : Z) :
  match_number (str_int z) = Some (str_int z, [], [], []).
Proof.
  unfold str_int, match_number. destruct (z <? 0)%Z.
  - change (Chr.MINUS =? Chr.MINUS) with true. cbv iota.
    apply (match_number_str_N [Chr.MINUS] (str_N_spec (Z.abs_N z))).
  - destruct (str_N_nonempty (Z.abs_N z)) as (c & tl & E & Hc).
    pose proof (match_number_str_N [] (str_N_spec (Z.abs_N z))) as H.
    rewrite E in *. 
    assert (Hm : (c =? Chr.MINUS) = false).
    { apply is_digit_range in Hc. apply N.eqb_neq. unfold Chr.MINUS. lia. }
    rewrite Hm. exact H.
Qed.

Lemma digits_value_str_N (n : N) : digits_value (str_N n) = n.
Proof.
  destruct (str_N_spec n) as (_ & Hv & _). unfold digits_value.
  change (fold_left (fun acc d => 10 * acc + (d - Chr.ZERO)) (str_N n) 0)
    with (dv (str_N n) 0).
  rewrite Hv. lia.
Qed.

Lemma int_of_literal_str_int (z : Z) : int_of_literal (str_int z) = z.
Proof.
  unfold str_int, int_of_literal. destruct (Z.ltb_spec z 0).
  - change (Chr.MINUS =? Chr.MINUS) with true. cbv iota.
    rewrite digits_value_str_N. lia.
  - destruct (str_N_nonempty (Z.abs_N z)) as (c & tl & E & Hc).
    pose proof (digits_value_str_N (Z.abs_N z)) as Hv. rewrite E in *.
    assert (Hm : (c =? Chr.MINUS) = false).
    { apply is_digit_range in Hc. apply N.eqb_neq. unfold Chr.MINUS. lia. }
    rewrite Hm, Hv. lia.
Qed.

(** ** Strings: [scanstring] undoes [encode_basestring_ascii] *)

Lemma hex_value_digit (n : N) : n < 16 -> hex_value (hex_digit n) = Some n.
Proof.
  intros H.
  assert (A : forallb (fun k => match hex_value (hex_digit k) with
                                | Some m => m =? k
                                | None => false
                                end) (map N.of_nat (seq 0 16)) = true)
    by reflexivity.
  rewrite forallb_forall in A. specialize (A n).
  destruct (hex_value (hex_digit n)) as [m|].
  - f_equal. apply N.eqb_eq, A, in_map_iff. exists (N.to_nat n).
    split; [apply N2Nat.id|]. apply in_seq. lia.
  - assert (F : false = true); [|discriminate F].
    apply A, in_map_iff. exists (N.to_nat n).
    split; [apply N2Nat.id|]. apply in_seq. lia.
Qed.

Lemma hex_value_bound (c v : N) : hex_value c = Some v -> v < 16.
Proof.
  unfold hex_value. destruct (is_digit c) eqn:Ed.
  - apply is_digit_range in Ed. intros [= <-]. unfold Chr.ZERO. lia.
  - destruct ((97 <=? c) && (c <=? 102)) eqn:El.
    + apply andb_true_iff in El. rewrite !N.leb_le in El. intros [= <-]. lia.
    + destruct ((65 <=? c) && (c <=? 70)) eqn:Eu; [|discriminate].
      apply andb_true_iff in Eu. rewrite !N.leb_le in Eu. intros [= <-]. lia.
Qed.

Lemma decode_uXXXX_bound (a b c d v : N) :
  decode_uXXXX a b c d = Some v -> v < 65536.
Proof.
  unfold decode_uXXXX.
  destruct (hex_value a) as [x|] eqn:Ea; [|discriminate].
  destruct (hex_value b) as [y|] eqn:Eb; [|discriminate].
  destruct (hex_value c) as [z|] eqn:Ec; [|discriminate].
  destruct (hex_value d) as [w|] eqn:Ed; [|discriminate].
  apply hex_value_bound in Ea, Eb, Ec, Ed. intros [= <-]. lia.
Qed.

Lemma decode_hex4 (n : N) :
  n < 65536 ->
  decode_uXXXX (hex_digit (n / 4096 mod 16)) (hex_digit (n / 256 mod 16))
               (hex_digit (n / 16 mod 16)) (hex_digit (n mod 16)) = Some n.
Proof.
  intros H. unfold decode_uXXXX.
  rewrite !hex_value_digit by (apply N.mod_lt; lia). f_equal.
  assert (E1 : n / 16 / 16 = n / 256) by (now rewrite N.Div0.div_div).
  assert (E2 : n / 256 / 16 = n / 4096) by (now rewrite N.Div0.div_div).
  pose proof (N.div_mod n 16 ltac:(lia)) as H1.
  pose proof (N.div_mod (n / 16) 16 ltac:(lia)) as H2.
  pose proof (N.div_mod (n / 256) 16 ltac:(lia)) as H3.
  rewrite E1 in H2. rewrite E2 in H3.
  assert (H4 : n / 4096 < 16) by (apply N.Div0.div_lt_upper_bound; lia).
  rewrite (N.mod_small (n / 4096) 16) by exact H4.
  generalize dependent (n mod 16). generalize dependent (n / 16 mod 16).
  generalize dependent (n / 256 mod 16). generalize dependent (n / 4096).
  generalize dependent (n / 256). generalize dependent (n / 16).
  intros. lia.
Qed.

Lemma lor_1024 (a b : N) : b < 1024 -> N.lor (a * 1024) b = a * 1024 + b.
Proof.
  intros Hb.
  assert (H0 : N.land (a * 1024) b = 0).
  { apply N.bits_inj_0. intros i. rewrite N.land_spec.
    destruct (N.lt_ge_cases i 10) as [Hi|Hi].
    - change 1024 with (2 ^ 10). rewrite N.mul_pow2_bits_low by exact Hi.
      reflexivity.
    - rewrite <- (N.mod_small b (2 ^ 10)) by exact Hb.
      rewrite N.mod_pow2_bits_high by exact Hi. apply andb_false_r. }
  rewrite <- N.lxor_lor by exact H0. symmetry. now apply N.add_nocarry_lxor.
Qed.

(** The two halves [encode_basestring_ascii] writes for a code point above
    the basic plane. *)
Definition high_half (c : N) : N :=
  N.lor 55296 (N.land (N.shiftr (c - 65536) 10) 1023).
Definition low_half (c : N) : N := N.lor 56320 (N.land (c - 65536) 1023).

Lemma halves_spec (c : N) :
  65536 <= c < 1114112 ->
  high_half c = 55296 + (c - 65536) / 1024
  /\ low_half c = 56320 + (c - 65536) mod 1024.
Proof.
  intros Hc. unfold high_half, low_half.
  change 1023 with (N.ones 10). rewrite !N.land_ones, N.shiftr_div_pow2.
  change (2 ^ 10) with 1024.
  assert (Hq : (c - 65536) / 1024 < 1024)
    by (apply N.Div0.div_lt_upper_bound; lia).
  rewrite (N.mod_small _ _ Hq).
  pose proof (N.mod_lt (c - 65536) 1024 ltac:(lia)) as Hm.
  change 55296 with (54 * 1024). change 56320 with (55 * 1024).
  rewrite !lor_1024 by assumption. split; reflexivity.
Qed.

Lemma halves_join (c : N) :
  65536 <= c < 1114112 ->
  is_high_surrogate (high_half c) = true
  /\ is_low_surrogate (low_half c) = true
  /\ high_half c < 65536 /\ low_half c < 65536
  /\ join_surrogates (high_half c) (low_half c) = c.
Proof.
  intros Hc. destruct (halves_spec Hc) as [Eh El].
  assert (Hq : (c - 65536) / 1024 < 1024)
    by (apply N.Div0.div_lt_upper_bound; lia).
  pose proof (N.mod_lt (c - 65536) 1024 ltac:(lia)) as Hm.
  pose proof (N.div_mod (c - 65536) 1024 ltac:(lia)) as Hdm.
  unfold is_high_surrogate, is_low_surrogate, join_surrogates.
  rewrite Eh, El, N.shiftl_mul_pow2. change (2 ^ 10) with 1024.
  replace (55296 + (c - 65536) / 1024 - 55296) with ((c - 65536) / 1024) by lia.
  replace (56320 + (c - 65536) mod 1024 - 56320) with ((c - 65536) mod 1024).
  2:{ generalize dependent ((c - 65536) mod 1024). intros. lia. }
  rewrite lor_1024 by exact Hm.
  generalize dependent ((c - 65536) mod 1024).
  generalize dependent ((c - 65536) / 1024). intros q Hq m Hm Hdm.
  repeat split.
  - apply andb_true_iff. rewrite !N.leb_le. lia.
  - apply andb_true_iff. rewrite !N.leb_le. lia.
  - lia.
  - lia.
  - lia.
Qed.

(** A string the decoder can return and the encoder can take back: code
    points only, and no high surrogate directly before a low one. *)
Definition is_code_point (c : N) : bool := c <? 1114112.

Fixpoint no_pair (s : pystr) : bool :=
  match s with
  | c :: tl =>
      match tl with
      | c' :: _ => negb (is_high_surrogate c && is_low_surrogate c')
      | [] => true
      end && no_pair tl
  | [] => true
  end.

Definition wf_str (s : pystr) : bool := forallb is_code_point s && no_pair s.

(** What the decoder sees after a [\uXXXX] escape: the value of a following
    [\uXXXX] escape, if there is one. *)
Definition peek_u (s : pystr) : option (option N) :=
  match s with
  | b :: u :: g1 :: g2 :: g3 :: g4 :: _ =>
      if (b =? Chr.BACKSLASH) && (u =? 117)
      then Some (decode_uXXXX g1 g2 g3 g4) else None
  | _ => None
  end.

Lemma scanstring_plain (c : N) (s : pystr) :
  c <> Chr.QUOTE -> c <> Chr.BACKSLASH -> 32 <= c ->
  scanstring (c :: s) = cons_char c (scanstring s).
Proof.
  intros Hq Hb Hc. cbn [scanstring].
  apply N.eqb_neq in Hq, Hb. rewrite Hq, Hb.
  destruct (N.ltb_spec c 32); [lia|reflexivity].
Qed.

Lemma scanstring_simple (e ch : N) (s : pystr) :
  backslash e = Some ch ->
  scanstring (Chr.BACKSLASH :: e :: s) = cons_char ch (scanstring s).
Proof.
  intros H. cbn [scanstring].
  change (Chr.BACKSLASH =? Chr.QUOTE) with false.
  change (Chr.BACKSLASH =? Chr.BACKSLASH) with true. cbv iota.
  destruct (N.eqb_spec e 117) as [->|_]; [discriminate H|].
  rewrite H. reflexivity.
Qed.

Lemma scanstring_u (a b c d uni : N) (s3 : pystr) :
  decode_uXXXX a b c d = Some uni ->
  (is_high_surrogate uni = false
   \/ peek_u s3 = None
   \/ exists v, peek_u s3 = Some (Some v) /\ is_low_surrogate v = false) ->
  scanstring (Chr.BACKSLASH :: 117 :: a :: b :: c :: d :: s3)
  = cons_char uni (scanstring s3).
Proof.
  intros Hd H. cbn [scanstring].
  change (Chr.BACKSLASH =? Chr.QUOTE) with false.
  change (Chr.BACKSLASH =? Chr.BACKSLASH) with true.
  change (117 =? 117) with true. cbv iota. rewrite Hd.
  destruct (is_high_surrogate uni); [|reflexivity].
  destruct H as [H|[H|(v & H & Hv)]]; [discriminate H| |];
    destruct s3 as [|x1 [|x2 [|g1 [|g2 [|g3 [|g4 s4]]]]]]; try reflexivity;
    cbn [peek_u] in H;
    destruct ((x1 =? Chr.BACKSLASH) && (x2 =? 117)); try reflexivity;
    try discriminate H.
  injection H as H. rewrite H, Hv. reflexivity.
Qed.

Lemma scanstring_pair (a b c d e f g h hi lo : N) (s4 : pystr) :
  decode_uXXXX a b c d = Some hi -> decode_uXXXX e f g h = Some lo ->
  is_high_surrogate hi = true -> is_low_surrogate lo = true ->
  scanstring (Chr.BACKSLASH :: 117 :: a :: b :: c :: d
              :: Chr.BACKSLASH :: 117 :: e :: f :: g :: h :: s4)
  = cons_char (join_surrogates hi lo) (scanstring s4).
Proof.
  intros H1 H2 Hh Hl. cbn [scanstring].
  change (Chr.BACKSLASH =? Chr.QUOTE) with false.
  change (Chr.BACKSLASH =? Chr.BACKSLASH) with true.
  change (117 =? 117) with true. cbv iota. rewrite H1, Hh. cbn [andb].
  cbv iota. rewrite H2, Hl. reflexivity.
Qed.

Lemma peek_u_first (b : N) (s : pystr) :
  b <> Chr.BACKSLASH -> peek_u (b :: s) = None.
Proof.
  intros H. apply N.eqb_neq in H.
  destruct s as [|u [|g1 [|g2 [|g3 [|g4 s]]]]]; try reflexivity.
  cbn [peek_u]. rewrite H. reflexivity.
Qed.

Lemma peek_u_second (b u : N) (s : pystr) :
  u <> 117 -> peek_u (b :: u :: s) = None.
Proof.
  intros H. apply N.eqb_neq in H.
  destruct s as [|g1 [|g2 [|g3 [|g4 s]]]]; try reflexivity.
  cbn [peek_u]. rewrite H, andb_false_r. reflexivity.
Qed.

Lemma escape_char_cases (c : N) :
  is_code_point c = true ->
  (exists e, escape_char c = [Chr.BACKSLASH; e] /\ backslash e = Some c)
  \/ (escape_char c = [c] /\ c <> Chr.QUOTE /\ c <> Chr.BACKSLASH /\ 32 <= c)
  \/ (c < 65536 /\ escape_char c = escape_u c)
  \/ (65536 <= c < 1114112
      /\ escape_char c = escape_u (high_half c) ++ escape_u (low_half c)).
Proof.
  intros Hc. apply N.ltb_lt in Hc. unfold escape_char.
  destruct (N.eqb_spec c Chr.QUOTE) as [->|Hq];
    [left; exists Chr.QUOTE; split; reflexivity|].
  destruct (N.eqb_spec c Chr.BACKSLASH) as [->|Hb];
    [left; exists Chr.BACKSLASH; split; reflexivity|].
  destruct (N.eqb_spec c 8) as [->|_]; [left; exists 98; split; reflexivity|].
  destruct (N.eqb_spec c 12) as [->|_]; [left; exists 102; split; reflexivity|].
  destruct (N.eqb_spec c Chr.LF) as [->|_];
    [left; exists 110; split; reflexivity|].
  destruct (N.eqb_spec c Chr.CR) as [->|_];
    [left; exists 114; split; reflexivity|].
  destruct (N.eqb_spec c Chr.TAB) as [->|_];
    [left; exists 116; split; reflexivity|].
  destruct ((32 <=? c) && (c <=? 126)) eqn:Ep.
  - right. left. apply andb_true_iff in Ep. rewrite !N.leb_le in Ep.
    repeat split; try assumption. apply Ep.
  - destruct (N.ltb_spec c 65536) as [Hl|Hl].
    + right. right. left. split; [exact Hl|reflexivity].
    + right. right. right. split; [lia|reflexivity].
Qed.

Lemma peek_u_escape (v : N) (s : pystr) :
  v < 65536 -> peek_u (escape_u v ++ s) = Some (Some v).
Proof.
  intros Hv. unfold escape_u, hex4. cbn [app peek_u].
  change (Chr.BACKSLASH =? Chr.BACKSLASH) with true.
  change (117 =? 117) with true. cbn [andb].
  rewrite decode_hex4 by exact Hv. reflexivity.
Qed.

(** After an encoded character comes no escape of a low surrogate, unless the
    next character of the string is one. *)
Lemma peek_u_encoded (s rest : pystr) :
  forallb is_code_point s = true ->
  match s with c :: _ => is_low_surrogate c = false | [] => True end ->
  peek_u (flat_map escape_char s ++ Chr.QUOTE :: rest) = None
  \/ exists v, peek_u (flat_map escape_char s ++ Chr.QUOTE :: rest) = Some (Some v)
               /\ is_low_surrogate v = false.
Proof.
  intros Hv Hl. destruct s as [|c s]; cbn [flat_map app].
  - left. apply peek_u_first. discriminate.
  - cbn [forallb] in Hv. apply andb_true_iff in Hv. destruct Hv as [Hc _].
    rewrite <- app_assoc.
    destruct (escape_char_cases c Hc)
      as [(e & E & He)|[(E & Hq & Hb & H32)|[(H16 & E)|(Hr & E)]]]; rewrite E.
    + left. apply peek_u_second. intros ->. discriminate He.
    + left. apply peek_u_first. exact Hb.
    + right. exists c. split; [now apply peek_u_escape|exact Hl].
    + right. destruct (halves_join Hr) as (Hh & _ & Hb & _).
      exists (high_half c). rewrite <- app_assoc. split; [now apply peek_u_escape|].
      unfold is_high_surrogate in Hh. apply andb_true_iff in Hh.
      rewrite !N.leb_le in Hh. unfold is_low_surrogate.
      apply andb_false_iff. left. apply N.leb_gt. lia.
Qed.

Lemma scanstring_escape_u (v : N) (s : pystr) :
  v < 65536 ->
  (is_high_surrogate v = false
   \/ peek_u s = None
   \/ exists w, peek_u s = Some (Some w) /\ is_low_surrogate w = false) ->
  scanstring (escape_u v ++ s) = cons_char v (scanstring s).
Proof.
  intros Hv H. unfold escape_u, hex4. cbn [app].
  apply scanstring_u; [now apply decode_hex4|exact H].
Qed.

(** [scanstring] gives back an encoded string and stops after the closing
    quote. *)
Lemma scanstring_encode (s rest : pystr) :
  wf_str s = true ->
  scanstring (flat_map escape_char s ++ Chr.QUOTE :: rest) = Some (s, rest).
Proof.
  unfold wf_str. intros H. apply andb_true_iff in H. destruct H as [Hv Hn].
  induction s as [|c s IH]; [reflexivity|].
  pose proof Hv as Hv'. cbn [forallb] in Hv. apply andb_true_iff in Hv.
  destruct Hv as [Hc Hv]. cbn [no_pair] in Hn. apply andb_true_iff in Hn.
  destruct Hn as [Hp Hn]. specialize (IH Hv Hn).
  cbn [flat_map]. rewrite <- app_assoc.
  destruct (escape_char_cases c Hc)
    as [(e & E & He)|[(E & Hq & Hb & H32)|[(H16 & E)|(Hr & E)]]]; rewrite E.
  - cbn [app]. rewrite (@scanstring_simple e c _ He), IH. reflexivity.
  - cbn [app]. rewrite scanstring_plain, IH by assumption. reflexivity.
  - rewrite scanstring_escape_u, IH; [reflexivity|exact H16|].
    destruct (is_high_surrogate c) eqn:Eh; [right|now left].
    apply peek_u_encoded; [exact Hv|].
    destruct s as [|c' s]; [exact I|].
    destruct (is_low_surrogate c'); [discriminate Hp|reflexivity].
  - destruct (halves_join Hr) as (Hh & Hl & Hb1 & Hb2 & Hj).
    rewrite <- app_assoc. unfold escape_u at 1 2, hex4. cbn [app].
    erewrite scanstring_pair;
      [|now apply decode_hex4|now apply decode_hex4|exact Hh|exact Hl].
    rewrite IH, Hj. reflexivity.
Qed.

(** ** Decoding an encoded value *)

Lemma skip_ws_indent (n : nat) (s : pystr) :
  skip_ws (repeat Chr.SPACE n ++ s) = skip_ws s.
Proof. induction n as [|n IH]; [reflexivity|exact IH]. Qed.

Lemma skip_ws_newline_indent (indent level : nat) (s : pystr) :
  skip_ws (newline_indent indent level ++ s) = skip_ws s.
Proof. unfold newline_indent. cbn [app]. apply skip_ws_indent. Qed.

Lemma skip_ws_lf (n : nat) (s : pystr) :
  skip_ws (Chr.LF :: repeat Chr.SPACE n ++ s) = skip_ws s.
Proof. apply (skip_ws_indent n). Qed.

Lemma skip_ws_start (c : N) (s : pystr) :
  is_ws c = false -> skip_ws (c :: s) = c :: s.
Proof. intros H. cbn [skip_ws]. rewrite H. reflexivity. Qed.

Lemma length_newline_indent (indent level : nat) :
  List.length (newline_indent indent level) = S (indent * level).
Proof. unfold newline_indent. cbn [List.length]. now rewrite repeat_length. Qed.

Lemma delim_newline_indent (indent level : nat) (s : pystr) :
  delim (newline_indent indent level ++ s).
Proof. right. reflexivity. Qed.

Lemma join_cons (sep x y : pystr) (l : list pystr) :
  join sep (x :: y :: l) = x ++ sep ++ join sep (y :: l).
Proof. reflexivity. Qed.

(** *** Dictionaries built from pairs with distinct keys *)

Section DictFacts.
Variable V : Type.

Lemma dict_set_fresh (d : pydict V) (k : pystr) (v : V) :
  ~ In k (keys d) -> dict_set d k v = d ++ [(k, v)].
Proof.
  induction d as [|[k' v'] d IH]; intros H; [reflexivity|].
  cbn [dict_set]. rewrite str_eqb_neq.
  - rewrite IH; [reflexivity|]. intros Hin. apply H. now right.
  - intros ->. apply H. now left.
Qed.

Lemma fold_dict_set_nodup (d acc : pydict V) :
  NoDup (keys (acc ++ d)) ->
  fold_left (fun m kv => dict_set m (fst kv) (snd kv)) d acc = acc ++ d.
Proof.
  revert acc. induction d as [|[k v] d IH]; intros acc H.
  - now rewrite app_nil_r.
  - cbn [fold_left fst snd]. rewrite dict_set_fresh.
    + rewrite IH; rewrite <- app_assoc; [reflexivity|exact H].
    + unfold keys in H. rewrite map_app in H. cbn [map fst] in H.
      apply NoDup_remove_2 in H. intros Hin. apply H.
      apply in_or_app. now left.
Qed.

Lemma dict_of_pairs_nodup (d : pydict V) :
  NoDup (keys d) -> dict_of_pairs d = d.
Proof. intros H. unfold dict_of_pairs. now rewrite fold_dict_set_nodup. Qed.

End DictFacts.

(** Replace the literals [py "..."] of the goal by their code points. *)
Ltac eval_py :=
  repeat match goal with
         | |- context [py ?s] =>
             let x := eval vm_compute in (py s) in change (py s) with x
         end.

(** Arithmetic on the lengths of concatenated texts. *)
Ltac len_lia :=
  repeat (rewrite ?length_app in *; cbn [List.length] in * );
  rewrite ?length_newline_indent, ?repeat_length in *; lia.

Section RoundTrip.
Context {RT : PyRuntime}.

(** What the round trip asks of the floats of the runtime: [repr] of a finite
    float is a text the number pattern matches whole, with a fraction or an
    exponent, and [float] reads it back. *)
Definition float_laws : Prop :=
  forall x : finite_float,
    float_of_literal (float_repr x) = FFin x
    /\ exists i f e, match_number (float_repr x) = Some (i, f, e, [])
                     /\ (f <> [] \/ e <> []).

(** Induction on values, through the items of lists and dictionaries. *)
Fixpoint pyval_ind (P : pyval -> Prop)
  (HNone : P PyNone) (HBool : forall b, P (PyBool b))
  (HInt : forall z, P (PyInt z)) (HFloat : forall f, P (PyFloat f))
  (HStr : forall s, P (PyStr s))
  (HList : forall items, Forall P items -> P (PyList items))
  (HDict : forall d, Forall (fun kv => P (snd kv)) d -> P (PyDict d))
  (v : pyval) {struct v} : P v :=
  match v with
  | PyNone => HNone
  | PyBool b => HBool b
  | PyInt z => HInt z
  | PyFloat f => HFloat f
  | PyStr s => HStr s
  | PyList items =>
      HList items
        ((fix go (l : list pyval) : Forall P l :=
            match l with
            | [] => Forall_nil P
            | x :: l' =>
                Forall_cons x
                  (pyval_ind HNone HBool HInt HFloat HStr HList HDict x) (go l')
            end) items)
  | PyDict d =>
      HDict d
        ((fix go (l : list (pystr * pyval)) : Forall (fun kv => P (snd kv)) l :=
            match l with
            | [] => Forall_nil _
            | kv :: l' =>
                Forall_cons kv
                  (pyval_ind HNone HBool HInt HFloat HStr HList HDict (snd kv))
                  (go l')
            end) d)
  end.

(** The values the encoder and the decoder agree on: well-formed strings,
    dictionaries without repeated keys. *)
Inductive wf_val : pyval -> Prop :=
| wf_none : wf_val PyNone
| wf_bool (b : bool) : wf_val (PyBool b)
| wf_int (z : Z) : wf_val (PyInt z)
| wf_float (f : pyfloat finite_float) : wf_val (PyFloat f)
| wf_pystr (s : pystr) : wf_str s = true -> wf_val (PyStr s)
| wf_list (items : list pyval) : Forall wf_val items -> wf_val (PyList items)
| wf_dict (d : list (pystr * pyval)) :
    NoDup (keys d) ->
    Forall (fun kv => wf_str (fst kv) = true /\ wf_val (snd kv)) d ->
    wf_val (PyDict d).

Hypothesis laws : float_laws.

(** A number token starts with a minus sign or a digit. *)
Lemma match_number_first (l i f e r : pystr) :
  match_number l = Some (i, f, e, r) ->
  exists c tl, l = c :: tl /\ (c = Chr.MINUS \/ is_digit c = true).
Proof.
  unfold match_number. destruct l as [|c l]; [discriminate|].
  intros H. exists c, l. split; [reflexivity|].
  destruct (N.eqb_spec c Chr.MINUS) as [->|_]; [now left|right].
  destruct (N.eqb_spec c Chr.ZERO) as [->|_]; [reflexivity|].
  destruct (is_digit c); [reflexivity|discriminate H].
Qed.

(** The first character of an encoded value. *)
Definition value_start (c : N) : Prop :=
  is_ws c = false /\ c <> Chr.RBRACKET /\ c <> Chr.RBRACE /\ c <> Chr.BOM
  /\ c <> Chr.COMMA.

Lemma value_start_digit (c : N) :
  c = Chr.MINUS \/ is_digit c = true -> value_start c.
Proof.
  intros [->|H]; [repeat split; discriminate|].
  apply is_digit_range in H. unfold value_start, is_ws, Chr.SPACE, Chr.TAB,
    Chr.LF, Chr.CR, Chr.RBRACKET, Chr.RBRACE, Chr.BOM, Chr.COMMA.
  repeat split; try lia.
  repeat (apply orb_false_iff; split); apply N.eqb_neq; lia.
Qed.

Lemma iterencode_first (indent : nat) (v : pyval) (level : nat) :
  exists c tl, iterencode indent v level = c :: tl /\ value_start c.
Proof.
  destruct v as [|[]|z|[|[]|x]|s|[|a l]|[|kv d]];
    try (do 2 eexists; split; [reflexivity|repeat split; discriminate]).
  - cbn [iterencode]. unfold str_int. destruct (z <? 0)%Z.
    + do 2 eexists. split; [reflexivity|]. apply value_start_digit. now left.
    + destruct (str_N_nonempty (Z.abs_N z)) as (c & tl & E & Hc).
      exists c, tl. split; [exact E|]. apply value_start_digit. now right.
  - cbn [iterencode floatstr]. destruct (laws x) as (_ & i & f & e & Hm & _).
    destruct (match_number_first _ Hm) as (c & tl & E & Hc).
    exists c, tl. split; [exact E|]. now apply value_start_digit.
Qed.

Lemma skip_ws_value (indent : nat) (v : pyval) (level : nat) (s : pystr) :
  skip_ws (iterencode indent v level ++ s) = iterencode indent v level ++ s.
Proof.
  destruct (iterencode_first indent v level) as (c & tl & E & Hc & _).
  rewrite E. cbn [app]. now apply skip_ws_start.
Qed.

Lemma scan_once_quote (f : nat) (s : pystr) :
  scan_once (S f) (Chr.QUOTE :: s)
  = match scanstring s with
    | Some (str, rest) => Done (PyStr str, rest)
    | None => Fail
    end.
Proof. reflexivity. Qed.

Lemma scan_once_lbracket (f : nat) (s : pystr) :
  scan_once (S f) (Chr.LBRACKET :: s)
  = match skip_ws s with
    | c1 :: s2 =>
        if c1 =? Chr.RBRACKET then Done (PyList [], s2)
        else array_items f (c1 :: s2) []
    | [] => Fail
    end.
Proof. reflexivity. Qed.

Lemma scan_once_lbrace (f : nat) (s : pystr) :
  scan_once (S f) (Chr.LBRACE :: s)
  = match skip_ws s with
    | c1 :: s2 =>
        if c1 =? Chr.RBRACE then Done (PyDict [], s2)
        else if c1 =? Chr.QUOTE then object_items f s2 []
        else Fail
    | [] => Fail
    end.
Proof. reflexivity. Qed.

Lemma scan_once_literal (f : nat) (c : N) (s : pystr) :
  c <> Chr.QUOTE -> c <> Chr.LBRACE -> c <> Chr.LBRACKET ->
  scan_once (S f) (c :: s) = scan_literal (c :: s).
Proof.
  intros H1 H2 H3. apply N.eqb_neq in H1, H2, H3.
  cbn [scan_once]. rewrite H1, H2, H3. reflexivity.
Qed.

Lemma array_items_S (f : nat) (s : pystr) (acc : list pyval) :
  array_items (S f) s acc
  = match scan_once f s with
    | Done (v, s1) =>
        match skip_ws s1 with
        | c :: s2 =>
            if c =? Chr.RBRACKET then Done (PyList (rev (v :: acc)), s2)
            else if c =? Chr.COMMA then array_items f (skip_ws s2) (v :: acc)
            else Fail
        | [] => Fail
        end
    | Fail => Fail
    | OutOfFuel => OutOfFuel
    end.
Proof. reflexivity. Qed.

Lemma object_items_S (f : nat) (s : pystr) (acc : list (pystr * pyval)) :
  object_items (S f) s acc
  = match scanstring s with
    | None => Fail
    | Some (key, s1) =>
        match skip_ws s1 with
        | c :: s2 =>
            if c =? Chr.COLON then
              match scan_once f (skip_ws s2) with
              | Done (v, s3) =>
                  match skip_ws s3 with
                  | c1 :: s4 =>
                      if c1 =? Chr.RBRACE then
                        Done (PyDict (dict_of_pairs (rev ((key, v) :: acc))), s4)
                      else if c1 =? Chr.COMMA then
                        match skip_ws s4 with
                        | c2 :: s5 =>
                            if c2 =? Chr.QUOTE
                            then object_items f s5 ((key, v) :: acc)
                            else Fail
                        | [] => Fail
                        end
                      else Fail
                  | [] => Fail
                  end
              | Fail => Fail
              | OutOfFuel => OutOfFuel
              end
            else Fail
        | [] => Fail
        end
    end.
Proof. reflexivity. Qed.

Lemma strip_prefix_first (x c : N) (p s : pystr) :
  c <> x -> strip_prefix (x :: p) (c :: s) = None.
Proof.
  intros H. cbn [strip_prefix]. destruct (N.eqb_spec x c); [congruence|reflexivity].
Qed.

(** A number token followed by a delimiter is read as that number. *)
Lemma scan_literal_number (l i fr e rest : pystr) :
  match_number l = Some (i, fr, e, []) -> delim rest ->
  scan_literal (l ++ rest)
  = Done (match fr, e with
          | [], [] => PyInt (int_of_literal i)
          | _, _ => PyFloat (float_of_literal (i ++ fr ++ e))
          end, rest).
Proof.
  intros Hm Hd. destruct (match_number_first _ Hm) as (c & tl & -> & Hc).
  pose proof (@match_number_app _ rest _ _ _ _ Hd Hm) as Ha. cbn [app] in *.
  assert (Hr : 48 <= c <= 57 \/ c = 45).
  { destruct Hc as [->|Hc]; [now right|left; now apply is_digit_range]. }
  unfold scan_literal. eval_py.
  rewrite !strip_prefix_first by (clear - Hr; lia).
  rewrite Ha. destruct fr, e; reflexivity.
Qed.

(** [enc_ok indent v]: the decoder reads [v] back from its encoding, whatever
    follows it and at any nesting level, given fuel for the text. *)
Definition enc_ok (indent : nat) (v : pyval) : Prop :=
  forall fuel level rest,
    delim rest ->
    (2 * List.length (iterencode indent v level ++ rest) < fuel)%nat ->
    scan_once fuel (iterencode indent v level ++ rest) = Done (v, rest).

Lemma array_items_encode (indent : nat) (items : list pyval) :
  items <> [] -> Forall (enc_ok indent) items ->
  forall fuel level rest acc,
    let text :=
      join (Chr.COMMA :: newline_indent indent (S level))
           (map (fun v => iterencode indent v (S level)) items)
      ++ newline_indent indent level ++ Chr.RBRACKET :: rest in
    (2 * List.length text + 1 < fuel)%nat ->
    array_items fuel text acc = Done (PyList (rev acc ++ items), rest).
Proof.
  intros Hne Hall. induction Hall as [|a l Ha Hl IH]; [contradiction|].
  intros fuel level rest acc text Hf. subst text.
  destruct fuel as [|f]; [lia|]. rewrite array_items_S.
  destruct l as [|b l].
  - cbn [map join] in *. rewrite Ha.
    + rewrite skip_ws_newline_indent.
      rewrite skip_ws_start by reflexivity.
      change (Chr.RBRACKET =? Chr.RBRACKET) with true. cbv iota.
      reflexivity.
    + apply delim_newline_indent.
    + lia.
  - cbn [map] in *. rewrite join_cons in *. rewrite <- !app_assoc in *.
    cbn [app] in *. rewrite Ha.
    + rewrite skip_ws_start by reflexivity.
      change (Chr.COMMA =? Chr.RBRACKET) with false.
      change (Chr.COMMA =? Chr.COMMA) with true. cbv iota.
      rewrite skip_ws_newline_indent.
      assert (Hs : forall t,
        skip_ws (join (Chr.COMMA :: newline_indent indent (S level))
                      (iterencode indent b (S level)
                       :: map (fun v => iterencode indent v (S level)) l) ++ t)
        = join (Chr.COMMA :: newline_indent indent (S level))
               (iterencode indent b (S level)
                :: map (fun v => iterencode indent v (S level)) l) ++ t).
      { intros t. destruct l as [|c l]; cbn [map join].
        - apply skip_ws_value.
        - rewrite <- app_assoc. apply skip_ws_value. }
      rewrite Hs. rewrite (IH ltac:(discriminate) f level rest (a :: acc)).
      * cbn [rev]. rewrite <- app_assoc. reflexivity.
      * cbn [map]. len_lia.
    + left. reflexivity.
    + len_lia.
Qed.

Lemma items_text_head (indent level : nat) (sep : pystr) (a : pyval)
  (l : list pyval) (t : pystr) :
  exists c tl,
    join sep (map (fun v => iterencode indent v level) (a :: l)) ++ t = c :: tl
    /\ value_start c.
Proof.
  destruct (iterencode_first indent a level) as (c & tl & E & Hc).
  destruct l as [|b l]; cbn [map join]; rewrite E; cbn [app]; eauto.
Qed.

(** The text of one key and value pair of an encoded dictionary. *)
Definition pair_text (indent level : nat) (kv : pystr * pyval) : pystr :=
  encode_basestring_ascii (fst kv) ++ py ": " ++ iterencode indent (snd kv) level.

Lemma pairs_text_head (indent level : nat) (sep : pystr) (kv : pystr * pyval)
  (l : list (pystr * pyval)) (t : pystr) :
  exists tl, join sep (map (pair_text indent level) (kv :: l)) ++ t
             = Chr.QUOTE :: tl.
Proof.
  destruct l as [|b l]; cbn [map join]; unfold pair_text at 1,
    encode_basestring_ascii; cbn [app]; eauto.
Qed.

Lemma cons_tail_eq (a : N) (x y : pystr) : a :: x = a :: y -> x = y.
Proof. now intros [= ->]. Qed.

Lemma pair_text_app (indent level : nat) (k : pystr) (v : pyval) (t : pystr) :
  pair_text indent level (k, v) ++ t
  = Chr.QUOTE :: flat_map escape_char k
    ++ Chr.QUOTE :: Chr.COLON :: Chr.SPACE :: (iterencode indent v level ++ t).
Proof.
  unfold pair_text, encode_basestring_ascii. cbn [fst snd].
  change (py ": ") with [Chr.COLON; Chr.SPACE].
  rewrite <- !app_assoc. cbn [app]. rewrite <- !app_assoc. reflexivity.
Qed.

Lemma object_items_encode (indent : nat) (d : list (pystr * pyval)) :
  d <> [] ->
  Forall (fun kv => wf_str (fst kv) = true /\ enc_ok indent (snd kv)) d ->
  forall fuel level rest acc text,
    Chr.QUOTE :: text
    = join (Chr.COMMA :: newline_indent indent (S level))
           (map (pair_text indent (S level)) d)
      ++ newline_indent indent level ++ Chr.RBRACE :: rest ->
    (2 * List.length text + 1 < fuel)%nat ->
    object_items fuel text acc
    = Done (PyDict (dict_of_pairs (rev acc ++ d)), rest).
Proof.
  intros Hne Hall. induction Hall as [|[k v] l [Hk Hv] Hl IH]; [contradiction|].
  intros fuel level rest acc text Et Hf. cbn [fst snd] in *.
  destruct fuel as [|f]; [lia|]. rewrite object_items_S.
  destruct l as [|kv2 l].
  - change (map (pair_text indent (S level)) [(k, v)])
      with [pair_text indent (S level) (k, v)] in Et.
    change (join ?sep [?x]) with x in Et.
    rewrite pair_text_app in Et. apply cons_tail_eq in Et. subst text.
    rewrite (scanstring_encode k _ Hk).
    rewrite skip_ws_start by reflexivity.
    change (Chr.COLON =? Chr.COLON) with true. cbv iota.
    change (skip_ws (Chr.SPACE :: ?x)) with (skip_ws x).
    rewrite skip_ws_value, Hv.
    + first [rewrite skip_ws_newline_indent|rewrite skip_ws_lf].
      rewrite skip_ws_start by reflexivity.
      change (Chr.RBRACE =? Chr.RBRACE) with true. cbv iota. reflexivity.
    + right. reflexivity.
    + len_lia.
  - change (map (pair_text indent (S level)) ((k, v) :: kv2 :: l))
      with (pair_text indent (S level) (k, v)
            :: pair_text indent (S level) kv2
            :: map (pair_text indent (S level)) l) in Et.
    rewrite join_cons, <- app_assoc, pair_text_app in Et.
    apply cons_tail_eq in Et. subst text.
    rewrite (scanstring_encode k _ Hk).
    rewrite skip_ws_start by reflexivity.
    change (Chr.COLON =? Chr.COLON) with true. cbv iota.
    change (skip_ws (Chr.SPACE :: ?x)) with (skip_ws x).
    rewrite <- !app_assoc. rewrite <- app_comm_cons.
    rewrite skip_ws_value, Hv.
    + rewrite skip_ws_start by reflexivity.
      change (Chr.COMMA =? Chr.RBRACE) with false.
      change (Chr.COMMA =? Chr.COMMA) with true. cbv iota.
      first [rewrite skip_ws_newline_indent|rewrite skip_ws_lf].
      destruct (pairs_text_head indent (S level)
                  (Chr.COMMA :: newline_indent indent (S level)) kv2 l
                  (newline_indent indent level ++ Chr.RBRACE :: rest))
        as (tl & E).
      change (map (pair_text indent (S level)) (kv2 :: l))
        with (pair_text indent (S level) kv2
              :: map (pair_text indent (S level)) l) in E.
      pose proof (f_equal (@List.length N) E) as El.
      rewrite E.
      rewrite skip_ws_start by reflexivity.
      change (Chr.QUOTE =? Chr.QUOTE) with true. cbv iota.
      rewrite (IH ltac:(discriminate) f level rest ((k, v) :: acc) tl).
      * cbn [rev]. rewrite <- app_assoc. reflexivity.
      * symmetry. exact E.
      * len_lia.
    + left. reflexivity.
    + len_lia.
Qed.

Lemma iterencode_list (indent : nat) (a : pyval) (l : list pyval) (level : nat) :
  iterencode indent (PyList (a :: l)) level
  = Chr.LBRACKET :: newline_indent indent (S level)
    ++ join (Chr.COMMA :: newline_indent indent (S level))
            (map (fun v => iterencode indent v (S level)) (a :: l))
    ++ newline_indent indent level ++ [Chr.RBRACKET].
Proof. reflexivity. Qed.

Lemma iterencode_dict (indent : nat) (kv : pystr * pyval)
  (d : list (pystr * pyval)) (level : nat) :
  iterencode indent (PyDict (kv :: d)) level
  = Chr.LBRACE :: newline_indent indent (S level)
    ++ join (Chr.COMMA :: newline_indent indent (S level))
            (map (pair_text indent (S level)) (kv :: d))
    ++ newline_indent indent level ++ [Chr.RBRACE].
Proof. reflexivity. Qed.

Lemma scan_once_number (f : nat) (l i fr e rest : pystr) :
  match_number l = Some (i, fr, e, []) -> delim rest ->
  scan_once (S f) (l ++ rest)
  = Done (match fr, e with
          | [], [] => PyInt (int_of_literal i)
          | _, _ => PyFloat (float_of_literal (i ++ fr ++ e))
          end, rest).
Proof.
  intros Hm Hd. rewrite <- (@scan_literal_number l i fr e rest Hm Hd).
  destruct (match_number_first _ Hm) as (c & tl & -> & Hc). cbn [app].
  assert (Hr : 48 <= c <= 57 \/ c = 45).
  { destruct Hc as [->|Hc]; [now right|left; now apply is_digit_range]. }
  apply scan_once_literal;
    unfold Chr.QUOTE, Chr.LBRACE, Chr.LBRACKET; clear - Hr; lia.
Qed.

Lemma match_number_parts (l i f e r : pystr) :
  match_number l = Some (i, f, e, r) -> l = i ++ f ++ e ++ r.
Proof.
  assert (Hsp : forall s, s = fst (span_digits s) ++ snd (span_digits s)).
  { induction s as [|c s IH]; [reflexivity|]. cbn [span_digits].
    destruct (is_digit c); [|reflexivity].
    destruct (span_digits s) as [ds r0]. cbn [fst snd app] in *. now f_equal. }
  assert (Hfr : forall s, s = fst (match_frac s) ++ snd (match_frac s)).
  { intros [|d s]; [reflexivity|]. unfold match_frac.
    destruct (d =? Chr.DOT); [|reflexivity].
    pose proof (Hsp s) as Hs. destruct (span_digits s) as [[|x ds] r0];
      [reflexivity|]. cbn [fst snd app] in *. now f_equal. }
  assert (Hex : forall s, s = fst (match_exp s) ++ snd (match_exp s)).
  { intros [|x s]; [reflexivity|]. unfold match_exp.
    destruct ((x =? 101) || (x =? 69)); [|reflexivity].
    destruct s as [|g s].
    - reflexivity.
    - destruct ((g =? Chr.PLUS) || (g =? Chr.MINUS)).
      + pose proof (Hsp s) as Hs. destruct (span_digits s) as [[|y ds] r0];
          [reflexivity|]. cbn [fst snd app] in *. now do 2 f_equal.
      + pose proof (Hsp (g :: s)) as Hs.
        destruct (span_digits (g :: s)) as [[|y ds] r0];
          [reflexivity|]. cbn [fst snd app] in *. now f_equal. }
  assert (Htl : forall integer s i' f' e' r',
            match_tail integer s = (i', f', e', r') ->
            i' = integer /\ s = f' ++ e' ++ r').
  { intros integer s i' f' e' r'. unfold match_tail.
    pose proof (Hfr s) as H1. destruct (match_frac s) as [fr s1].
    pose proof (Hex s1) as H2. destruct (match_exp s1) as [ex s2].
    cbn [fst snd] in *. intros [= <- <- <- <-]. split; [reflexivity|].
    now rewrite H1, H2 at 1. }
  unfold match_number. destruct l as [|c l]; [discriminate|].
  destruct (c =? Chr.MINUS).
  - destruct l as [|c2 s2]; [discriminate|].
    destruct (c2 =? Chr.ZERO).
    + intros [= H]. apply Htl in H. destruct H as [-> ->]. reflexivity.
    + destruct (is_digit c2); [|discriminate].
      pose proof (Hsp s2) as Hs. destruct (span_digits s2) as [ds s3].
      intros [= H]. apply Htl in H. destruct H as [-> H]. cbn [fst snd] in Hs.
      rewrite Hs, H. cbn [app]. rewrite <- ?app_assoc. reflexivity.
  - destruct (c =? Chr.ZERO).
    + intros [= H]. apply Htl in H. destruct H as [-> ->]. reflexivity.
    + destruct (is_digit c); [|discriminate].
      pose proof (Hsp l) as Hs. destruct (span_digits l) as [ds s3].
      intros [= H]. apply Htl in H. destruct H as [-> H]. cbn [fst snd] in Hs.
      rewrite Hs, H. cbn [app]. rewrite <- ?app_assoc. reflexivity.
Qed.

(** The decoder reads back every well-formed value from its encoding. *)
Lemma scan_once_encode (indent : nat) (v : pyval) :
  wf_val v -> enc_ok indent v.
Proof.
  induction v as [|b|z|f|s|items IH|d IH] using pyval_ind;
    intros Hwf fuel level rest Hd Hf;
    (destruct fuel as [|fuel]; [lia|]).
  - reflexivity.
  - destruct b; reflexivity.
  - cbn [iterencode].
    rewrite (@scan_once_number fuel _ _ _ _ rest (match_number_str_int z) Hd).
    now rewrite int_of_literal_str_int.
  - destruct f as [|[]|x]; try reflexivity.
    cbn [iterencode floatstr].
    destruct (laws x) as (Hrt & i & fr & e & Hm & Hne).
    rewrite (@scan_once_number fuel _ _ _ _ rest Hm Hd).
    pose proof (match_number_parts _ Hm) as Hp. rewrite app_nil_r in Hp.
    rewrite <- Hp, Hrt.
    destruct fr, e; try reflexivity. destruct Hne; contradiction.
  - inversion Hwf as [| | | |s' Hs| |]; subst.
    cbn [iterencode]. unfold encode_basestring_ascii.
    rewrite <- app_comm_cons, <- app_assoc. cbn [app].
    rewrite scan_once_quote, (scanstring_encode s rest Hs). reflexivity.
  - inversion Hwf as [| | | | |items' Hall|]; subst.
    destruct items as [|a l]; [reflexivity|].
    rewrite iterencode_list in *. rewrite <- app_comm_cons in *.
    rewrite scan_once_lbracket. rewrite <- !app_assoc in *.
    change ([Chr.RBRACKET] ++ rest) with (Chr.RBRACKET :: rest) in *.
    rewrite skip_ws_newline_indent.
    destruct (items_text_head indent (S level)
                (Chr.COMMA :: newline_indent indent (S level)) a l
                (newline_indent indent level ++ Chr.RBRACKET :: rest))
      as (c & tl & E & Hc).
    pose proof E as E'. rewrite E. destruct Hc as (Hw & Hb & _).
    rewrite skip_ws_start by exact Hw.
    apply N.eqb_neq in Hb. rewrite Hb. rewrite <- E'.
    rewrite (@array_items_encode indent (a :: l) ltac:(discriminate)).
    + reflexivity.
    + rewrite Forall_forall in *. intros x Hx. apply IH; auto.
    + len_lia.
  - inversion Hwf as [| | | | | |d' Hnd Hall]; subst.
    destruct d as [|kv l]; [reflexivity|].
    rewrite iterencode_dict in *. rewrite <- app_comm_cons in *.
    rewrite scan_once_lbrace. rewrite <- !app_assoc in *.
    change ([Chr.RBRACE] ++ rest) with (Chr.RBRACE :: rest) in *.
    rewrite skip_ws_newline_indent.
    destruct (pairs_text_head indent (S level)
                (Chr.COMMA :: newline_indent indent (S level)) kv l
                (newline_indent indent level ++ Chr.RBRACE :: rest))
      as (tl & E).
    pose proof (f_equal (@List.length N) E) as El. rewrite E.
    rewrite skip_ws_start by reflexivity.
    change (Chr.QUOTE =? Chr.RBRACE) with false.
    change (Chr.QUOTE =? Chr.QUOTE) with true. cbv iota.
    rewrite (@object_items_encode indent (kv :: l) ltac:(discriminate))
      with (level := level) (rest := rest).
    + cbn [rev app]. now rewrite (@dict_of_pairs_nodup _ (kv :: l) Hnd).
    + rewrite Forall_forall in *. intros x Hx. split; [now apply Hall|].
      apply IH; [exact Hx|]. now apply Hall.
    + symmetry. exact E.
    + len_lia.
Qed.

(** Reading back what [json.dumps] wrote gives the value again. *)
Lemma json_loads_dumps (indent : nat) (v : pyval) :
  wf_val v -> json_loads (json_dumps indent v) = Done v.
Proof.
  intros Hwf. unfold json_loads, json_dumps.
  destruct (iterencode_first indent v 0) as (c & tl & E & Hw & _ & _ & Hb & _).
  pose proof (@scan_once_encode indent v Hwf
                (S (2 * List.length (iterencode indent v 0))) 0%nat [] I) as H.
  rewrite app_nil_r in H. rewrite E in *. apply N.eqb_neq in Hb. rewrite Hb.
  rewrite skip_ws_start by exact Hw. rewrite H by lia. reflexivity.
Qed.
End RoundTrip.

(** ** What the decoder returns is well formed *)

Definition is_surrogate (c : N) : bool := (55296 <=? c) && (c <=? 57343).

(** A Unicode scalar value: what decoding bytes into text yields. *)
Definition is_scalar (c : N) : bool := is_code_point c && negb (is_surrogate c).

Lemma cons_char_some (x : N) (r : option (pystr * pystr)) (str rest : pystr) :
  cons_char x r = Some (str, rest) ->
  exists str', r = Some (str', rest) /\ str = x :: str'.
Proof.
  destruct r as [[s' r']|]; [|discriminate]. intros [= <- <-]. eauto.
Qed.

Lemma join_surrogates_code_point (hi lo : N) :
  is_high_surrogate hi = true -> is_low_surrogate lo = true ->
  65536 <= join_surrogates hi lo < 1114112.
Proof.
  unfold is_high_surrogate, is_low_surrogate, join_surrogates.
  rewrite !andb_true_iff, !N.leb_le. intros [H1 H2] [H3 H4].
  rewrite N.shiftl_mul_pow2. change (2 ^ 10) with 1024.
  rewrite lor_1024 by lia. lia.
Qed.

Lemma backslash_ascii (e ch : N) : backslash e = Some ch -> ch < 128.
Proof.
  unfold backslash.
  repeat match goal with
         | |- context [if ?b then _ else _] => destruct b
         end; intros [= <-]; try reflexivity.
Qed.

(** The properties of a character [x] decoded by one step of [scanstring] on
    [s], the scan going on with [t]. *)
Definition decoded_char (x : N) (s t : pystr) : Prop :=
  is_code_point x = true
  /\ (is_high_surrogate x = true ->
      peek_u t = None
      \/ exists v, peek_u t = Some (Some v) /\ is_low_surrogate v = false)
  /\ (is_low_surrogate x = true ->
      exists v, peek_u s = Some (Some v) /\ is_low_surrogate v = true).

Lemma decoded_char_plain (x : N) (s t : pystr) :
  x < 55296 \/ 57343 < x < 1114112 -> decoded_char x s t.
Proof.
  intros Hx. unfold decoded_char, is_code_point, is_high_surrogate,
    is_low_surrogate. repeat split.
  - apply N.ltb_lt. lia.
  - rewrite andb_true_iff, !N.leb_le. lia.
  - rewrite andb_true_iff, !N.leb_le. lia.
Qed.

(** In a branch of [scanstring] that keeps the escape [uni] and goes on with
    the text [t] after its six characters: the witnesses of one step. *)
Ltac keep_escape H :=
  match type of H with
  | cons_char ?uni (scanstring ?t) = Some _ =>
      apply cons_char_some in H;
      let str' := fresh "str'" in
      let Hr := fresh "Hr" in
      destruct H as (str' & Hr & ->);
      exists uni, str'; eexists; exists t;
      split; [reflexivity|];
      split; [instantiate (1 := [_; _; _; _; _; _]); reflexivity|];
      split; [discriminate|];
      split; [exact Hr|]
  end.

(** One step of [scanstring]: the closing quote, or one decoded character [x]
    and the rest of the scan on a shorter text. *)
Lemma scanstring_step (s str rest : pystr) :
  scanstring s = Some (str, rest) ->
  (str = [] /\ s = Chr.QUOTE :: rest)
  \/ exists x str' pre t,
       str = x :: str' /\ s = pre ++ t /\ pre <> []
       /\ scanstring t = Some (str', rest)
       /\ (forallb is_scalar s = true -> decoded_char x s t).
Proof.
  intros H. destruct s as [|c s1]; [discriminate|].
  cbn [scanstring] in H.
  destruct (N.eqb_spec c Chr.QUOTE) as [->|Hq].
  { left. injection H as <- <-. split; reflexivity. }
  right.
  destruct (N.eqb_spec c Chr.BACKSLASH) as [->|Hb].
  - destruct s1 as [|e s2]; [discriminate|].
    destruct (N.eqb_spec e 117) as [->|He].
    + destruct s2 as [|h1 [|h2 [|h3 [|h4 s3]]]]; try discriminate.
      destruct (decode_uXXXX h1 h2 h3 h4) as [uni|] eqn:Ed; [|discriminate].
      pose proof (decode_uXXXX_bound _ _ _ _ Ed) as Hu.
      assert (Hcp : is_code_point uni = true) by (apply N.ltb_lt; lia).
      assert (Hlow : forall t, is_low_surrogate uni = true ->
                exists v,
                  peek_u (Chr.BACKSLASH :: 117 :: h1 :: h2 :: h3 :: h4 :: t)
                  = Some (Some v) /\ is_low_surrogate v = true).
      { intros t Hl. exists uni. cbn [peek_u]. rewrite Ed.
        split; [reflexivity|exact Hl]. }
      destruct (is_high_surrogate uni) eqn:Eh.
      * destruct s3 as [|b [|u [|g1 [|g2 [|g3 [|g4 s4]]]]]];
          try (keep_escape H; intros _; split; [exact Hcp|];
               split; [intros _; left; reflexivity|apply Hlow]).
        destruct ((b =? Chr.BACKSLASH) && (u =? 117)) eqn:Ebu.
        -- destruct (decode_uXXXX g1 g2 g3 g4) as [uni2|] eqn:Ed2;
             [|discriminate].
           destruct (is_low_surrogate uni2) eqn:El.
           ++ apply cons_char_some in H. destruct H as (str' & Hr & ->).
              pose proof (join_surrogates_code_point _ _ Eh El) as Hj.
              exists (join_surrogates uni uni2), str',
                [Chr.BACKSLASH; 117; h1; h2; h3; h4; b; u; g1; g2; g3; g4], s4.
              repeat (split; [reflexivity || discriminate || assumption|]).
              intros _. apply decoded_char_plain. lia.
           ++ keep_escape H. intros _. split; [exact Hcp|].
              split; [|apply Hlow]. intros _. right. exists uni2.
              cbn [peek_u]. rewrite Ebu, Ed2. split; [reflexivity|exact El].
        -- keep_escape H. intros _. split; [exact Hcp|].
           split; [|apply Hlow]. intros _. left. cbn [peek_u]. now rewrite Ebu.
      * keep_escape H. intros _. split; [exact Hcp|].
        split; [|apply Hlow]. intros Hx. rewrite Eh in Hx. discriminate Hx.
    + destruct (backslash e) as [ch|] eqn:Eb; [|discriminate].
      apply cons_char_some in H. destruct H as (str' & Hr & ->).
      pose proof (backslash_ascii _ Eb) as Ha.
      exists ch, str', [Chr.BACKSLASH; e], s2.
      repeat (split; [reflexivity || discriminate || assumption|]).
      intros _. apply decoded_char_plain. lia.
  - destruct (c <? 32); [discriminate|].
    apply cons_char_some in H. destruct H as (str' & Hr & ->).
    exists c, str', [c], s1.
    repeat (split; [reflexivity || discriminate || assumption|]).
    intros Hsc. cbn [forallb] in Hsc. apply andb_true_iff in Hsc.
    destruct Hsc as [Hc _].
    unfold is_scalar in Hc. apply andb_true_iff in Hc. destruct Hc as [Hcp Hns].
    apply negb_true_iff in Hns. unfold is_surrogate in Hns.
    apply andb_false_iff in Hns. rewrite !N.leb_gt in Hns.
    apply N.ltb_lt in Hcp. apply decoded_char_plain. lia.
Qed.

(** [rest] is what is left of [s] after a part of it was read. *)
Definition shorter (rest s : pystr) : Prop :=
  exists pre, pre <> [] /\ s = pre ++ rest.

Lemma shorter_length (rest s : pystr) :
  shorter rest s -> (List.length rest < List.length s)%nat.
Proof.
  intros (pre & Hn & ->). rewrite length_app.
  destruct pre; [contradiction|]. cbn [List.length]. lia.
Qed.

Lemma shorter_forallb (P : N -> bool) (rest s : pystr) :
  shorter rest s -> forallb P s = true -> forallb P rest = true.
Proof.
  intros (pre & _ & ->). rewrite forallb_app, andb_true_iff. now intros [_ H].
Qed.

Lemma shorter_app (pre rest s : pystr) :
  shorter rest s -> shorter rest (pre ++ s).
Proof.
  intros (p & Hn & ->). exists (pre ++ p). split.
  - destruct pre; [exact Hn|discriminate].
  - now rewrite app_assoc.
Qed.

Lemma shorter_cons (c : N) (rest : pystr) : shorter rest (c :: rest).
Proof. exists [c]. split; [discriminate|reflexivity]. Qed.

Lemma shorter_trans (a b c : pystr) : shorter a b -> shorter b c -> shorter a c.
Proof. intros H (p & _ & ->). now apply shorter_app. Qed.

(** The string [scanstring] returns is well formed when the text holds
    scalar values only; what is left of the text is shorter. *)
Lemma scanstring_wf (n : nat) :
  forall s str rest,
    (List.length s <= n)%nat ->
    scanstring s = Some (str, rest) ->
    shorter rest s
    /\ (forallb is_scalar s = true ->
        wf_str str = true
        /\ match str with
           | x :: _ => is_low_surrogate x = true ->
                       exists v, peek_u s = Some (Some v)
                                 /\ is_low_surrogate v = true
           | [] => True
           end).
Proof.
  induction n as [|n IH]; intros s str rest Hlen H.
  - destruct s; [discriminate H|cbn [List.length] in Hlen; lia].
  - destruct (scanstring_step _ H)
      as [[-> ->]|(x & str' & pre & t & -> & -> & Hn & Ht & Hd)].
    + split; [apply shorter_cons|]. intros _. split; [reflexivity|exact I].
    + assert (Hlt : (List.length t <= n)%nat).
      { rewrite length_app in Hlen. destruct pre; [contradiction|].
        cbn [List.length] in Hlen. lia. }
      destruct (IH t str' rest Hlt Ht) as [Hsh Hwf].
      split; [now apply shorter_app|].
      intros Hsc. destruct (Hd Hsc) as (Hcp & Hhi & Hlo).
      assert (Hsct : forallb is_scalar t = true).
      { rewrite forallb_app in Hsc. now apply andb_true_iff in Hsc. }
      destruct (Hwf Hsct) as [Hw Hfirst]. split; [|exact Hlo].
      unfold wf_str in *. apply andb_true_iff in Hw. destruct Hw as [Hw1 Hw2].
      cbn [forallb no_pair]. rewrite Hcp, Hw1, Hw2, andb_true_r. cbn [andb].
      destruct str' as [|c' str'']; [reflexivity|].
      destruct (is_high_surrogate x) eqn:Eh; [|reflexivity].
      destruct (is_low_surrogate c') eqn:El; [|reflexivity].
      destruct (Hfirst eq_refl) as (v & Hv & Hvl).
      destruct (Hhi eq_refl) as [Hp|(w & Hp & Hwl)]; rewrite Hp in Hv.
      * discriminate Hv.
      * injection Hv as ->. rewrite Hvl in Hwl. discriminate Hwl.
Qed.

Lemma scanstring_ok (s str rest : pystr) :
  scanstring s = Some (str, rest) ->
  shorter rest s /\ (forallb is_scalar s = true -> wf_str str = true).
Proof.
  intros H. destruct (@scanstring_wf (List.length s) s str rest (le_n _) H)
    as [Hs Hw].
  split; [exact Hs|]. intros Hsc. now apply Hw.
Qed.

Definition suffix (rest s : pystr) : Prop := exists pre, s = pre ++ rest.

Lemma suffix_refl (s : pystr) : suffix s s.
Proof. now exists []. Qed.

Lemma skip_ws_suffix (s : pystr) : suffix (skip_ws s) s.
Proof.
  induction s as [|c s IH]; [apply suffix_refl|]. cbn [skip_ws].
  destruct (is_ws c); [|apply suffix_refl].
  destruct IH as (pre & E). exists (c :: pre). cbn [app]. now f_equal.
Qed.

Lemma shorter_suffix (a b c : pystr) : shorter a b -> suffix b c -> shorter a c.
Proof. intros H (p & ->). now apply shorter_app. Qed.

Lemma suffix_shorter (a b c : pystr) : suffix a b -> shorter b c -> shorter a c.
Proof.
  intros (p & ->) (q & Hn & ->). exists (q ++ p). split.
  - destruct q; [contradiction|discriminate].
  - now rewrite app_assoc.
Qed.

Lemma suffix_length (rest s : pystr) :
  suffix rest s -> (List.length rest <= List.length s)%nat.
Proof. intros (pre & ->). rewrite length_app. lia. Qed.

Lemma suffix_forallb (P : N -> bool) (rest s : pystr) :
  suffix rest s -> forallb P s = true -> forallb P rest = true.
Proof.
  intros (pre & ->). rewrite forallb_app, andb_true_iff. now intros [_ H].
Qed.

(** What is left after skipping white space and reading one character. *)
Lemma skip_ws_cons (s s2 : pystr) (c : N) :
  skip_ws s = c :: s2 -> shorter s2 s.
Proof.
  intros E. eapply shorter_suffix; [|apply skip_ws_suffix].
  rewrite E. apply shorter_cons.
Qed.

Lemma strip_prefix_eq (p s rest : pystr) :
  strip_prefix p s = Some rest -> s = p ++ rest.
Proof.
  revert s. induction p as [|x p IH]; intros s H.
  - now injection H as ->.
  - destruct s as [|y s]; [discriminate|]. cbn [strip_prefix] in H.
    destruct (N.eqb_spec x y) as [->|_]; [|discriminate].
    cbn [app]. f_equal. now apply IH.
Qed.

Lemma strip_prefix_shorter (p s rest : pystr) :
  p <> [] -> strip_prefix p s = Some rest -> shorter rest s.
Proof. intros Hn H. exists p. split; [exact Hn|now apply strip_prefix_eq]. Qed.

Lemma match_tail_integer (integer s i f e r : pystr) :
  match_tail integer s = (i, f, e, r) -> i = integer.
Proof.
  unfold match_tail. destruct (match_frac s) as [fr s1].
  destruct (match_exp s1) as [ex s2]. now intros [= <- _ _ _].
Qed.

Lemma match_number_shorter (l i f e r : pystr) :
  match_number l = Some (i, f, e, r) -> shorter r l.
Proof.
  intros H. pose proof (match_number_parts _ H) as Hp.
  assert (Hi : i <> []).
  { unfold match_number in H. destruct l as [|c l]; [discriminate|].
    destruct (c =? Chr.MINUS).
    - destruct l as [|c2 s2]; [discriminate|]. destruct (c2 =? Chr.ZERO).
      + injection H as H. apply match_tail_integer in H. subst i. discriminate.
      + destruct (is_digit c2); [|discriminate].
        destruct (span_digits s2) as [ds s3]. injection H as H.
        apply match_tail_integer in H. subst i. discriminate.
    - destruct (c =? Chr.ZERO).
      + injection H as H. apply match_tail_integer in H. subst i. discriminate.
      + destruct (is_digit c); [|discriminate].
        destruct (span_digits l) as [ds s3]. injection H as H.
        apply match_tail_integer in H. subst i. discriminate. }
  exists (i ++ f ++ e). split.
  - destruct i; [contradiction|discriminate].
  - rewrite Hp, <- !app_assoc. reflexivity.
Qed.

Section DictInvariant.
Variable V : Type.
Variable P : pystr * V -> Prop.

Lemma dict_set_in_keys (d : pydict V) (k k' : pystr) (v : V) :
  In k' (keys (dict_set d k v)) -> In k' (keys d) \/ k' = k.
Proof.
  induction d as [|[k0 v0] d IH]; cbn [dict_set keys map fst].
  - intros [<-|[]]. now right.
  - destruct (str_eqb k0 k); cbn [keys map fst].
    + intros H. now left.
    + intros [<-|H]; [left; now left|]. destruct (IH H); [left; now right|now right].
Qed.

Lemma dict_set_nodup (d : pydict V) (k : pystr) (v : V) :
  NoDup (keys d) -> NoDup (keys (dict_set d k v)).
Proof.
  induction d as [|[k0 v0] d IH]; cbn [dict_set keys map fst]; intros H.
  - constructor; [intros []|constructor].
  - inversion H as [|? ? Hnin Hnd]; subst.
    destruct (str_eqb k0 k) eqn:E; cbn [keys map fst].
    + constructor; assumption.
    + constructor; [|now apply IH].
      intros Hin. apply dict_set_in_keys in Hin. destruct Hin as [Hin| ->].
      * now apply Hnin.
      * rewrite str_eqb_refl in E. discriminate E.
Qed.

Lemma dict_set_forall (d : pydict V) (k : pystr) (v : V) :
  Forall P d -> P (k, v) -> Forall P (dict_set d k v).
Proof.
  intros Hd Hk. induction Hd as [|[k0 v0] d H0 Hd IH]; cbn [dict_set].
  - constructor; [exact Hk|constructor].
  - destruct (str_eqb k0 k) eqn:E.
    + apply str_eqb_eq in E. subst k0. constructor; assumption.
    + constructor; assumption.
Qed.

Lemma dict_of_pairs_invariant (pairs : list (pystr * V)) :
  Forall P pairs ->
  NoDup (keys (dict_of_pairs pairs)) /\ Forall P (dict_of_pairs pairs).
Proof.
  unfold dict_of_pairs.
  assert (H : forall acc, NoDup (keys acc) -> Forall P acc -> Forall P pairs ->
            NoDup (keys (fold_left (fun m kv => dict_set m (fst kv) (snd kv)) pairs acc))
            /\ Forall P (fold_left (fun m kv => dict_set m (fst kv) (snd kv)) pairs acc)).
  { induction pairs as [|[k v] pairs IH]; intros acc Hn Ha Hp; [now split|].
    inversion Hp; subst. cbn [fold_left fst snd]. apply IH.
    - now apply dict_set_nodup.
    - now apply dict_set_forall.
    - assumption. }
  intros Hp. apply H; [constructor|constructor|exact Hp].
Qed.

End DictInvariant.

Section Decoded.
Context {RT : PyRuntime}.

Definition wf_pair (kv : pystr * pyval) : Prop :=
  wf_str (fst kv) = true /\ wf_val (snd kv).

Lemma scan_literal_wf (s rest : pystr) (v : pyval) :
  scan_literal s = Done (v, rest) -> shorter rest s /\ wf_val v.
Proof.
  unfold scan_literal.
  destruct (strip_prefix (py "null") s) as [r|] eqn:E1.
  { intros [= <- <-]. split; [|constructor].
    eapply strip_prefix_shorter; [|exact E1]. discriminate. }
  destruct (strip_prefix (py "true") s) as [r|] eqn:E2.
  { intros [= <- <-]. split; [|constructor].
    eapply strip_prefix_shorter; [|exact E2]. discriminate. }
  destruct (strip_prefix (py "false") s) as [r|] eqn:E3.
  { intros [= <- <-]. split; [|constructor].
    eapply strip_prefix_shorter; [|exact E3]. discriminate. }
  destruct (match_number s) as [[[[i f] e] r]|] eqn:Em.
  { apply match_number_shorter in Em.
    destruct f, e; intros [= <- <-]; (split; [exact Em|constructor]). }
  destruct (strip_prefix (py "NaN") s) as [r|] eqn:E4.
  { intros [= <- <-]. split; [|constructor].
    eapply strip_prefix_shorter; [|exact E4]. discriminate. }
  destruct (strip_prefix (py "Infinity") s) as [r|] eqn:E5.
  { intros [= <- <-]. split; [|constructor].
    eapply strip_prefix_shorter; [|exact E5]. discriminate. }
  destruct (strip_prefix (py "-Infinity") s) as [r|] eqn:E6; [|discriminate].
  intros [= <- <-]. split; [|constructor].
  eapply strip_prefix_shorter; [|exact E6]. discriminate.
Qed.

(** What the three scanning functions return on success: a shorter text, and
    a well-formed value when the text holds scalar values only. *)
Lemma scan_wf (fuel : nat) :
  (forall s v rest,
     scan_once fuel s = Done (v, rest) ->
     shorter rest s /\ (forallb is_scalar s = true -> wf_val v))
  /\ (forall s acc v rest,
        array_items fuel s acc = Done (v, rest) ->
        shorter rest s
        /\ (forallb is_scalar s = true -> Forall wf_val acc -> wf_val v))
  /\ (forall s acc v rest,
        object_items fuel s acc = Done (v, rest) ->
        shorter rest s
        /\ (forallb is_scalar s = true -> Forall wf_pair acc -> wf_val v)).
Proof.
  induction fuel as [|f (IH1 & IH2 & IH3)];
    [repeat split; discriminate|].
  split; [|split].
  - intros s v rest H. destruct s as [|c s1]; [discriminate|].
    cbn [scan_once] in H.
    destruct (c =? Chr.QUOTE).
    { destruct (scanstring s1) as [[str r]|] eqn:Es; [|discriminate].
      injection H as <- <-.
      destruct (scanstring_ok _ Es) as [Hsh Hwf]. split.
      - now apply (shorter_app [c]).
      - intros Hsc. cbn [forallb] in Hsc. apply andb_true_iff in Hsc.
        constructor. now apply Hwf. }
    destruct (c =? Chr.LBRACE).
    { destruct (skip_ws s1) as [|c1 s2] eqn:Ew; [discriminate|].
      pose proof (skip_ws_cons _ Ew) as Hs2.
      destruct (c1 =? Chr.RBRACE).
      - injection H as <- <-. split; [now apply (shorter_app [c])|].
        intros _. constructor; constructor.
      - destruct (c1 =? Chr.QUOTE); [|discriminate].
        apply IH3 in H. destruct H as [Hsh Hwf]. split.
        + apply (shorter_app [c]). eapply shorter_trans; eassumption.
        + intros Hsc. cbn [forallb] in Hsc. apply andb_true_iff in Hsc.
          apply Hwf; [|constructor].
          eapply shorter_forallb; [exact Hs2|apply Hsc]. }
    destruct (c =? Chr.LBRACKET).
    { destruct (skip_ws s1) as [|c1 s2] eqn:Ew; [discriminate|].
      pose proof (skip_ws_suffix s1) as Hsf. rewrite Ew in Hsf.
      destruct (c1 =? Chr.RBRACKET).
      - injection H as <- <-. split.
        + apply (shorter_app [c]). now apply (skip_ws_cons _ Ew).
        + intros _. constructor. constructor.
      - apply IH2 in H. destruct H as [Hsh Hwf]. split.
        + apply (shorter_app [c]). eapply shorter_suffix; eassumption.
        + intros Hsc. cbn [forallb] in Hsc. apply andb_true_iff in Hsc.
          apply Hwf; [|constructor].
          eapply suffix_forallb; [exact Hsf|apply Hsc]. }
    apply scan_literal_wf in H. destruct H as [Hsh Hwf]. split; [exact Hsh|].
    intros _. exact Hwf.
  - intros s acc v rest H. cbn [array_items] in H.
    destruct (scan_once f s) as [[v1 s1]| |] eqn:Es; try discriminate.
    apply IH1 in Es. destruct Es as [Hsh1 Hwf1].
    destruct (skip_ws s1) as [|c s2] eqn:Ew; [discriminate|].
    pose proof (shorter_trans (skip_ws_cons _ Ew) Hsh1) as Hs2.
    destruct (c =? Chr.RBRACKET).
    + injection H as <- <-. split; [exact Hs2|].
      intros Hsc Hacc. apply wf_list.
      change (Forall wf_val (rev (v1 :: acc))). apply Forall_rev.
      constructor; auto.
    + destruct (c =? Chr.COMMA); [|discriminate].
      apply IH2 in H. destruct H as [Hsh Hwf].
      pose proof (suffix_shorter (skip_ws_suffix s2) Hs2) as Hs3. split.
      * eapply shorter_trans; eassumption.
      * intros Hsc Hacc. apply Hwf.
        -- eapply shorter_forallb; [exact Hs3|exact Hsc].
        -- constructor; auto.
  - intros s acc v rest H. cbn [object_items] in H.
    destruct (scanstring s) as [[key s1]|] eqn:Ek; [|discriminate].
    destruct (scanstring_ok _ Ek) as [Hsh1 Hwfk].
    destruct (skip_ws s1) as [|c s2] eqn:Ew; [discriminate|].
    pose proof (shorter_trans (skip_ws_cons _ Ew) Hsh1) as Hs2.
    destruct (c =? Chr.COLON); [|discriminate].
    destruct (scan_once f (skip_ws s2)) as [[v1 s3]| |] eqn:Es;
      try discriminate.
    apply IH1 in Es. destruct Es as [Hsh3 Hwf1].
    pose proof (suffix_shorter (skip_ws_suffix s2) Hs2) as Hs2'.
    pose proof (shorter_trans Hsh3 Hs2') as Hs3.
    destruct (skip_ws s3) as [|c1 s4] eqn:Ew3; [discriminate|].
    pose proof (shorter_trans (skip_ws_cons _ Ew3) Hs3) as Hs4.
    assert (Hpair : forallb is_scalar s = true -> wf_pair (key, v1)).
    { intros Hsc. split; [now apply Hwfk|]. apply Hwf1.
      eapply shorter_forallb; [exact Hs2'|exact Hsc]. }
    destruct (c1 =? Chr.RBRACE).
    + injection H as <- <-. split; [exact Hs4|].
      intros Hsc Hacc.
      destruct (@dict_of_pairs_invariant _ wf_pair (rev ((key, v1) :: acc)))
        as [Hn Hf].
      { apply Forall_rev. constructor; auto. }
      now constructor.
    + destruct (c1 =? Chr.COMMA); [|discriminate].
      destruct (skip_ws s4) as [|c2 s5] eqn:Ew4; [discriminate|].
      pose proof (shorter_trans (skip_ws_cons _ Ew4) Hs4) as Hs5.
      destruct (c2 =? Chr.QUOTE); [|discriminate].
      apply IH3 in H. destruct H as [Hsh Hwf]. split.
      * eapply shorter_trans; eassumption.
      * intros Hsc Hacc. apply Hwf.
        -- eapply shorter_forallb; [exact Hs5|exact Hsc].
        -- constructor; auto.
Qed.

(** A body decoded from a text of scalar values is well formed. *)
Lemma json_loads_wf (s : pystr) (v : pyval) :
  forallb is_scalar s = true -> json_loads s = Done v -> wf_val v.
Proof.
  intros Hsc H. unfold json_loads in H. destruct s as [|c s]; [discriminate|].
  destruct (c =? Chr.BOM); [discriminate|].
  destruct (scan_once _ (skip_ws (c :: s))) as [[v1 rest]| |] eqn:Es;
    try discriminate.
  destruct (skip_ws rest); [|discriminate]. injection H as <-.
  apply (scan_wf _) in Es. destruct Es as [_ Hwf]. apply Hwf.
  eapply suffix_forallb; [apply skip_ws_suffix|exact Hsc].
Qed.

(** The fuel [json_loads] supplies is enough. *)
Lemma scan_fuel (fuel : nat) :
  (forall s, (2 * List.length s < fuel)%nat -> scan_once fuel s <> OutOfFuel)
  /\ (forall s acc, (2 * List.length s + 1 < fuel)%nat ->
                    array_items fuel s acc <> OutOfFuel)
  /\ (forall s acc, (2 * List.length s + 1 < fuel)%nat ->
                    object_items fuel s acc <> OutOfFuel).
Proof.
  induction fuel as [|f (IH1 & IH2 & IH3)]; [repeat split; intros; lia|].
  split; [|split].
  - intros s Hf. destruct s as [|c s1]; [discriminate|]. cbn [scan_once].
    cbn [List.length] in Hf.
    destruct (c =? Chr.QUOTE).
    { destruct (scanstring s1) as [[str r]|]; discriminate. }
    destruct (c =? Chr.LBRACE).
    { destruct (skip_ws s1) as [|c1 s2] eqn:Ew; [discriminate|].
      pose proof (shorter_length (skip_ws_cons _ Ew)) as Hl.
      destruct (c1 =? Chr.RBRACE); [discriminate|].
      destruct (c1 =? Chr.QUOTE); [|discriminate]. apply IH3. lia. }
    destruct (c =? Chr.LBRACKET).
    { destruct (skip_ws s1) as [|c1 s2] eqn:Ew; [discriminate|].
      pose proof (suffix_length (skip_ws_suffix s1)) as Hl. rewrite Ew in Hl.
      destruct (c1 =? Chr.RBRACKET); [discriminate|]. apply IH2. lia. }
    unfold scan_literal.
    repeat match goal with
           | |- context [match ?x with _ => _ end] => destruct x
           end; discriminate.
  - intros s acc Hf. cbn [array_items].
    destruct (scan_once f s) as [[v1 s1]| |] eqn:Es.
    + pose proof (shorter_length (proj1 (proj1 (scan_wf f) _ _ _ Es))) as H1.
      destruct (skip_ws s1) as [|c s2] eqn:Ew; [discriminate|].
      pose proof (shorter_length (skip_ws_cons _ Ew)) as H2.
      destruct (c =? Chr.RBRACKET); [discriminate|].
      destruct (c =? Chr.COMMA); [|discriminate].
      pose proof (suffix_length (skip_ws_suffix s2)) as H3.
      apply IH2. lia.
    + discriminate.
    + exfalso. apply (IH1 s); [lia|exact Es].
  - intros s acc Hf. cbn [object_items].
    destruct (scanstring s) as [[key s1]|] eqn:Ek; [|discriminate].
    pose proof (shorter_length (proj1 (scanstring_ok _ Ek))) as H1.
    destruct (skip_ws s1) as [|c s2] eqn:Ew; [discriminate|].
    pose proof (shorter_length (skip_ws_cons _ Ew)) as H2.
    destruct (c =? Chr.COLON); [|discriminate].
    pose proof (suffix_length (skip_ws_suffix s2)) as H3.
    destruct (scan_once f (skip_ws s2)) as [[v1 s3]| |] eqn:Es.
    + pose proof (shorter_length (proj1 (proj1 (scan_wf f) _ _ _ Es))) as H4.
      destruct (skip_ws s3) as [|c1 s4] eqn:Ew3; [discriminate|].
      pose proof (shorter_length (skip_ws_cons _ Ew3)) as H5.
      destruct (c1 =? Chr.RBRACE); [discriminate|].
      destruct (c1 =? Chr.COMMA); [|discriminate].
      destruct (skip_ws s4) as [|c2 s5] eqn:Ew4; [discriminate|].
      pose proof (shorter_length (skip_ws_cons _ Ew4)) as H6.
      destruct (c2 =? Chr.QUOTE); [|discriminate].
      apply IH3. lia.
    + discriminate.
    + exfalso. apply (IH1 (skip_ws s2)); [lia|exact Es].
Qed.

(** [json_loads] always ends: it returns a value or fails. *)
Lemma json_loads_total (s : pystr) : json_loads s <> OutOfFuel.
Proof.
  unfold json_loads. destruct s as [|c s]; [discriminate|].
  destruct (c =? Chr.BOM); [discriminate|].
  pose proof (suffix_length (skip_ws_suffix (c :: s))) as Hl.
  destruct (scan_once _ (skip_ws (c :: s))) as [[v rest]| |] eqn:Es.
  - destruct (skip_ws rest); discriminate.
  - discriminate.
  - exfalso. revert Es. apply (proj1 (scan_fuel _)). lia.
Qed.

End Decoded.

(** ** Saving to a [.json] file and loading it again *)

(** ** The text of the encoder *)

(** A printable ASCII character or a line feed. *)
Definition printable (c : N) : bool :=
  ((32 <=? c) && (c <=? 126)) || (c =? Chr.LF).

Lemma printable_range (c : N) : 32 <= c <= 126 -> printable c = true.
Proof.
  intros H. unfold printable. apply orb_true_iff. left.
  apply andb_true_iff. split; apply N.leb_le; lia.
Qed.

Lemma hex_digit_printable (n : N) : n < 16 -> printable (hex_digit n) = true.
Proof.
  intros H. apply printable_range. unfold hex_digit, Chr.ZERO.
  destruct (N.ltb_spec n 10); lia.
Qed.

Lemma escape_u_printable (n : N) :
  Forall (fun c => printable c = true) (escape_u n).
Proof.
  unfold escape_u, hex4.
  repeat (constructor; [first [reflexivity
                              |apply hex_digit_printable, N.mod_lt; discriminate]|]).
  constructor.
Qed.

Lemma escape_char_printable (c : N) :
  Forall (fun c => printable c = true) (escape_char c).
Proof.
  unfold escape_char.
  repeat match goal with
         | |- context [if ?b then _ else _] => destruct b eqn:?
         end;
    try (repeat (constructor; [reflexivity|]); apply Forall_nil).
  - constructor; [|constructor]. unfold printable.
    match goal with H : _ && _ = true |- _ => now rewrite H end.
  - apply escape_u_printable.
  - apply Forall_app. split; apply escape_u_printable.
Qed.

Lemma encode_basestring_ascii_printable (s : pystr) :
  Forall (fun c => printable c = true) (encode_basestring_ascii s).
Proof.
  unfold encode_basestring_ascii. constructor; [reflexivity|].
  apply Forall_app. split; [|constructor; [reflexivity|constructor]].
  induction s as [|c s IH]; [constructor|]. cbn [flat_map].
  apply Forall_app. split; [apply escape_char_printable|exact IH].
Qed.

Lemma digit_printable (c : N) : is_digit c = true -> printable c = true.
Proof. intros H. apply is_digit_range in H. apply printable_range. lia. Qed.

Lemma str_int_printable (z : Z) :
  Forall (fun c => printable c = true) (str_int z).
Proof.
  assert (H : Forall (fun c => printable c = true) (str_N (Z.abs_N z))).
  { destruct (str_N_spec (Z.abs_N z)) as [Hd _].
    eapply Forall_impl; [|exact Hd]. apply digit_printable. }
  unfold str_int. destruct (z <? 0)%Z; [constructor; [reflexivity|]|];
    exact H.
Qed.

Lemma newline_indent_printable (indent level : nat) :
  Forall (fun c => printable c = true) (newline_indent indent level).
Proof.
  unfold newline_indent. constructor; [reflexivity|].
  induction (indent * level)%nat; constructor; [reflexivity|assumption].
Qed.

Lemma join_printable (sep : pystr) (parts : list pystr) :
  Forall (fun c => printable c = true) sep ->
  Forall (Forall (fun c => printable c = true)) parts ->
  Forall (fun c => printable c = true) (join sep parts).
Proof.
  intros Hs Hp. induction Hp as [|x l Hx Hl IH]; [constructor|].
  destruct l as [|y l]; [exact Hx|]. rewrite join_cons.
  apply Forall_app. split; [exact Hx|]. apply Forall_app. split; assumption.
Qed.

Section EncoderText.
Context {RT : PyRuntime}.

Lemma iterencode_printable (indent : nat) (v : pyval) :
  (forall x, forallb printable (float_repr x) = true) ->
  forall level, Forall (fun c => printable c = true) (iterencode indent v level).
Proof.
  intros Hf. induction v as [|b|z|f|s|items IH|d IH] using pyval_ind;
    intros level.
  - repeat constructor.
  - destruct b; repeat constructor.
  - apply str_int_printable.
  - destruct f as [|[|]|x]; try (repeat constructor; fail).
    cbn [iterencode floatstr]. apply Forall_forall. intros c Hc.
    specialize (Hf x). rewrite forallb_forall in Hf. now apply Hf.
  - apply encode_basestring_ascii_printable.
  - destruct items as [|x items]; [repeat constructor|].
    cbn [iterencode]. apply Forall_app. split; [repeat constructor|].
    apply Forall_app. split; [apply newline_indent_printable|].
    apply Forall_app. split.
    + apply join_printable;
        [constructor; [reflexivity|apply newline_indent_printable]|].
      apply Forall_forall. intros t Ht. apply in_map_iff in Ht.
      destruct Ht as (y & <- & Hy). rewrite Forall_forall in IH.
      now apply IH.
    + apply Forall_app. split; [apply newline_indent_printable|].
      repeat constructor.
  - destruct d as [|kv d]; [repeat constructor|].
    cbn [iterencode]. apply Forall_app. split; [repeat constructor|].
    apply Forall_app. split; [apply newline_indent_printable|].
    apply Forall_app. split.
    + apply join_printable;
        [constructor; [reflexivity|apply newline_indent_printable]|].
      apply Forall_forall. intros t Ht. apply in_map_iff in Ht.
      destruct Ht as (y & <- & Hy). rewrite Forall_forall in IH.
      apply Forall_app. split; [apply encode_basestring_ascii_printable|].
      apply Forall_app. split; [repeat constructor|]. now apply IH.
    + apply Forall_app. split; [apply newline_indent_printable|].
      repeat constructor.
Qed.








End EncoderText.

Lemma dict_get_set (V : Type) (d : pydict V) (k : pystr) (v : V) :
  dict_get (dict_set d k v) k = Some v.
Proof.
  induction d as [|[k0 v0] d IH]; cbn [dict_set dict_get].
  - now rewrite str_eqb_refl.
  - destruct (str_eqb k0 k) eqn:E; cbn [dict_get]; rewrite E;
      [reflexivity|exact IH].
Qed.

Lemma dict_set_set (V : Type) (d : pydict V) (k : pystr) (v v' : V) :
  dict_set (dict_set d k v) k v' = dict_set d k v'.
Proof.
  induction d as [|[k0 v0] d IH]; cbn [dict_set].
  - now rewrite str_eqb_refl.
  - destruct (str_eqb k0 k) eqn:E; cbn [dict_set]; rewrite E;
      [reflexivity|now rewrite IH].
Qed.

Section JsonFile.
Context {RT : PyRuntime}.
Variable W : World.





End JsonFile.

(** ** Reading back a written CSV file *)

Module CsvFacts.
Import Csv.

(** The characters of a part of a line. *)
Fixpoint feed_chars (r : reader) (cs : pystr) : option reader :=
  match cs with
  | [] => Some r
  | c :: cs' =>
      match parse_process_char r (Some c) with
      | Some r' => feed_chars r' cs'
      | None => None
      end
  end.

(** The reader seen one character at a time: after a line feed, after a
    carriage return and line feed, and after a carriage return alone the line
    ends and the end of line marker is processed.  [pending] tells whether
    the current line has characters. *)
Definition end_of_line (next : reader -> list (list pystr) -> option (list (list pystr)))
  (r : reader) (rows : list (list pystr)) : option (list (list pystr)) :=
  match parse_process_char r None with
  | None => None
  | Some r' =>
      match state r' with
      | START_RECORD => next parse_reset (rows ++ [fields r'])
      | _ => next r' rows
      end
  end.

Fixpoint machine (text : pystr) (r : reader) (pending : bool)
  (rows : list (list pystr)) : option (list (list pystr)) :=
  match text with
  | [] =>
      if pending then end_of_line (read_lines []) r rows
      else read_lines [] r rows
  | c :: text' =>
      match parse_process_char r (Some c) with
      | None => None
      | Some r1 =>
          if c =? Chr.LF then
            end_of_line (fun r' rows' => machine text' r' false rows') r1 rows
          else if c =? Chr.CR then
            match text' with
            | c' :: text'' =>
                if c' =? Chr.LF then
                  match parse_process_char r1 (Some c') with
                  | None => None
                  | Some r2 =>
                      end_of_line
                        (fun r' rows' => machine text'' r' false rows') r2 rows
                  end
                else
                  end_of_line
                    (fun r' rows' => machine text' r' false rows') r1 rows
            | [] =>
                end_of_line
                  (fun r' rows' => machine text' r' false rows') r1 rows
            end
          else machine text' r1 true rows
      end
  end.

Lemma feed_line_app (r : reader) (a b : pystr) :
  feed_line r (a ++ b)
  = match feed_chars r a with
    | Some r' => feed_line r' b
    | None => None
    end.
Proof.
  revert r. induction a as [|c a IH]; intros r; [reflexivity|].
  cbn [app feed_line feed_chars].
  destruct (parse_process_char r (Some c)); [apply IH|reflexivity].
Qed.

Lemma feed_chars_app (r : reader) (a b : pystr) :
  feed_chars r (a ++ b)
  = match feed_chars r a with
    | Some r' => feed_chars r' b
    | None => None
    end.
Proof.
  revert r. induction a as [|c a IH]; intros r; [reflexivity|].
  cbn [app feed_chars].
  destruct (parse_process_char r (Some c)); [apply IH|reflexivity].
Qed.

Lemma split_lines_head (text cur : pystr) :
  cur <> [] \/ text <> [] ->
  exists x rest, split_lines text cur = (cur ++ x) :: rest.
Proof.
  revert cur. induction text as [|c text IH]; intros cur H.
  - destruct H as [H|H]; [|contradiction]. destruct cur; [contradiction|].
    exists [], []. cbn [split_lines]. now rewrite app_nil_r.
  - cbn [split_lines]. destruct (c =? Chr.LF); [eauto|].
    destruct (c =? Chr.CR).
    + destruct text as [|c' text]; [eauto|].
      destruct (c' =? Chr.LF); eauto.
    + destruct (IH (cur ++ [c])) as (x & rest & E).
      { left. destruct cur; discriminate. }
      rewrite E. exists (c :: x), rest. now rewrite <- app_assoc.
Qed.

Lemma read_lines_error (text cur : pystr) (r0 : reader)
  (rows : list (list pystr)) :
  cur <> [] -> feed_chars r0 cur = None ->
  read_lines (split_lines text cur) r0 rows = None.
Proof.
  intros Hn Hf. destruct (@split_lines_head text cur (or_introl Hn)) as (x & rest & E).
  rewrite E. cbn [read_lines]. now rewrite feed_line_app, Hf.
Qed.

Definition nonempty (cur : pystr) : bool :=
  match cur with [] => false | _ :: _ => true end.

Lemma read_lines_line (line : pystr) (lines : list pystr) (r0 rc : reader)
  (rows : list (list pystr)) (cur tail : pystr) :
  line = cur ++ tail -> feed_chars r0 cur = Some rc ->
  read_lines (line :: lines) r0 rows
  = match feed_chars rc tail with
    | None => None
    | Some r1 => end_of_line (read_lines lines) r1 rows
    end.
Proof.
  intros -> Hf. cbn [read_lines]. rewrite feed_line_app, Hf.
  assert (H : forall r t, feed_line r t
            = match feed_chars r t with
              | Some r1 => parse_process_char r1 None
              | None => None
              end).
  { intros r t. revert r. induction t as [|c t IH]; intros r; [reflexivity|].
    cbn [feed_line feed_chars].
    destruct (parse_process_char r (Some c)); [apply IH|reflexivity]. }
  rewrite H. destruct (feed_chars rc tail) as [r1|]; [|reflexivity].
  unfold end_of_line. destruct (parse_process_char r1 None) as [r'|];
    [|reflexivity].
  destruct (state r'); reflexivity.
Qed.

(** Reading the lines of a text is reading its characters. *)
Lemma read_lines_machine (n : nat) :
  forall text cur r0 rc rows,
    (List.length text <= n)%nat ->
    feed_chars r0 cur = Some rc ->
    read_lines (split_lines text cur) r0 rows
    = machine text rc (nonempty cur) rows.
Proof.
  induction n as [|n IH]; intros text cur r0 rc rows Hlen Hf.
  - destruct text; [|cbn [List.length] in Hlen; lia].
    cbn [split_lines machine]. destruct cur as [|c cur].
    + cbn [feed_chars] in Hf. injection Hf as ->. reflexivity.
    + cbn [nonempty].
      rewrite (@read_lines_line _ [] r0 rc rows (c :: cur) []
                 (eq_sym (app_nil_r _)) Hf).
      reflexivity.
  - destruct text as [|c text].
    { apply (IH [] cur r0 rc rows); [cbn; lia|exact Hf]. }
    cbn [List.length] in Hlen. cbn [split_lines machine].
    destruct (c =? Chr.LF) eqn:Elf.
    { rewrite (@read_lines_line _ _ r0 rc rows cur [c] eq_refl Hf).
      cbn [feed_chars].
      destruct (parse_process_char rc (Some c)) as [r1|]; [|reflexivity].
      unfold end_of_line. destruct (parse_process_char r1 None) as [r'|];
        [|reflexivity].
      destruct (state r');
        (rewrite (IH text [] _ _ _ ltac:(lia) eq_refl); reflexivity). }
    destruct (c =? Chr.CR) eqn:Ecr.
    { destruct text as [|c' text].
      - rewrite (@read_lines_line _ _ r0 rc rows cur [c] eq_refl Hf).
        cbn [feed_chars].
        destruct (parse_process_char rc (Some c)) as [r1|]; reflexivity.
      - destruct (c' =? Chr.LF) eqn:Elf'.
        + rewrite (@read_lines_line _ _ r0 rc rows cur [c; c'] eq_refl Hf).
          cbn [feed_chars].
          destruct (parse_process_char rc (Some c)) as [r1|]; [|reflexivity].
          destruct (parse_process_char r1 (Some c')) as [r2|]; [|reflexivity].
          unfold end_of_line. destruct (parse_process_char r2 None) as [r'|];
            [|reflexivity].
          cbn [List.length] in Hlen.
          destruct (state r');
            (rewrite (IH text [] _ _ _ ltac:(lia) eq_refl); reflexivity).
        + rewrite (@read_lines_line _ _ r0 rc rows cur [c] eq_refl Hf).
          cbn [feed_chars].
          destruct (parse_process_char rc (Some c)) as [r1|]; [|reflexivity].
          unfold end_of_line. destruct (parse_process_char r1 None) as [r'|];
            [|reflexivity].
          destruct (state r');
            (rewrite (IH (c' :: text) [] _ _ _ ltac:(cbn [List.length] in *; lia) eq_refl);
             reflexivity). }
    destruct (parse_process_char rc (Some c)) as [r1|] eqn:Ep.
    + rewrite (IH text (cur ++ [c]) r0 r1 rows ltac:(lia)).
      * destruct cur; reflexivity.
      * rewrite feed_chars_app, Hf. cbn [feed_chars]. now rewrite Ep.
    + apply read_lines_error; [destruct cur; discriminate|].
      rewrite feed_chars_app, Hf. cbn [feed_chars]. now rewrite Ep.
Qed.

Lemma read_text_machine (text : pystr) :
  read_text text = machine text parse_reset false [].
Proof.
  unfold read_text.
  apply (@read_lines_machine (List.length text) text [] parse_reset parse_reset []
           (le_n _) eq_refl).
Qed.


Definition mk (st : parser_state) (f : pystr) (fs : list pystr) : reader :=
  {| state := st; field := f; fields := fs |}.

Lemma machine_plain (c : N) (t : pystr) (r : reader) (p : bool)
  (rows : list (list pystr)) :
  is_newline c = false ->
  machine (c :: t) r p rows
  = match parse_process_char r (Some c) with
    | None => None
    | Some r1 => machine t r1 true rows
    end.
Proof.
  unfold is_newline. intros H. apply orb_false_iff in H. destruct H as [H1 H2].
  cbn [machine]. rewrite H1, H2. reflexivity.
Qed.

Lemma end_of_line_quoted (next : reader -> list (list pystr) -> option (list (list pystr)))
  (f : pystr) (fs : list pystr) (rows : list (list pystr)) :
  end_of_line next (mk IN_QUOTED_FIELD f fs) rows
  = next (mk IN_QUOTED_FIELD f fs) rows.
Proof. reflexivity. Qed.

Lemma double_quote_head (x : N) (l t : pystr) :
  x <> Chr.LF ->
  exists c s, flat_map double_quote (x :: l) ++ t = c :: s /\ (c =? Chr.LF) = false.
Proof.
  intros Hx. cbn [flat_map]. unfold double_quote.
  destruct (N.eqb_spec x Chr.QUOTE) as [->|_].
  - do 2 eexists. split; [reflexivity|reflexivity].
  - do 2 eexists. split; [reflexivity|]. now apply N.eqb_neq.
Qed.

(** The content of a quoted field, up to its closing quote. *)
Lemma machine_quoted (n : nat) :
  forall content t f fs p rows,
    (List.length content <= n)%nat ->
    exists p',
      machine (flat_map double_quote content ++ Chr.QUOTE :: t)
              (mk IN_QUOTED_FIELD f fs) p rows
      = machine (Chr.QUOTE :: t) (mk IN_QUOTED_FIELD (f ++ content) fs) p' rows.
Proof.
  induction n as [|n IH]; intros content t f fs p rows Hlen.
  - destruct content; [|cbn [List.length] in Hlen; lia].
    exists p. cbn [flat_map app]. now rewrite app_nil_r.
  - destruct content as [|c content].
    { exists p. cbn [flat_map app]. now rewrite app_nil_r. }
    cbn [List.length] in Hlen.
    assert (Hnext : forall q, exists p',
              machine (flat_map double_quote content ++ Chr.QUOTE :: t)
                      (mk IN_QUOTED_FIELD (f ++ [c]) fs) q rows
              = machine (Chr.QUOTE :: t)
                        (mk IN_QUOTED_FIELD (f ++ c :: content) fs) p' rows).
    { intros q. destruct (IH content t (f ++ [c]) fs q rows ltac:(lia)) as (p' & E).
      exists p'. rewrite E, <- app_assoc. reflexivity. }
    cbn [flat_map]. rewrite <- app_assoc. unfold double_quote at 1.
    destruct (N.eqb_spec c Chr.QUOTE) as [->|Hq].
    { cbn [app]. rewrite machine_plain by reflexivity.
      cbn [parse_process_char state mk]. change (Chr.QUOTE =? Chr.QUOTE) with true.
      cbv iota. rewrite machine_plain by reflexivity.
      cbn [parse_process_char state set_state]. change (Chr.QUOTE =? Chr.QUOTE) with true.
      cbv iota. apply Hnext. }
    assert (Hp : parse_process_char (mk IN_QUOTED_FIELD f fs) (Some c)
                 = Some (mk IN_QUOTED_FIELD (f ++ [c]) fs)).
    { cbn [parse_process_char state mk]. apply N.eqb_neq in Hq. now rewrite Hq. }
    cbn [app machine]. rewrite Hp.
    destruct (c =? Chr.LF) eqn:Elf.
    { rewrite end_of_line_quoted. apply Hnext. }
    destruct (c =? Chr.CR) eqn:Ecr; [|apply Hnext].
    destruct content as [|x content].
    { cbn [flat_map app]. change (Chr.QUOTE =? Chr.LF) with false. cbv iota.
      rewrite end_of_line_quoted. apply (Hnext false). }
    destruct (N.eqb_spec x Chr.LF) as [->|Hx].
    + cbn [flat_map app]. unfold double_quote at 1.
      change (Chr.LF =? Chr.QUOTE) with false. cbv iota. cbn [app].
      change (Chr.LF =? Chr.LF) with true. cbv iota.
      cbn [parse_process_char state mk]. change (Chr.LF =? Chr.QUOTE) with false.
      cbv iota. unfold parse_add_char. cbn [field fields mk].
      rewrite end_of_line_quoted.
      cbn [List.length] in Hlen.
      destruct (IH content t ((f ++ [c]) ++ [Chr.LF]) fs false rows ltac:(lia))
        as (p' & E).
      exists p'. unfold mk in *. rewrite E, <- !app_assoc. reflexivity.
    + destruct (double_quote_head content (Chr.QUOTE :: t) Hx) as (y & s & E & Hy).
      rewrite E, Hy. rewrite end_of_line_quoted. rewrite <- E. apply (Hnext false).
Qed.

(** The characters of an unquoted field. *)
Lemma machine_unquoted (content t f : pystr) (fs : list pystr) (p : bool)
  (rows : list (list pystr)) :
  existsb special content = false ->
  machine (content ++ t) (mk IN_FIELD f fs) p rows
  = machine t (mk IN_FIELD (f ++ content) fs)
            (match content with [] => p | _ :: _ => true end) rows.
Proof.
  revert f p. induction content as [|c content IH]; intros f p H.
  - cbn [app]. now rewrite app_nil_r.
  - cbn [existsb] in H. apply orb_false_iff in H. destruct H as [Hc H].
    unfold special in Hc. repeat (apply orb_false_iff in Hc; destruct Hc as [Hc ?]).
    cbn [app]. rewrite machine_plain by (unfold is_newline; now rewrite H0, H1).
    cbn [parse_process_char state mk]. unfold is_newline. rewrite H0, H1, Hc.
    cbn [orb]. unfold parse_add_char. cbn [field fields mk].
    fold (mk IN_FIELD (f ++ [c]) fs). rewrite IH by exact H.
    rewrite <- app_assoc. destruct content; reflexivity.
Qed.

(** A reader that has read the text of the field [f] after the fields [done]
    of the record. *)
Definition field_read (r : reader) (done : list pystr) (f : pystr)
  (at_start : bool) : Prop :=
  parse_process_char r (Some Chr.COMMA) = Some (mk START_FIELD [] (done ++ [f]))
  /\ (at_start = false \/ f <> [] ->
      parse_process_char r (Some Chr.CR) = Some (mk EAT_CRNL [] (done ++ [f]))).

(** The text of one field, read from the start of a field; [at_start] tells
    whether the field is the first of its record. *)
Lemma machine_field (f t : pystr) (done : list pystr) (at_start : bool)
  (p : bool) (rows : list (list pystr)) :
  exists r' p',
    machine (write_field f ++ t)
            (mk (if at_start then START_RECORD else START_FIELD) [] done) p rows
    = machine t r' p' rows
    /\ field_read r' done f at_start.
Proof.
  unfold write_field, needs_quotes. destruct (existsb special f) eqn:Es.
  - cbn [app].
    assert (E : forall q, machine (Chr.QUOTE :: flat_map double_quote f ++ [Chr.QUOTE] ++ t)
                  (mk (if at_start then START_RECORD else START_FIELD) [] done) q rows
                = machine (flat_map double_quote f ++ Chr.QUOTE :: t)
                    (mk IN_QUOTED_FIELD [] done) true rows).
    { intros q. rewrite machine_plain by reflexivity. destruct at_start; reflexivity. }
    rewrite <- app_assoc. rewrite E.
    destruct (@machine_quoted (List.length f) f t [] done true rows (le_n _))
      as (p' & E').
    rewrite E', machine_plain by reflexivity.
    cbn [parse_process_char state mk]. change (Chr.QUOTE =? Chr.QUOTE) with true.
    cbv iota. do 2 eexists. split; [reflexivity|].
    split; [reflexivity|]. intros _. reflexivity.
  - destruct f as [|c f].
    + cbn [app]. do 2 eexists. split; [reflexivity|]. split.
      * destruct at_start; reflexivity.
      * intros [->|H]; [reflexivity|contradiction].
    + pose proof Es as Es'. cbn [existsb] in Es. apply orb_false_iff in Es.
      destruct Es as [Hc Hf]. unfold special in Hc.
      repeat (apply orb_false_iff in Hc; destruct Hc as [Hc ?]).
      cbn [app]. rewrite machine_plain by (unfold is_newline; now rewrite H, H0).
      assert (Ep : parse_process_char
                     (mk (if at_start then START_RECORD else START_FIELD) [] done)
                     (Some c) = Some (mk IN_FIELD [c] done)).
      { destruct at_start; cbn [parse_process_char state mk start_field];
          unfold is_newline; rewrite H, H0, H1, Hc; reflexivity. }
      rewrite Ep, machine_unquoted by exact Hf.
      do 2 eexists. split; [reflexivity|]. split; [reflexivity|].
      intros _. reflexivity.
Qed.

Lemma machine_crlf (t : pystr) (r r1 : reader) (p : bool)
  (rows : list (list pystr)) :
  parse_process_char r (Some Chr.CR) = Some r1 -> state r1 = EAT_CRNL ->
  machine (Chr.CR :: Chr.LF :: t) r p rows
  = machine t parse_reset false (rows ++ [fields r1]).
Proof.
  intros H Hs. cbn [machine]. rewrite H.
  change (Chr.CR =? Chr.LF) with false. change (Chr.CR =? Chr.CR) with true.
  change (Chr.LF =? Chr.LF) with true. cbv iota.
  unfold parse_process_char at 1. rewrite Hs.
  change (is_newline Chr.LF) with true. cbv iota.
  unfold end_of_line, parse_process_char. rewrite Hs. reflexivity.
Qed.

(** The fields of a record after the fields [done], up to the end of the
    record. *)
Lemma machine_fields (fs : list pystr) :
  forall t done at_start p rows,
    fs <> [] -> (at_start = false \/ fs <> [[]]) ->
    machine (join [Chr.COMMA] (map write_field fs) ++ Chr.CR :: Chr.LF :: t)
            (mk (if at_start then START_RECORD else START_FIELD) [] done) p rows
    = machine t parse_reset false (rows ++ [done ++ fs]).
Proof.
  induction fs as [|f fs IH]; intros t done at_start p rows Hne Hs;
    [contradiction|].
  destruct fs as [|g fs].
  - cbn [map join].
    destruct (machine_field f (Chr.CR :: Chr.LF :: t) done at_start p rows)
      as (r' & p' & E & _ & Hcr).
    rewrite E.
    rewrite (@machine_crlf t r' (mk EAT_CRNL [] (done ++ [f])) p' rows);
      [reflexivity| |reflexivity].
    apply Hcr. destruct Hs as [Hs|Hs]; [now left|right].
    intros ->. now apply Hs.
  - change (map write_field (f :: g :: fs))
      with (write_field f :: write_field g :: map write_field fs).
    rewrite join_cons, <- !app_assoc. cbn [app].
    destruct (machine_field f
                (Chr.COMMA :: join [Chr.COMMA] (write_field g :: map write_field fs)
                 ++ Chr.CR :: Chr.LF :: t) done at_start p rows)
      as (r' & p' & E & Hcomma & _).
    rewrite E, machine_plain by reflexivity. rewrite Hcomma.
    change (write_field g :: map write_field fs) with (map write_field (g :: fs)).
    rewrite (IH t (done ++ [f]) false true rows ltac:(discriminate) (or_introl eq_refl)).
    rewrite <- app_assoc. reflexivity.
Qed.

(** One written record is read as one row. *)
Lemma machine_row (fs : list pystr) (t : pystr) (rows : list (list pystr)) :
  machine (writerow fs ++ t) parse_reset false rows
  = machine t parse_reset false (rows ++ [fs]).
Proof.
  assert (Hgen : fs <> [] -> fs <> [[]] ->
            machine ((join [Chr.COMMA] (map write_field fs) ++ [Chr.CR; Chr.LF]) ++ t)
                    parse_reset false rows
            = machine t parse_reset false (rows ++ [fs])).
  { intros H1 H2. rewrite <- app_assoc.
    apply (@machine_fields fs t [] true false rows H1 (or_intror H2)). }
  destruct fs as [|[|c f] [|g fs]]; try (apply Hgen; discriminate);
    reflexivity.
Qed.

(** Reading a written file gives the rows that were written. *)
Theorem read_written (rows : list (list pystr)) :
  read_text (List.concat (map writerow rows)) = Some rows.
Proof.
  rewrite read_text_machine.
  assert (H : forall acc, machine (List.concat (map writerow rows)) parse_reset false acc
                          = Some (acc ++ rows)).
  { induction rows as [|fs rows IH]; intros acc.
    - cbn. now rewrite app_nil_r.
    - cbn [map List.concat]. rewrite machine_row, IH, <- app_assoc. reflexivity. }
  apply (H []).
Qed.
End CsvFacts.

(** ** Saving to a [.csv] file and reading it again *)

Lemma str_eqb_sym (a b : pystr) : str_eqb a b = str_eqb b a.
Proof.
  destruct (str_eqb a b) eqn:E.
  - apply str_eqb_eq in E. subst. now rewrite str_eqb_refl.
  - destruct (str_eqb b a) eqn:E'; [|reflexivity].
    apply str_eqb_eq in E'. subst. now rewrite str_eqb_refl in E.
Qed.

Lemma mem_head (k : pystr) (l : list pystr) : mem k (k :: l) = true.
Proof. unfold mem. cbn [existsb]. now rewrite str_eqb_refl. Qed.

Lemma mem_cons (k x : pystr) (l : list pystr) :
  mem k l = true -> mem k (x :: l) = true.
Proof. unfold mem. cbn [existsb]. intros ->. apply orb_true_r. Qed.

Lemma forallb_mem_self (l : list pystr) :
  forallb (fun k => mem k l) l = true.
Proof.
  assert (H : forall pre, forallb (fun k => mem k (pre ++ l)) l = true).
  { induction l as [|x l IH]; intros pre; [reflexivity|].
    cbn [forallb]. apply andb_true_iff. split.
    - induction pre as [|y pre IHp]; [apply mem_head|]. now apply mem_cons.
    - specialize (IH (pre ++ [x])). now rewrite <- app_assoc in IH. }
  apply (H []).
Qed.

Section CsvFile.
Context {RT : PyRuntime}.
Variable W : World.

(** The text of the fields of a record, in the order of the field names. *)
Definition record_row (fieldnames : list pystr) (rec : pyval) : list pystr :=
  match rec with
  | PyDict d =>
      map (fun k => csv_text (match dict_get d k with
                              | Some v => v
                              | None => PyStr []
                              end)) fieldnames
  | _ => []
  end.




Lemma dict_set_same (V : Type) (d : pydict V) (k : pystr) (v : V) :
  dict_get d k = Some v -> dict_set d k v = d.
Proof.
  induction d as [|[k0 v0] d IH]; [discriminate|].
  cbn [dict_get dict_set]. destruct (str_eqb k0 k).
  - now intros [= ->].
  - intros H. f_equal. now apply IH.
Qed.

Lemma write_append (p text old : pystr) (o e : list pystr) (s : list request)
  (f : list (pystr * pystr)) :
  forallb (writable W) text = true ->
  dict_get f p = Some old ->
  write W p text {| stdout := o; stderr := e; sent := s; files := f |}
  = (inl tt, {| stdout := o; stderr := e; sent := s;
                files := dict_set f p (old ++ text) |}).
Proof.
  intros Hw H. unfold write, bind, get_files, set_files. rewrite Hw.
  cbn [files]. now rewrite H.
Qed.

(** A text that cannot be encoded is not written. *)
Lemma write_refused (p text : pystr) (st : State) :
  forallb (writable W) text = false ->
  write W p text st = (inr (Raised UnicodeEncodeError (encode_error_text text)), st).
Proof. intros Hw. unfold write. now rewrite Hw. Qed.


Lemma header_row (fieldnames : list pystr) :
  record_row fieldnames (PyDict (map (fun k => (k, PyStr k)) fieldnames))
  = fieldnames.
Proof.
  cbn [record_row].
  assert (H : forall l k, mem k l = true ->
            csv_text (match dict_get (map (fun k => (k, PyStr k)) l) k with
                      | Some v => v
                      | None => PyStr []
                      end) = k).
  { induction l as [|x l IH]; intros k Hk; [discriminate|].
    cbn [map dict_get]. unfold mem in Hk. cbn [existsb] in Hk.
    rewrite str_eqb_sym in Hk. destruct (str_eqb x k) eqn:E.
    - apply str_eqb_eq in E. now subst.
    - apply IH. exact Hk. }
  assert (G : forall l, forallb (fun k => mem k fieldnames) l = true ->
            map (fun k => csv_text
                   (match dict_get (map (fun k => (k, PyStr k)) fieldnames) k with
                    | Some v => v
                    | None => PyStr []
                    end)) l = l).
  { induction l as [|k l IH]; intros Hall; [reflexivity|].
    cbn [forallb] in Hall. apply andb_true_iff in Hall.
    destruct Hall as [Hk Hl].
    cbn [map]. rewrite (H _ _ Hk). f_equal. now apply IH. }
  apply G, forallb_mem_self.
Qed.




End CsvFile.



Module SampleCsv.



End SampleCsv.



(** ** The JSON round trip at a sample run *)

Module SampleJson.

(** An object whose key [a] holds the list of 1, 0.0 and null. *)
Definition body : pystr :=
  Chr.LBRACE :: Chr.QUOTE :: py "a" ++ Chr.QUOTE :: py ": [1, 0.0, null]}".

Definition value : pyval (RT := Sample.runtime) :=
  PyDict [(py "a",
           PyList [PyInt 1; PyFloat (RT := Sample.runtime) (FFin tt); PyNone])].

Lemma runtime_float_laws : float_laws (RT := Sample.runtime).
Proof.
  intros []. split; [reflexivity|].
  exists (py "0"), (py ".0"), []. split; [reflexivity|].
  left. discriminate.
Qed.

End SampleJson.


(** * Further properties of the script *)

(** ** The paths of a run *)

Module Offline.

(** A network that fails every request with the given message; every file
    can be opened. *)
Definition network (msg : pystr) : World (RT := Sample.runtime) :=
  {| serve := fun _ => TransportFailure msg;
     open_error := fun _ => None;
     encodes := fun _ => true |}.

(** A server as [Sample.server], on a machine where no file can be opened. *)
Definition read_only (code : Z) (body msg : pystr) : World (RT := Sample.runtime) :=
  {| serve := fun _ => Answer {| status_code := code; text := body |};
     open_error := fun _ => Some msg;
     encodes := fun _ => true |}.

End Offline.

Section Paths.
Context {RT : PyRuntime}.
Variable W : World.

Lemma run_main (cl : CommandLine) (fs : list (pystr * pystr)) :
  run W cl fs = finish (main W cl (start [] fs)).
Proof.
  unfold run, start, finish.
  destruct (main W cl _) as [r st]. reflexivity.
Qed.

(** A command line that sends a request which the network fails. *)
Lemma main_transport_failure (cl : CommandLine) (rq : request) (msg : pystr)
  (fs : list (pystr * pystr)) :
  issues cl rq -> serve W rq = TransportFailure msg ->
  main W cl (start [] fs)
  = (inr (SystemExit 1), add_out (start [rq] fs) [py "Network error: " ++ msg]).
Proof.
  intros Hi Hs. destruct Hi as [e d o | e d o v Ht Hl].
  - unfold main, send_request, try_except, bind, requests_get, perform.
    cbn -[BASE_URL]. rewrite Hs. reflexivity.
  - destruct d as [|c d]; [discriminate|].
    unfold main, send_request, try_except, bind, requests_post, perform, loads.
    cbn -[json_loads BASE_URL]. rewrite Hl.
    cbn -[json_loads BASE_URL]. rewrite Hs. reflexivity.
Qed.

Lemma main_issues (cl : CommandLine) (rq : request) (r : response)
  (fs : list (pystr * pystr)) :
  issues cl rq -> serve W rq = Answer r ->
  main W cl (start [] fs)
  = try_except (handle_response W (client_of cl) r) top_handlers (start [rq] fs).
Proof.
  intros Hi Hs. destruct Hi as [e d o | e d o v Ht Hl].
  - unfold main, send_request, try_except, bind, requests_get, perform.
    cbn -[handle_response BASE_URL]. rewrite Hs.
    cbn -[handle_response BASE_URL]. unfold client_of, start.
    cbn -[handle_response BASE_URL]. reflexivity.
  - destruct d as [|c d]; [discriminate|].
    unfold main, send_request, try_except, bind, requests_post, perform, loads.
    cbn -[handle_response json_loads BASE_URL]. rewrite Hl.
    cbn -[handle_response json_loads BASE_URL]. rewrite Hs.
    cbn -[handle_response BASE_URL]. unfold client_of, start.
    cbn -[handle_response BASE_URL]. reflexivity.
Qed.

(** The ways a run can go before a response arrives. *)
Inductive before_response (cl : CommandLine) (fs : list (pystr * pystr))
  : (unit + exc) * State -> Prop :=
| rejected (e : usage_error) :
    parse_args cl = inr e ->
    before_response cl fs
      (inr (SystemExit 2),
       {| stdout := []; stderr := usage_text e; sent := []; files := fs |})
| bad_payload (ep : pystr) (msg : pystr) :
    positionals cl = [py "post"; ep] ->
    (forall rq, ~ issues cl rq) ->
    before_response cl fs
      (inr (SystemExit 1), add_out (start [] fs) [py "Invalid input: " ++ msg])
| unreachable (rq : request) (msg : pystr) :
    issues cl rq -> serve W rq = TransportFailure msg ->
    before_response cl fs
      (inr (SystemExit 1),
       add_out (start [rq] fs) [py "Network error: " ++ msg])
| answered (rq : request) (r : response) :
    issues cl rq -> serve W rq = Answer r ->
    before_response cl fs
      (try_except (handle_response W (client_of cl) r) top_handlers
                  (start [rq] fs)).

Lemma issues_post_inv (e : pystr) (d o : option pystr) (rq : request) :
  issues {| positionals := [py "post"; e]; opt_data := d; opt_output := o |} rq ->
  exists t v, d = Some t /\ truthy (Some t) = true /\ json_loads t = Done v.
Proof.
  intros H. inversion H; subst. eauto.
Qed.

Lemma main_before_response (cl : CommandLine) (fs : list (pystr * pystr)) :
  before_response cl fs (main W cl (start [] fs)).
Proof.
  destruct cl as [pos d o]. destruct pos as [|m [|e [|x rest]]].
  - apply (@rejected _ _ MissingArguments). reflexivity.
  - unfold main, parse_args. cbn -[mem].
    destruct (mem m method_choices) eqn:Em.
    + apply (@rejected _ _ MissingArguments).
      unfold parse_args. cbn -[mem]. now rewrite Em.
    + apply (@rejected _ _ (InvalidChoice m)).
      unfold parse_args. cbn -[mem]. now rewrite Em.
  - destruct (str_eqb m (py "get")) eqn:Eg.
    { apply str_eqb_eq in Eg. subst m.
      pose proof (issues_get e d o) as Hi.
      destruct (serve W (GET (BASE_URL ++ e))) as [r|msg] eqn:Es.
      - rewrite (main_issues fs Hi Es). now apply answered.
      - rewrite (main_transport_failure fs Hi Es). now apply unreachable. }
    destruct (str_eqb m (py "post")) eqn:Ep.
    { apply str_eqb_eq in Ep. subst m.
      destruct d as [[|c d]|].
      - match goal with |- before_response _ _ ?x =>
          replace x with
            (@inr unit exc (SystemExit 1),
             add_out (start [] fs)
               [py "Invalid input: "
                ++ py "For POST requests, data is required."])
            by reflexivity
        end.
        apply (@bad_payload _ _ e
                 (py "For POST requests, data is required."));
          [reflexivity|].
        intros rq H. apply issues_post_inv in H.
        destruct H as (t & v & [= <-] & Ht & _). discriminate Ht.
      - destruct (json_loads (c :: d)) as [v| |] eqn:El.
        + assert (Hi : issues {| positionals := [py "post"; e];
                                 opt_data := Some (c :: d); opt_output := o |}
                              (POST (BASE_URL ++ e) v))
            by now constructor.
          destruct (serve W (POST (BASE_URL ++ e) v)) as [r|msg] eqn:Es.
          * refine (eq_ind_r (before_response _ _) _ (main_issues fs Hi Es)).
            now apply answered.
          * refine (eq_ind_r (before_response _ _) _
                      (main_transport_failure fs Hi Es)).
            now apply unreachable.
        + unfold main, send_request, try_except, bind, loads.
          cbn -[BASE_URL json_loads]. rewrite El.
          apply (@bad_payload _ _ e _); [reflexivity|].
          intros rq H. apply issues_post_inv in H.
          destruct H as (t & v & [= <-] & _ & Hl). congruence.
        + unfold main, send_request, try_except, bind, loads.
          cbn -[BASE_URL json_loads]. rewrite El.
          apply (@bad_payload _ _ e _); [reflexivity|].
          intros rq H. apply issues_post_inv in H.
          destruct H as (t & v & [= <-] & _ & Hl). congruence.
      - match goal with |- before_response _ _ ?x =>
          replace x with
            (@inr unit exc (SystemExit 1),
             add_out (start [] fs)
               [py "Invalid input: "
                ++ py "For POST requests, data is required."])
            by reflexivity
        end.
        apply (@bad_payload _ _ e
                 (py "For POST requests, data is required."));
          [reflexivity|].
        intros rq H. apply issues_post_inv in H.
        destruct H as (t & v & [= ] & _). }
    assert (Ha : parse_args {| positionals := [m; e]; opt_data := d;
                               opt_output := o |} = inr (InvalidChoice m)).
    { unfold parse_args, mem, method_choices. cbn -[py str_eqb].
      now rewrite Eg, Ep. }
    unfold main. rewrite Ha. apply (@rejected _ _ (InvalidChoice m)). exact Ha.
  - unfold main, parse_args. cbn -[mem].
    destruct (mem m method_choices) eqn:Em.
    + apply (@rejected _ _ (UnrecognizedArguments (x :: rest))).
      unfold parse_args. cbn -[mem]. now rewrite Em.
    + apply (@rejected _ _ (InvalidChoice m)).
      unfold parse_args. cbn -[mem]. now rewrite Em.
Qed.


(** The ways a run can go once a response arrived. *)
Inductive after_response (self : RestClient) (r : response) (st : State)
  : (unit + exc) * State -> Prop :=
| not_ok :
    ok r = false ->
    after_response self r st
      (inr (SystemExit 1),
       add_out st [status_line r; py "Error: Request was not successful."])
| undecodable :
    ok r = true -> (forall v, json_loads (text r) <> Done v) ->
    after_response self r st
      (inr (SystemExit 1),
       add_out st [status_line r;
                   py "Network error: " ++ json_error_text (text r)])
| printed (v : pyval) :
    ok r = true -> json_loads (text r) = Done v ->
    truthy (output self) = false ->
    after_response self r st
      (inl tt, add_out st [status_line r; json_dumps 4 v])
| saving (v : pyval) :
    ok r = true -> json_loads (text r) = Done v ->
    truthy (output self) = true ->
    after_response self r st
      (save_response W self v (add_out st [status_line r])).

Lemma add_out_app (st : State) (a b : list pystr) :
  add_out (add_out st a) b = add_out st (a ++ b).
Proof. unfold add_out. cbn. now rewrite <- app_assoc. Qed.

Lemma handle_after_response (self : RestClient) (r : response) (st : State) :
  after_response self r st
    (try_except (handle_response W self r) top_handlers st).
Proof.
  unfold try_except. destruct (ok r) eqn:Hok.
  - destruct (json_loads (text r)) as [v| |] eqn:Hl.
    + destruct (truthy (output self)) eqn:Ht.
      * erewrite handle_ok_save; [|exact Hok|exact Ht|exact Hl].
        destruct (save_response_cases W self v (add_out st [status_line r]))
          as [(st' & E & _)|(line & st' & E & _)]; rewrite E;
          rewrite <- E; now apply saving.
      * erewrite handle_ok_print; [|exact Hok|exact Ht|exact Hl]. now apply printed.
    + rewrite handle_ok_undecodable; [|exact Hok|congruence].
      cbn [find top_handlers subclass fst snd]. unfold bind, print, sys_exit.
      cbn [stdout stderr sent files add_out]. rewrite <- app_assoc.
      apply undecodable; [exact Hok|congruence].
    + rewrite handle_ok_undecodable; [|exact Hok|congruence].
      cbn [find top_handlers subclass fst snd]. unfold bind, print, sys_exit.
      cbn [stdout stderr sent files add_out]. rewrite <- app_assoc.
      apply undecodable; [exact Hok|congruence].
  - rewrite handle_not_ok by exact Hok. now apply not_ok.
Qed.

(** X1. A request that the network fails (no connection, no name, a timeout)
    ends the run with the line of the network error and exit status 1; the
    one request was made and no file is touched. *)
Theorem transport_failure_is_reported (cl : CommandLine) (rq : request)
  (msg : pystr) (fs : list (pystr * pystr)) :
  issues cl rq -> serve W rq = TransportFailure msg ->
  run W cl fs = outcome 1 [py "Network error: " ++ msg] [rq] fs.
Proof.
  intros Hi Hs. rewrite run_main, (main_transport_failure fs Hi Hs).
  reflexivity.
Qed.

(** X2. A successful response whose body is not a JSON document ends the run
    after the status line with the decoder's message, reported as a network
    error (the error of [response.json()] is a [RequestException], and that
    handler comes first), and exit status 1.  No file is created or
    truncated, with or without an output destination. *)
Theorem undecodable_body_is_reported (cl : CommandLine) (rq : request)
  (r : response) (fs : list (pystr * pystr)) :
  issues cl rq -> serve W rq = Answer r -> ok r = true ->
  json_loads (text r) = Fail ->
  run W cl fs
  = outcome 1 [status_line r; py "Network error: " ++ json_error_text (text r)]
            [rq] fs.
Proof.
  intros Hi Hs Hok Hl. rewrite (run_issues W fs Hi Hs). unfold try_except.
  rewrite handle_ok_undecodable; [reflexivity|exact Hok|congruence].
Qed.

(** X3. When the destination cannot be opened for writing, a successful,
    decoded response to save as [.json] or [.csv] ends the run after the
    status line with the line of the file write error, carrying the message
    of the failed [open], and exit status 1; no file is changed. *)
Theorem unwritable_destination_is_reported (cl : CommandLine) (rq : request)
  (r : response) (v : pyval) (p msg : pystr) (fs : list (pystr * pystr)) :
  issues cl rq -> serve W rq = Answer r -> ok r = true ->
  json_loads (text r) = Done v ->
  opt_output cl = Some p ->
  snd (splitext p) = py ".json" \/ snd (splitext p) = py ".csv" ->
  open_error W p = Some msg ->
  run W cl fs
  = outcome 1 [status_line r; py "File write error: " ++ msg] [rq] fs.
Proof.
  intros Hi Hs Hok Hl Ho He Hopen.
  pose proof (issues_output Hi) as Hout. rewrite Ho in Hout.
  assert (Hp : path_of (client_of cl) = p) by (unfold path_of; now rewrite Hout).
  assert (Ht : truthy (output (client_of cl)) = true).
  { rewrite Hout. destruct p; [|reflexivity].
    destruct He as [He|He]; discriminate He. }
  rewrite (run_issues W fs Hi Hs). unfold try_except.
  erewrite handle_ok_save; [|exact Hok|exact Ht|exact Hl].
  unfold save_response. rewrite Hp. destruct He as [He|He]; rewrite He.
  - change (str_eqb (py ".json") (py ".json")) with true. cbv iota.
    unfold save_json, try_except, bind, open_w. rewrite Hp, Hopen.
    reflexivity.
  - change (str_eqb (py ".csv") (py ".json")) with false.
    change (str_eqb (py ".csv") (py ".csv")) with true. cbv iota.
    unfold save_csv, try_except, bind, open_w. rewrite Hp, Hopen.
    reflexivity.
Qed.

(** X5. A run sends at most one request, and only the request of its command
    line: a GET of the base URL followed by the endpoint, or a POST there of
    the decoded payload. *)
Theorem at_most_one_request (cl : CommandLine) (fs : list (pystr * pystr)) :
  calls (run W cl fs) = []
  \/ exists rq, issues cl rq /\ calls (run W cl fs) = [rq].
Proof.
  rewrite run_main.
  destruct (main_before_response cl fs) as [e _|ep msg _ _|rq msg Hi _|rq r Hi _];
    [left; reflexivity|left; reflexivity|right; exists rq; now split|].
  right. exists rq. split; [exact Hi|].
  destruct (handle_after_response (client_of cl) r (start [rq] fs))
    as [_|_ _|v _ _ _|v _ _ _]; try reflexivity.
  destruct (save_response_cases W (client_of cl) v
              (add_out (start [rq] fs) [status_line r]))
    as [(st' & E & _ & _ & Hc)|(line & st' & E & _ & _ & Hc)]; rewrite E;
    exact Hc.
Qed.

(** The second line of a run that ends well. *)
Definition success_line (cl : CommandLine) (v : pyval) : pystr :=
  match opt_output cl with
  | Some (c :: p) => saved_line (c :: p)
  | _ => json_dumps 4 v
  end.

(** X6. A run ends with status 0 in two ways only.  Either the help option
    was met on the command line (before any token that is not a method):
    the help is printed and nothing is sent or written.  Or the command line
    was accepted, the request was answered with a status that is not an
    error, and the body decoded; the run then printed the status line and one
    more line (the body, or the confirmation of the save) and nothing on the
    standard error. *)
Theorem exit_zero_means_success (argv : Argv) (fs : list (pystr * pystr)) :
  exit_code (run W argv fs) = 0%Z ->
  (exists seen,
     argv = HelpAfter seen
     /\ run W argv fs
        = {| exit_code := 0; out := [help_text]; err := []; calls := [];
             disk := fs |})
  \/ (exists cl rq r v,
        argv = Args cl
        /\ issues cl rq /\ serve W rq = Answer r /\ ok r = true
        /\ json_loads (text r) = Done v
        /\ calls (run W cl fs) = [rq]
        /\ out (run W cl fs) = [status_line r; success_line cl v]
        /\ err (run W cl fs) = []).
Proof.
  destruct argv as [cl|seen].
  - intros H. right. exists cl. revert H. rewrite run_main.
    destruct (main_before_response cl fs)
      as [e _|ep msg _ _|rq msg _ _|rq r Hi Hs]; try discriminate.
    pose proof (issues_output Hi) as Hout.
    destruct (handle_after_response (client_of cl) r (start [rq] fs))
      as [_|_ _|v Hok Hl Ht|v Hok Hl Ht]; try discriminate.
    + intros _. exists rq, r, v. split; [reflexivity|].
      do 4 (split; [assumption|]).
      split; [reflexivity|]. split; [|reflexivity].
      cbn [finish out snd add_out start stdout app]. unfold success_line.
      rewrite Hout in Ht. destruct (opt_output cl) as [[|c p]|];
        [reflexivity|discriminate Ht|reflexivity].
    + destruct (save_response_cases W (client_of cl) v
                  (add_out (start [rq] fs) [status_line r]))
        as [(st' & E & Ha & Hb & Hc)|(line & st' & E & _)]; rewrite E;
        [|discriminate].
      intros _. exists rq, r, v. split; [reflexivity|].
      do 4 (split; [assumption|]).
      split; [exact Hc|]. split; [|exact Hb].
      cbn [finish out snd]. rewrite Ha. unfold success_line, path_of.
      rewrite Hout in *. destruct (opt_output cl) as [[|c p]|];
        [discriminate Ht|reflexivity|discriminate Ht].
  - intros H. left. exists seen. split; [reflexivity|].
    destruct seen as [|m rest]; [reflexivity|].
    revert H. unfold run, main, parse_args.
    destruct (mem m method_choices); [reflexivity|discriminate].
Qed.

End Paths.

Lemma transport_failure_is_reported_witness :
  run (Offline.network (py "Connection refused"))
      (Sample.command "post" "/posts" (Some "[1]"%string) (Some "out.json"%string))
      []
  = outcome 1 [py "Network error: Connection refused"]
            [POST (py "https://jsonplaceholder.typicode.com/posts")
                  (PyList [PyInt 1])] [].
Proof.
  apply (@transport_failure_is_reported Sample.runtime
           (Offline.network (py "Connection refused"))
           (Sample.command "post" "/posts" (Some "[1]"%string)
                           (Some "out.json"%string))
           (POST (py "https://jsonplaceholder.typicode.com/posts")
                 (PyList [PyInt 1]))
           (py "Connection refused") []).
  - apply (@issues_post Sample.runtime (py "/posts") (py "[1]")
                        (Some (py "out.json")) (PyList [PyInt 1])
                        eq_refl eq_refl).
  - reflexivity.
Defined.

Lemma undecodable_body_is_reported_witness :
  run (Sample.server 200 (py "<html>"))
      (Sample.command "get" "/posts" None (Some "out.json"%string)) []
  = outcome 1 [py "HTTP Status Code: 200";
               py "Network error: Expecting value: line 1 column 1 (char 0)"]
            [GET (py "https://jsonplaceholder.typicode.com/posts")] [].
Proof.
  apply (@undecodable_body_is_reported Sample.runtime
           (Sample.server 200 (py "<html>"))
           (Sample.command "get" "/posts" None (Some "out.json"%string))
           (GET (py "https://jsonplaceholder.typicode.com/posts"))
           {| status_code := 200; text := py "<html>" |} []
           (issues_get (py "/posts") None (Some (py "out.json")))
           eq_refl eq_refl eq_refl).
Defined.

Lemma unwritable_destination_is_reported_witness :
  let W := Offline.read_only 200 (py "[]") (py "[Errno 13] Permission denied: '/out.csv'") in
  run W (Sample.command "get" "/posts" None (Some "/out.csv"%string)) []
  = outcome 1 [py "HTTP Status Code: 200";
               py "File write error: [Errno 13] Permission denied: '/out.csv'"]
            [GET (py "https://jsonplaceholder.typicode.com/posts")] [].
Proof.
  intros W.
  apply (@unwritable_destination_is_reported Sample.runtime W
           (Sample.command "get" "/posts" None (Some "/out.csv"%string))
           (GET (py "https://jsonplaceholder.typicode.com/posts"))
           {| status_code := 200; text := py "[]" |} (PyList [])
           (py "/out.csv") (py "[Errno 13] Permission denied: '/out.csv'") []
           (issues_get (py "/posts") None (Some (py "/out.csv")))
           eq_refl eq_refl eq_refl eq_refl (or_intror eq_refl) eq_refl).
Defined.

Lemma exit_zero_means_success_witness :
  let W := Sample.server 201 (py "[1, 2]") in
  let cl := Sample.command "post" "/posts" (Some "{}"%string)
                           (Some "out.json"%string) in
  (exists seen,
     Args cl = HelpAfter seen
     /\ run W cl []
        = {| exit_code := 0; out := [@help_text Sample.runtime]; err := []; calls := [];
             disk := [] |})
  \/ (exists cl0 (rq : @request Sample.runtime) r (v : @pyval Sample.runtime),
        Args cl = Args cl0
        /\ issues cl0 rq /\ serve W rq = Answer r /\ ok r = true
        /\ json_loads (text r) = Done v
        /\ calls (run W cl0 []) = [rq]
        /\ out (run W cl0 []) = [status_line r; success_line cl0 v]
        /\ err (run W cl0 []) = []).
Proof.
  intros W cl.
  exact (@exit_zero_means_success Sample.runtime W cl [] eq_refl).
Defined.

(** ** The files a run leaves alone *)

Lemma dict_get_set_other (V : Type) (d : pydict V) (k q : pystr) (v : V) :
  q <> k -> dict_get (dict_set d k v) q = dict_get d q.
Proof.
  intros Hq. induction d as [|[k0 v0] d IH]; cbn [dict_set dict_get].
  - rewrite str_eqb_neq; [reflexivity|congruence].
  - destruct (str_eqb k0 k) eqn:E; cbn [dict_get].
    + apply str_eqb_eq in E. subst k0.
      rewrite str_eqb_neq; [reflexivity|congruence].
    + destruct (str_eqb k0 q); [reflexivity|exact IH].
Qed.

Section Files.
Context {RT : PyRuntime}.
Variable W : World.

(** A computation that changes no file but the one at [p]. *)
Definition keeps_others (p : pystr) (A : Type) (m : M A) : Prop :=
  forall st q, q <> p -> dict_get (files (snd (m st))) q = dict_get (files st) q.

Lemma keeps_ret p A (a : A) : keeps_others p (ret a).
Proof. intros st q _. reflexivity. Qed.

Lemma keeps_raise p A cls msg : keeps_others p (@raise _ A cls msg).
Proof. intros st q _. reflexivity. Qed.

Lemma keeps_sys_exit p A code : keeps_others p (@sys_exit _ A code).
Proof. intros st q _. reflexivity. Qed.

Lemma keeps_print p line : keeps_others p (print line).
Proof. intros st q _. reflexivity. Qed.

Lemma keeps_bind p A B (m : M A) (k : A -> M B) :
  keeps_others p m -> (forall a, keeps_others p (k a)) ->
  keeps_others p (bind m k).
Proof.
  intros Hm Hk st q Hq. unfold bind. specialize (Hm st q Hq).
  destruct (m st) as [[a|e] st1]; cbn [snd] in *.
  - rewrite (Hk a st1 q Hq). exact Hm.
  - exact Hm.
Qed.

Lemma keeps_try p A (body : M A) (handlers : list (exc_class * (pystr -> M A))) :
  keeps_others p body ->
  Forall (fun h => forall msg, keeps_others p (snd h msg)) handlers ->
  keeps_others p (try_except body handlers).
Proof.
  intros Hb Hh st q Hq. unfold try_except. specialize (Hb st q Hq).
  destruct (body st) as [[a|[c|cls msg]] st1]; cbn [snd] in *; try exact Hb.
  destruct (find _ handlers) as [h|] eqn:Ef; [|exact Hb].
  apply find_some in Ef. destruct Ef as [Hin _].
  rewrite Forall_forall in Hh. rewrite (Hh h Hin msg st1 q Hq). exact Hb.
Qed.

Lemma keeps_open_w p : keeps_others p (open_w W p).
Proof.
  unfold open_w. destruct (open_error W p); [apply keeps_raise|].
  intros st q Hq. cbn. now apply dict_get_set_other.
Qed.

Lemma keeps_write p t : keeps_others p (write W p t).
Proof.
  intros st q Hq. unfold write, bind, get_files, set_files.
  destruct (forallb _ t); [|reflexivity].
  destruct (dict_get (files st) p); cbn; now apply dict_get_set_other.
Qed.

Lemma keeps_first_keys p l : keeps_others p (first_keys l).
Proof.
  destruct l as [|[] l]; simpl; try apply keeps_raise. apply keeps_ret.
Qed.

Lemma keeps_dict_to_list p fn v : keeps_others p (dict_to_list fn v).
Proof.
  destruct v; simpl; try apply keeps_raise.
  destruct (filter _ _); [apply keeps_ret|apply keeps_raise].
Qed.

Lemma keeps_writerows p fn rows : keeps_others p (writerows W p fn rows).
Proof.
  induction rows as [|r rows IH]; simpl; [apply keeps_ret|].
  apply keeps_bind; [apply keeps_dict_to_list|]. intros row.
  apply keeps_bind; [apply keeps_write|]. intros _. exact IH.
Qed.

Lemma keeps_writeheader p fn : keeps_others p (writeheader W p fn).
Proof.
  unfold writeheader. apply keeps_bind; [apply keeps_dict_to_list|].
  intros row. apply keeps_write.
Qed.

Lemma keeps_write_error_handler p :
  Forall (fun h : exc_class * (pystr -> M unit) =>
            forall msg, keeps_others p (snd h msg))
         [(Exception,
           fun e => bind (print (py "File write error: " ++ e))
                         (fun _ => sys_exit 1%Z))].
Proof.
  constructor; [|constructor]. intros msg. cbn [snd].
  apply keeps_bind; [apply keeps_print|]. intros _. apply keeps_sys_exit.
Qed.

Lemma keeps_save_response self v :
  keeps_others (path_of self) (save_response W self v).
Proof.
  unfold save_response.
  destruct (str_eqb _ (py ".json")).
  - unfold save_json. apply keeps_try; [|apply keeps_write_error_handler].
    apply keeps_bind; [apply keeps_open_w|]. intros _.
    apply keeps_bind; [apply keeps_write|]. intros _. apply keeps_print.
  - destruct (str_eqb _ (py ".csv")).
    + unfold save_csv. apply keeps_try; [|apply keeps_write_error_handler].
      apply keeps_bind; [apply keeps_open_w|]. intros _.
      apply keeps_bind; [apply keeps_first_keys|]. intros fn.
      apply keeps_bind; [apply keeps_writeheader|]. intros _.
      apply keeps_bind; [apply keeps_writerows|]. intros _. apply keeps_print.
    + apply keeps_bind; [apply keeps_print|]. intros _. apply keeps_sys_exit.
Qed.

(** X7. A run writes to no file but its destination: without an output
    option (or with an empty one) the files are as they were, and with one
    every other path keeps what it held, however the run ends. *)
Theorem only_the_destination_is_written (cl : CommandLine)
  (fs : list (pystr * pystr)) :
  (truthy (opt_output cl) = false -> disk (run W cl fs) = fs)
  /\ forall q, opt_output cl <> Some q ->
       dict_get (disk (run W cl fs)) q = dict_get fs q.
Proof.
  rewrite run_main.
  destruct (main_before_response W cl fs)
    as [e _|ep msg _ _|rq msg _ _|rq r Hi _];
    try (split; [intros _; reflexivity|intros q _; reflexivity]).
  pose proof (issues_output Hi) as Hout.
  destruct (handle_after_response W (client_of cl) r (start [rq] fs))
    as [_|_ _|v _ _ _|v _ _ Ht];
    try (split; [intros _; reflexivity|intros q _; reflexivity]).
  rewrite Hout in Ht. split; [intros Hf; congruence|].
  intros q Hq. cbn [finish disk].
  rewrite (@keeps_save_response (client_of cl) v
             (add_out (start [rq] fs) [status_line r]) q); [reflexivity|].
  unfold path_of. rewrite Hout. destruct (opt_output cl) as [p|];
    [congruence|discriminate Ht].
Qed.


(** X9. The payload option counts through its decoded value only: a GET
    ignores it (with any [-d] value, one that is not JSON included, the run is
    the run without it), and two POST payloads that decode to the same value
    (they may differ in white space or in their escapes) give the same run. *)
Theorem payload_counts_through_its_value (e : pystr) (o : option pystr)
  (fs : list (pystr * pystr)) :
  (forall d,
     run W {| positionals := [py "get"; e]; opt_data := d; opt_output := o |} fs
     = run W {| positionals := [py "get"; e]; opt_data := None;
                opt_output := o |} fs)
  /\ (forall d1 d2 v,
        truthy (Some d1) = true -> truthy (Some d2) = true ->
        json_loads d1 = Done v -> json_loads d2 = Done v ->
        run W {| positionals := [py "post"; e]; opt_data := Some d1;
                 opt_output := o |} fs
        = run W {| positionals := [py "post"; e]; opt_data := Some d2;
                   opt_output := o |} fs).
Proof.
  split; [reflexivity|]. intros d1 d2 v H1 H2 L1 L2.
  pose proof (@issues_post _ e d1 o v H1 L1) as I1.
  pose proof (@issues_post _ e d2 o v H2 L2) as I2.
  rewrite !run_main.
  destruct (serve W (POST (BASE_URL ++ e) v)) as [r|msg] eqn:Es.
  - rewrite (main_issues W fs I1 Es), (main_issues W fs I2 Es). reflexivity.
  - rewrite (main_transport_failure W fs I1 Es),
      (main_transport_failure W fs I2 Es). reflexivity.
Qed.

(** X10. The class used without [main]: the method is compared after
    lowering, so a client made with a method of ASCII characters that is
    neither get nor post in any letter case sends nothing and ends with the
    line of the unsupported method, which names the lowered method, and exit
    status 1.  No command line reaches this: the methods [main] accepts are
    get and post. *)
Theorem unsupported_method_is_reported (m e : pystr) (d o : option pystr)
  (st : State) :
  forallb (fun c => c <? 128) m = true ->
  str_lower m <> py "get" -> str_lower m <> py "post" ->
  send_request W (init m e d o) st
  = (inr (SystemExit 1),
     add_out st [py "Invalid input: Unsupported HTTP method: " ++ str_lower m])
  /\ forall cl args, parse_args cl = inl args ->
       str_lower (ns_method args) = py "get"
       \/ str_lower (ns_method args) = py "post".
Proof.
  intros _ Hg Hp. split.
  - unfold send_request, try_except, bind, init. cbn [method].
    rewrite (str_eqb_neq Hg), (str_eqb_neq Hp). reflexivity.
  - intros [cl|seen] args; unfold parse_args;
      [|destruct seen as [|m0 rest];
        [discriminate|destruct (mem m0 method_choices); discriminate]].
    destruct (positionals cl) as [|m0 [|e0 [|x rest]]]; try discriminate.
    + destruct (mem m0 method_choices); discriminate.
    + destruct (str_eqb m0 (py "get")) eqn:Eg.
      { apply str_eqb_eq in Eg. subst m0. intros [= <-]. now left. }
      destruct (str_eqb m0 (py "post")) eqn:Ep.
      { apply str_eqb_eq in Ep. subst m0. intros [= <-]. now right. }
      unfold mem, method_choices. cbn -[py str_eqb].
      rewrite Eg, Ep. discriminate.
    + destruct (mem m0 method_choices); discriminate.
Qed.

End Files.


Lemma unsupported_method_is_reported_witness :
  send_request (Sample.server 200 (py "{}"))
               (init (py "Put") (py "/posts/1") None None) (start [] [])
  = (inr (SystemExit 1),
     add_out (start [] [])
             [py "Invalid input: Unsupported HTTP method: put"]).
Proof.
  apply (proj1 (@unsupported_method_is_reported Sample.runtime
                  (Sample.server 200 (py "{}")) (py "Put") (py "/posts/1")
                  None None (start [] []) eq_refl
                  ltac:(discriminate) ltac:(discriminate))).
Defined.

(** ** Records that are not uniform, and bodies that are not lists *)

Section CsvEdges.
Context {RT : PyRuntime}.
Variable W : World.

(** A record with no key outside [fieldnames]. *)
Definition covered (fieldnames : list pystr) (rec : pyval) : bool :=
  match rec with
  | PyDict d => forallb (fun k => mem k fieldnames) (keys d)
  | _ => false
  end.

(** The text of the field [k] of a record: the text of its value, and the
    empty string ([restval]) when the record has no such key. *)
Definition field_text (rec : pyval) (k : pystr) : pystr :=
  match rec with
  | PyDict d =>
      match dict_get d k with
      | Some v => csv_text v
      | None => []
      end
  | _ => []
  end.

Definition fields (fieldnames : list pystr) (rec : pyval) : list pystr :=
  map (field_text rec) fieldnames.

(** [data] of [save_csv]: a body that is not a list is wrapped in one. *)
Definition records_of (body : pyval) : list pyval :=
  match body with
  | PyList items => items
  | _ => [body]
  end.

(** The keys of a record that are not field names. *)
Definition wrong_fields (fieldnames : list pystr) (d : list (pystr * pyval))
  : list pystr :=
  filter (fun k => negb (mem k fieldnames)) (keys d).

Lemma dict_to_list_covered (fieldnames : list pystr) (rec : pyval) (st : State) :
  covered fieldnames rec = true ->
  exists row, dict_to_list fieldnames rec st = (inl row, st)
              /\ map csv_text row = fields fieldnames rec.
Proof.
  destruct rec as [| | | | | |d]; try discriminate. cbn [covered].
  intros H. cbn [dict_to_list].
  assert (E : filter (fun k => negb (mem k fieldnames)) (keys d) = []).
  { induction (keys d) as [|k l IH]; [reflexivity|].
    cbn [forallb] in H. apply andb_true_iff in H. destruct H as [Hk Hl].
    cbn [filter]. rewrite Hk. cbn [negb]. now apply IH. }
  rewrite E. eexists. split; [reflexivity|].
  unfold fields. rewrite map_map. apply map_ext. intros k. cbn [field_text].
  now destruct (dict_get d k).
Qed.

Lemma dict_to_list_wrong (fieldnames : list pystr) (d : list (pystr * pyval))
  (st : State) :
  wrong_fields fieldnames d <> [] ->
  dict_to_list fieldnames (PyDict d) st
  = (inr (Raised ValueError (csv_extras_text (wrong_fields fieldnames d))), st).
Proof.
  unfold wrong_fields. cbn [dict_to_list].
  destruct (filter _ (keys d)); [congruence|reflexivity].
Qed.

(** The text of the rows of the records, and the text of the file: the
    header and the rows. *)
Definition rows_text (fieldnames : list pystr) (records : list pyval) : pystr :=
  List.concat (map (fun rec => Csv.writerow (fields fieldnames rec)) records).

Definition file_text (fieldnames : list pystr) (records : list pyval) : pystr :=
  Csv.writerow fieldnames ++ rows_text fieldnames records.

Lemma writerows_covered (p : pystr) (fieldnames : list pystr)
  (good tail : list pyval) :
  forallb (covered fieldnames) good = true ->
  forallb (writable W) (rows_text fieldnames good) = true ->
  forall o e s f old,
    dict_get f p = Some old ->
    writerows W p fieldnames (good ++ tail)
              {| stdout := o; stderr := e; sent := s; files := f |}
    = writerows W p fieldnames tail
        {| stdout := o; stderr := e; sent := s;
           files := dict_set f p (old ++ rows_text fieldnames good) |}.
Proof.
  unfold rows_text.
  induction good as [|rec good IH]; intros Hu Hw o e s f old Hg.
  - cbn [app map List.concat]. rewrite app_nil_r.
    now rewrite (dict_set_same _ _ Hg).
  - cbn [forallb] in Hu. apply andb_true_iff in Hu. destruct Hu as [Hr Hu].
    cbn [map List.concat] in Hw. rewrite forallb_app in Hw.
    apply andb_true_iff in Hw. destruct Hw as [Hw1 Hw].
    cbn [app writerows]. unfold bind at 1.
    destruct (dict_to_list_covered fieldnames rec
                {| stdout := o; stderr := e; sent := s; files := f |} Hr)
      as (row & E & Erow).
    rewrite E. unfold bind at 1. unfold writer_writerow. rewrite Erow.
    rewrite (@write_append _ W p _ old o e s f Hw1 Hg).
    rewrite (IH Hu Hw o e s _ (old ++ Csv.writerow (fields fieldnames rec))
               (dict_get_set _ _ _)).
    cbn [map List.concat]. rewrite dict_set_set, <- app_assoc. reflexivity.
Qed.

Lemma covered_self (d : list (pystr * pyval)) :
  covered (keys d) (PyDict d) = true.
Proof. cbn [covered]. apply forallb_mem_self. Qed.

Lemma fields_header (fieldnames : list pystr) :
  fields fieldnames (PyDict (map (fun k => (k, PyStr k)) fieldnames))
  = fieldnames.
Proof.
  transitivity (record_row fieldnames
                  (PyDict (map (fun k => (k, PyStr k)) fieldnames)));
    [|apply header_row].
  unfold fields. cbn [record_row]. apply map_ext. intros k.
  cbn [field_text].
  destruct (dict_get (map (fun k0 : pystr => (k0, PyStr k0)) fieldnames) k);
    reflexivity.
Qed.

(** [save_csv] up to the first record that is not written: the header and
    the rows before it are in the file. *)
Lemma save_csv_covered (self : RestClient) (d0 : list (pystr * pyval))
  (rest good tail : list pyval) (o e : list pystr) (s : list request)
  (f : list (pystr * pystr)) :
  open_error W (path_of self) = None ->
  PyDict d0 :: rest = good ++ tail ->
  forallb (covered (keys d0)) good = true ->
  forallb (writable W) (file_text (keys d0) good) = true ->
  save_csv W self (PyList (PyDict d0 :: rest))
           {| stdout := o; stderr := e; sent := s; files := f |}
  = try_except
      (bind (writerows W (path_of self) (keys d0) tail)
            (fun _ => print (saved_line (path_of self))))
      write_error_handler
      {| stdout := o; stderr := e; sent := s;
         files := dict_set f (path_of self) (file_text (keys d0) good) |}.
Proof.
  intros Ho Hr Hu Hw. unfold file_text in *.
  rewrite forallb_app in Hw. apply andb_true_iff in Hw.
  destruct Hw as [Hw0 Hw].
  unfold save_csv, try_except, open_w. rewrite Ho.
  cbv beta iota delta [bind get_files set_files first_keys ret files stdout
                       stderr sent].
  unfold writeheader. cbv beta iota delta [bind].
  destruct (dict_to_list_covered (keys d0)
              (PyDict (map (fun k => (k, PyStr k)) (keys d0)))
              {| stdout := o; stderr := e; sent := s;
                 files := dict_set f (path_of self) [] |}) as (row & E & Erow).
  { cbn [covered]. unfold keys at 2. rewrite map_map. cbn [fst].
    rewrite map_id. apply forallb_mem_self. }
  rewrite E. unfold writer_writerow. rewrite Erow, fields_header.
  rewrite (@write_append _ W (path_of self) _ [] o e s _ Hw0
             (dict_get_set _ _ _)).
  cbn [app]. rewrite Hr.
  rewrite (@writerows_covered (path_of self) (keys d0) good tail
             Hu Hw o e s _ (Csv.writerow (keys d0)) (dict_get_set _ _ _)).
  rewrite !dict_set_set. reflexivity.
Qed.

Lemma fields_record_row (fieldnames : list pystr) (d : list (pystr * pyval)) :
  record_row fieldnames (PyDict d) = fields fieldnames (PyDict d).
Proof.
  unfold fields. cbn [record_row]. apply map_ext. intros k.
  cbn [field_text]. destruct (dict_get d k); reflexivity.
Qed.

(** What is common to the runs that save a decoded body as [.csv]. *)
Lemma run_save_csv (cl : CommandLine) (rq : request) (r : response)
  (p : pystr) (v : pyval) (fs : list (pystr * pystr)) :
  issues cl rq -> serve W rq = Answer r -> ok r = true ->
  json_loads (text r) = Done v ->
  opt_output cl = Some p -> snd (splitext p) = py ".csv" ->
  path_of (client_of cl) = p
  /\ run W cl fs
     = finish (save_csv W (client_of cl) v
                 {| stdout := [status_line r]; stderr := []; sent := [rq];
                    files := fs |}).
Proof.
  intros Hi Hs Hok Hl Ho He.
  pose proof (issues_output Hi) as Hout. rewrite Ho in Hout.
  assert (Hp : path_of (client_of cl) = p) by (unfold path_of; now rewrite Hout).
  assert (Ht : truthy (output (client_of cl)) = true).
  { rewrite Hout. destruct p; [discriminate He|reflexivity]. }
  split; [exact Hp|].
  rewrite run_main, (main_issues W fs Hi Hs).
  destruct (handle_after_response W (client_of cl) r (start [rq] fs))
    as [Hn|_ Hn|v' _ _ Hn|v' _ Hl' _].
  - congruence.
  - destruct (Hn v Hl).
  - congruence.
  - assert (v' = v) by congruence. subst v'.
    unfold save_response. rewrite Hp, He.
    change (str_eqb (py ".csv") (py ".json")) with false.
    change (str_eqb (py ".csv") (py ".csv")) with true. reflexivity.
Qed.


(** X12. A record with a key that the first record has not stops the save:
    when the header and the rows before it were written, the run ends with
    status 1 after the status line and the line of the file write error with
    the message of [csv.DictWriter], and the destination is left with the
    header and the rows of the records before that one. *)
Theorem csv_extra_key_stops_the_save (cl : CommandLine) (rq : request)
  (r : response) (p : pystr) (d0 d : list (pystr * pyval))
  (good post : list pyval) (fs : list (pystr * pystr)) :
  issues cl rq -> serve W rq = Answer r -> ok r = true ->
  json_loads (text r) = Done (PyList (PyDict d0 :: good ++ PyDict d :: post)) ->
  forallb (covered (keys d0)) good = true ->
  wrong_fields (keys d0) d <> [] ->
  opt_output cl = Some p -> snd (splitext p) = py ".csv" ->
  open_error W p = None ->
  forallb (writable W) (file_text (keys d0) (PyDict d0 :: good)) = true ->
  run W cl fs
  = {| exit_code := 1;
       out := [status_line r;
               py "File write error: "
               ++ csv_extras_text (wrong_fields (keys d0) d)];
       err := []; calls := [rq];
       disk := dict_set fs p (file_text (keys d0) (PyDict d0 :: good)) |}.
Proof.
  intros Hi Hs Hok Hl Hu Hw Ho He Hopen Hwr.
  destruct (run_save_csv fs Hi Hs Hok Hl Ho He) as [Hp ->].
  rewrite (@save_csv_covered (client_of cl) d0 (good ++ PyDict d :: post)
             (PyDict d0 :: good) (PyDict d :: post));
    [|rewrite Hp; exact Hopen|reflexivity
     |cbn [forallb]; now rewrite covered_self, Hu|exact Hwr].
  rewrite Hp. unfold try_except. cbn [writerows]. unfold bind at 1 2.
  rewrite dict_to_list_wrong by exact Hw. reflexivity.
Qed.


(** X14. When the first record (the body itself, when it is not a list) is
    not an object, the save to a [.csv] destination fails on its keys: the
    run ends with status 1 after the status line and the line of the file
    write error naming the type of the value, and the destination, opened
    before, is left empty. *)
Theorem csv_of_non_record (cl : CommandLine) (rq : request)
  (r : response) (p : pystr) (v x : pyval) (rest : list pyval)
  (fs : list (pystr * pystr)) :
  issues cl rq -> serve W rq = Answer r -> ok r = true ->
  json_loads (text r) = Done v ->
  records_of v = x :: rest -> (forall d, x <> PyDict d) ->
  opt_output cl = Some p -> snd (splitext p) = py ".csv" ->
  open_error W p = None ->
  run W cl fs
  = {| exit_code := 1;
       out := [status_line r;
               py "File write error: '" ++ type_name x
               ++ py "' object has no attribute 'keys'"];
       err := []; calls := [rq]; disk := dict_set fs p [] |}.
Proof.
  intros Hi Hs Hok Hl Hr Hx Ho He Hopen.
  destruct (run_save_csv fs Hi Hs Hok Hl Ho He) as [Hp ->].
  unfold save_csv. fold (records_of v). rewrite Hr, Hp.
  unfold try_except, bind, open_w. rewrite Hopen.
  destruct x; try (destruct (Hx _ eq_refl)); reflexivity.
Qed.

(** X22. A later element of the list that is not an object stops the CSV
    save like a record with a wrong key: when the header and the rows before
    it were written, the run ends with status 1 after the status line and the
    line of the file write error naming the type of the value, and the
    destination is left with the header and the rows of the records before
    it. *)
Theorem csv_later_non_record_stops_the_save (cl : CommandLine) (rq : request)
  (r : response) (p : pystr) (d0 : list (pystr * pyval)) (x : pyval)
  (good post : list pyval) (fs : list (pystr * pystr)) :
  issues cl rq -> serve W rq = Answer r -> ok r = true ->
  json_loads (text r) = Done (PyList (PyDict d0 :: good ++ x :: post)) ->
  forallb (covered (keys d0)) good = true ->
  (forall d, x <> PyDict d) ->
  opt_output cl = Some p -> snd (splitext p) = py ".csv" ->
  open_error W p = None ->
  forallb (writable W) (file_text (keys d0) (PyDict d0 :: good)) = true ->
  run W cl fs
  = {| exit_code := 1;
       out := [status_line r;
               py "File write error: '" ++ type_name x
               ++ py "' object has no attribute 'keys'"];
       err := []; calls := [rq];
       disk := dict_set fs p (file_text (keys d0) (PyDict d0 :: good)) |}.
Proof.
  intros Hi Hs Hok Hl Hu Hx Ho He Hopen Hwr.
  destruct (run_save_csv fs Hi Hs Hok Hl Ho He) as [Hp ->].
  rewrite (@save_csv_covered (client_of cl) d0 (good ++ x :: post)
             (PyDict d0 :: good) (x :: post));
    [|rewrite Hp; exact Hopen|reflexivity
     |cbn [forallb]; now rewrite covered_self, Hu|exact Hwr].
  rewrite Hp. unfold try_except. cbn [writerows]. unfold bind at 1 2.
  destruct x; try (destruct (Hx _ eq_refl)); reflexivity.
Qed.

(** X23. A row that the file cannot encode stops the save.  When a record,
    the first one included, has a field with a character that the encoding
    of the file lacks (a lone surrogate, which [json.loads] returns for an
    escape such as [\ud800], is one for every encoding), its row is not
    written: the run ends with status 1 after the status line and the line
    of the file write error with the message of the codec, and the
    destination is left with the header and the rows of the records before
    that one. *)
Theorem csv_unencodable_row_stops_the_save (cl : CommandLine) (rq : request)
  (r : response) (p : pystr) (d0 : list (pystr * pyval)) (bad : pyval)
  (rest good post : list pyval) (fs : list (pystr * pystr)) :
  issues cl rq -> serve W rq = Answer r -> ok r = true ->
  json_loads (text r) = Done (PyList (PyDict d0 :: rest)) ->
  PyDict d0 :: rest = good ++ bad :: post ->
  forallb (covered (keys d0)) good = true ->
  covered (keys d0) bad = true ->
  opt_output cl = Some p -> snd (splitext p) = py ".csv" ->
  open_error W p = None ->
  forallb (writable W) (file_text (keys d0) good) = true ->
  forallb (writable W) (Csv.writerow (fields (keys d0) bad)) = false ->
  run W cl fs
  = {| exit_code := 1;
       out := [status_line r;
               py "File write error: "
               ++ encode_error_text (Csv.writerow (fields (keys d0) bad))];
       err := []; calls := [rq];
       disk := dict_set fs p (file_text (keys d0) good) |}.
Proof.
  intros Hi Hs Hok Hl Hr Hu Hb Ho He Hopen Hwr Hbad.
  destruct (run_save_csv fs Hi Hs Hok Hl Ho He) as [Hp ->].
  rewrite (@save_csv_covered (client_of cl) d0 rest good (bad :: post));
    [|rewrite Hp; exact Hopen|exact Hr|exact Hu|exact Hwr].
  rewrite Hp. unfold try_except. cbn [writerows]. unfold bind at 1 2.
  destruct (dict_to_list_covered (keys d0) bad
              {| stdout := [status_line r]; stderr := []; sent := [rq];
                 files := dict_set fs p (file_text (keys d0) good) |} Hb)
    as (row & E & Erow).
  rewrite E. unfold bind at 1. unfold writer_writerow. rewrite Erow.
  rewrite write_refused by exact Hbad. reflexivity.
Qed.

End CsvEdges.

Module SampleRecords.

(** A JSON string literal with the given ASCII content. *)
Definition quoted (s : string) : pystr := Chr.QUOTE :: py s ++ [Chr.QUOTE].


(** Two records, the second with the key [b] that the first has not. *)
Definition growing : pystr :=
  py "[{" ++ quoted "a" ++ py ": 1}, {" ++ quoted "a" ++ py ": 2, "
  ++ quoted "b" ++ py ": 3}]".


(** One record whose field is a lone surrogate, written as an escape. *)
Definition surrogate : pystr :=
  py "[{" ++ quoted "a" ++ py ": " ++ [Chr.QUOTE; Chr.BACKSLASH] ++ py "ud800"
  ++ [Chr.QUOTE] ++ py "}]".

Definition get_to (o : string) : CommandLine :=
  Sample.command "get" "/posts" None (Some o).

Definition the_request : request (RT := Sample.runtime) :=
  GET (py "https://jsonplaceholder.typicode.com/posts").

Definition answer (body : pystr) : response :=
  {| status_code := 200; text := body |}.

End SampleRecords.


Lemma csv_extra_key_stops_the_save_witness :
  run (Sample.server 200 SampleRecords.growing)
      (SampleRecords.get_to "out.csv") [(py "out.csv", py "old")]
  = {| exit_code := 1;
       out := [py "HTTP Status Code: 200";
               py "File write error: dict contains fields not in fieldnames"];
       err := []; calls := [SampleRecords.the_request];
       disk := [(py "out.csv", py "a" ++ [Chr.CR; Chr.LF] ++ py "1"
                               ++ [Chr.CR; Chr.LF])] |}.
Proof.
  apply (@csv_extra_key_stops_the_save Sample.runtime
           (Sample.server 200 SampleRecords.growing)
           (SampleRecords.get_to "out.csv") SampleRecords.the_request
           (SampleRecords.answer SampleRecords.growing) (py "out.csv")
           [(py "a", PyInt 1)] [(py "a", PyInt 2); (py "b", PyInt 3)] [] []
           [(py "out.csv", py "old")]
           (issues_get (py "/posts") None (Some (py "out.csv")))
           eq_refl eq_refl eq_refl eq_refl).
  - discriminate.
  - reflexivity.
  - reflexivity.
  - reflexivity.
  - reflexivity.
Defined.


Lemma csv_of_non_record_witness :
  run (Sample.server 200 (py "[5, 6]"))
      (SampleRecords.get_to "out.csv") [(py "out.csv", py "old")]
  = {| exit_code := 1;
       out := [py "HTTP Status Code: 200";
               py "File write error: 'int' object has no attribute 'keys'"];
       err := []; calls := [SampleRecords.the_request];
       disk := [(py "out.csv", [])] |}.
Proof.
  apply (@csv_of_non_record Sample.runtime
           (Sample.server 200 (py "[5, 6]"))
           (SampleRecords.get_to "out.csv") SampleRecords.the_request
           (SampleRecords.answer (py "[5, 6]")) (py "out.csv")
           (PyList [PyInt 5; PyInt 6]) (PyInt 5) [PyInt 6]
           [(py "out.csv", py "old")]
           (issues_get (py "/posts") None (Some (py "out.csv")))
           eq_refl eq_refl eq_refl eq_refl).
  - discriminate.
  - reflexivity.
  - reflexivity.
  - reflexivity.
Defined.

Lemma csv_unencodable_row_stops_the_save_witness :
  json_loads (RT := Sample.runtime) SampleRecords.surrogate
  = Done (PyList [PyDict [(py "a", PyStr [55296])]])
  /\ run (Sample.server 200 SampleRecords.surrogate)
         (SampleRecords.get_to "out.csv") []
     = {| exit_code := 1;
          out := [py "HTTP Status Code: 200";
                  py "File write error: surrogates not allowed"];
          err := []; calls := [SampleRecords.the_request];
          disk := [(py "out.csv", py "a" ++ [Chr.CR; Chr.LF])] |}.
Proof.
  split; [reflexivity|].
  exact (@csv_unencodable_row_stops_the_save Sample.runtime
           (Sample.server 200 SampleRecords.surrogate)
           (SampleRecords.get_to "out.csv") SampleRecords.the_request
           (SampleRecords.answer SampleRecords.surrogate) (py "out.csv")
           [(py "a", PyStr [55296])] (PyDict [(py "a", PyStr [55296])])
           [] [] [] []
           (issues_get (py "/posts") None (Some (py "out.csv")))
           eq_refl eq_refl eq_refl eq_refl eq_refl eq_refl eq_refl eq_refl
           eq_refl eq_refl eq_refl).
Defined.

(** ** What is printed and saved as JSON *)

Section JsonText.
Context {RT : PyRuntime}.

(** X15. The JSON text the script prints and saves holds printable ASCII
    characters and line feeds only, whatever the strings of the body hold
    (the encoder escapes every other character), provided [repr] of a float
    is such a text. *)
Theorem json_dumps_is_printable_ascii (indent : nat) (v : pyval) :
  (forall x, forallb printable (float_repr x) = true) ->
  forallb printable (json_dumps indent v) = true.
Proof.
  intros Hf. apply forallb_forall. intros c Hc.
  pose proof (iterencode_printable indent v Hf 0) as H.
  rewrite Forall_forall in H. now apply H.
Qed.

Variable W : World.

(** X16. The body a run prints can be read again: without an output
    destination, the line printed after the status line is a JSON document
    that decodes to the decoded body of the response. *)
Theorem printed_body_round_trip (cl : CommandLine) (rq : request)
  (r : response) (v : pyval) (fs : list (pystr * pystr)) :
  float_laws ->
  issues cl rq -> serve W rq = Answer r -> ok r = true ->
  forallb is_scalar (text r) = true ->
  json_loads (text r) = Done v ->
  truthy (opt_output cl) = false ->
  exists line,
    out (run W cl fs) = [status_line r; line] /\ json_loads line = Done v.
Proof.
  intros Hlaws Hi Hs Hok Hsc Hl Ht.
  pose proof (issues_output Hi) as Hout.
  rewrite (run_issues W fs Hi Hs). unfold try_except.
  erewrite handle_ok_print; [|exact Hok|rewrite Hout; exact Ht|exact Hl].
  exists (json_dumps 4 v). split; [reflexivity|].
  apply json_loads_dumps; [exact Hlaws|].
  eapply json_loads_wf; eassumption.
Qed.

(** X17. The status code is what a run prints first.  Whatever the answer
    to the request is (an error status, a body that is not JSON, a body
    printed or saved, a save that fails), the standard output of the run is
    two lines, and the first is [HTTP Status Code: ] followed by the status
    code of the answer in decimal: its digits read back as the code. *)
Theorem status_code_is_printed_first (cl : CommandLine) (rq : request)
  (r : response) (fs : list (pystr * pystr)) :
  issues cl rq -> serve W rq = Answer r ->
  exists digits line,
    out (run W cl fs) = [py "HTTP Status Code: " ++ digits; line]
    /\ int_of_literal digits = status_code r.
Proof.
  intros Hi Hs. exists (str_int (status_code r)).
  assert (H : exists line, out (run W cl fs) = [status_line r; line]).
  { rewrite (run_issues W fs Hi Hs).
    destruct (handle_after_response W (client_of cl) r (start [rq] fs))
      as [_|_ _|v _ _ _|v _ _ _]; try (eexists; reflexivity).
    destruct (save_response_cases W (client_of cl) v
                (add_out (start [rq] fs) [status_line r]))
      as [(st' & E & Ha & _)|(line & st' & E & Ha & _)]; rewrite E;
      eexists; cbn [finish out snd]; rewrite Ha; reflexivity. }
  destruct H as (line & H). exists line. split; [exact H|].
  apply int_of_literal_str_int.
Qed.

End JsonText.

(** X18. The rows [csv.writer] writes are the rows [csv.reader] reads: any
    rows of any strings (with commas, quotes and line breaks in the fields,
    empty fields and empty rows) written one after the other are read back
    as they were. *)
Theorem csv_rows_round_trip (rows : list (list pystr)) :
  Csv.read_text (List.concat (map Csv.writerow rows)) = Some rows.
Proof. apply CsvFacts.read_written. Qed.

Lemma json_dumps_is_printable_ascii_witness :
  forallb printable
    (json_dumps (RT := Sample.runtime) 4
       (PyDict [(py "k", PyList [PyStr [233; 9; 128512]; PyFloat (RT := Sample.runtime) (FFin tt)])]))
  = true.
Proof.
  apply (@json_dumps_is_printable_ascii Sample.runtime 4).
  intros []. reflexivity.
Defined.

Lemma status_code_is_printed_first_witness :
  exists digits line,
    out (run (Sample.server 404 (py "{}"))
             (Sample.command "get" "/posts/0" None (Some "out.csv"%string)) [])
    = [py "HTTP Status Code: " ++ digits; line]
    /\ int_of_literal digits = 404%Z.
Proof.
  exact (@status_code_is_printed_first Sample.runtime
           (Sample.server 404 (py "{}"))
           (Sample.command "get" "/posts/0" None (Some "out.csv"%string))
           (GET (py "https://jsonplaceholder.typicode.com/posts/0"))
           {| status_code := 404; text := py "{}" |} []
           (issues_get (py "/posts/0") None (Some (py "out.csv"))) eq_refl).
Defined.

Lemma printed_body_round_trip_witness :
  exists line,
    out (run (Sample.server 200 SampleJson.body)
             (Sample.command "get" "/posts/1" None None) [])
    = [py "HTTP Status Code: 200"; line]
    /\ json_loads line = Done SampleJson.value.
Proof.
  exact (@printed_body_round_trip Sample.runtime
           (Sample.server 200 SampleJson.body)
           (Sample.command "get" "/posts/1" None None)
           (GET (py "https://jsonplaceholder.typicode.com/posts/1"))
           {| status_code := 200; text := SampleJson.body |}
           SampleJson.value [] SampleJson.runtime_float_laws
           (issues_get (py "/posts/1") None None)
           eq_refl eq_refl eq_refl eq_refl eq_refl).
Defined.

(** ** The extension of a destination *)

Lemma rfind_loop_absent (s : pystr) (c : N) (i last : Z) :
  existsb (N.eqb c) s = false -> rfind_loop s c i last = last.
Proof.
  revert i last. induction s as [|x s IH]; intros i last H; [reflexivity|].
  cbn [existsb] in H. apply orb_false_iff in H. destruct H as [Hx Hs].
  cbn [rfind_loop]. rewrite N.eqb_sym, Hx. now apply IH.
Qed.

Lemma rfind_ends_with (d : pystr) (c : N) :
  rfind (d ++ [c]) c = Z.of_nat (List.length d).
Proof.
  unfold rfind. rewrite rfind_loop_app. cbn [rfind_loop].
  now rewrite N.eqb_refl.
Qed.

(** A directory part: nothing, or a text that ends with a slash. *)
Definition is_dir (dir : pystr) : Prop :=
  dir = [] \/ exists d, dir = d ++ [Chr.SLASH].

Lemma rfind_dir_slash (dir s : pystr) :
  is_dir dir -> existsb (N.eqb Chr.SLASH) s = false ->
  rfind (dir ++ s) Chr.SLASH = (Z.of_nat (List.length dir) - 1)%Z.
Proof.
  intros Hd Hs. unfold rfind. rewrite rfind_loop_app.
  rewrite rfind_loop_absent by exact Hs.
  destruct Hd as [->|[d ->]]; [reflexivity|].
  fold (rfind (d ++ [Chr.SLASH]) Chr.SLASH). rewrite rfind_ends_with.
  rewrite length_app. cbn [List.length]. lia.
Qed.

Lemma rfind_dir_other (dir : pystr) (c : N) :
  is_dir dir -> c <> Chr.SLASH ->
  (rfind dir c <= Z.of_nat (List.length dir) - 1)%Z
  /\ (dir <> [] -> rfind dir c < Z.of_nat (List.length dir) - 1)%Z.
Proof.
  intros Hd Hc. destruct Hd as [->|[d ->]].
  - split; [cbn; lia|congruence].
  - unfold rfind. rewrite rfind_loop_app. cbn [rfind_loop].
    destruct (N.eqb_spec Chr.SLASH c) as [E|_]; [congruence|].
    pose proof (@rfind_loop_bound d c 0 (-1) ltac:(lia)) as Hb.
    rewrite length_app. cbn [List.length]. split; [lia|intros _; lia].
Qed.

Lemma splitext_loop_name (name pre rest : pystr) (dotIndex : nat) :
  splitext_loop (List.length name) (pre ++ name ++ rest) (List.length pre)
                dotIndex
  = if forallb (N.eqb Chr.DOT) name then (pre ++ name ++ rest, [])
    else (firstn dotIndex (pre ++ name ++ rest),
          skipn dotIndex (pre ++ name ++ rest)).
Proof.
  revert pre. induction name as [|c name IH]; intros pre; [reflexivity|].
  cbn [List.length splitext_loop forallb].
  rewrite nth_error_app2 by lia. rewrite Nat.sub_diag. cbn [app nth_error].
  rewrite (N.eqb_sym Chr.DOT c). destruct (c =? Chr.DOT); [|reflexivity].
  cbn [andb]. specialize (IH (pre ++ [c])).
  rewrite length_app, <- app_assoc in IH. cbn [List.length app] in IH.
  rewrite Nat.add_1_r in IH. exact IH.
Qed.

(** [splitext] on a path cut into the directory part, the file name up to
    its last dot, and what follows that dot. *)
Lemma splitext_name_dot (dir name tl : pystr) :
  is_dir dir ->
  existsb (N.eqb Chr.SLASH) name = false ->
  existsb (N.eqb Chr.DOT) tl = false ->
  existsb (N.eqb Chr.SLASH) tl = false ->
  splitext (dir ++ name ++ Chr.DOT :: tl)
  = if forallb (N.eqb Chr.DOT) name then (dir ++ name ++ Chr.DOT :: tl, [])
    else (dir ++ name, Chr.DOT :: tl).
Proof.
  intros Hd Hn Hdot Hsl. unfold splitext.
  assert (Es : rfind (dir ++ name ++ Chr.DOT :: tl) Chr.SLASH
               = (Z.of_nat (List.length dir) - 1)%Z).
  { apply rfind_dir_slash; [exact Hd|]. rewrite existsb_app, Hn.
    cbn [existsb orb]. exact Hsl. }
  assert (Ed : rfind (dir ++ name ++ Chr.DOT :: tl) Chr.DOT
               = Z.of_nat (List.length (dir ++ name))).
  { rewrite app_assoc. unfold rfind. rewrite rfind_loop_app.
    cbn [rfind_loop]. rewrite N.eqb_refl.
    now rewrite rfind_loop_absent by exact Hdot. }
  rewrite Es, Ed. rewrite length_app.
  destruct (Z.gtb_spec (Z.of_nat (List.length dir + List.length name))
                       (Z.of_nat (List.length dir) - 1)) as [_|Hle]; [|lia].
  replace (Z.to_nat (Z.of_nat (List.length dir + List.length name)
                     - (Z.of_nat (List.length dir) - 1 + 1)))
    with (List.length name) by lia.
  replace (Z.to_nat (Z.of_nat (List.length dir) - 1 + 1))
    with (List.length dir) by lia.
  rewrite Nat2Z.id, splitext_loop_name.
  destruct (forallb (N.eqb Chr.DOT) name); [reflexivity|].
  rewrite (app_assoc dir name), <- length_app.
  rewrite firstn_app, firstn_all, Nat.sub_diag, app_nil_r.
  rewrite skipn_app, skipn_all, Nat.sub_diag. reflexivity.
Qed.

Lemma splitext_no_dot (dir name : pystr) :
  is_dir dir ->
  existsb (N.eqb Chr.SLASH) name = false ->
  existsb (N.eqb Chr.DOT) name = false ->
  splitext (dir ++ name) = (dir ++ name, []).
Proof.
  intros Hd Hn Hdot. unfold splitext.
  rewrite rfind_dir_slash by assumption.
  assert (E : rfind (dir ++ name) Chr.DOT = rfind dir Chr.DOT).
  { unfold rfind. rewrite rfind_loop_app. now apply rfind_loop_absent. }
  rewrite E.
  destruct (@rfind_dir_other dir Chr.DOT Hd ltac:(discriminate)) as [Hle _].
  destruct (Z.gtb_spec (rfind dir Chr.DOT) (Z.of_nat (List.length dir) - 1));
    [lia|reflexivity].
Qed.

(** X19. [os.path.splitext] on every path.  With the path cut into its
    directory part and its file name: a name without a dot has no extension;
    a name with a dot is split at its last dot, unless only dots come before
    it in the name (a hidden file such as [.json], or [..]), which has no
    extension either. *)
Theorem splitext_of_a_file_name (dir name : pystr) :
  is_dir dir -> existsb (N.eqb Chr.SLASH) name = false ->
  (existsb (N.eqb Chr.DOT) name = false ->
   splitext (dir ++ name) = (dir ++ name, []))
  /\ (forall stem tl,
        name = stem ++ Chr.DOT :: tl -> existsb (N.eqb Chr.DOT) tl = false ->
        splitext (dir ++ name)
        = if forallb (N.eqb Chr.DOT) stem then (dir ++ name, [])
          else (dir ++ stem, Chr.DOT :: tl)).
Proof.
  intros Hd Hn. split.
  - intros Hdot. now apply splitext_no_dot.
  - intros stem tl -> Hdot. rewrite existsb_app in Hn.
    apply orb_false_iff in Hn. destruct Hn as [Hs Ht].
    cbn [existsb] in Ht. apply orb_false_iff in Ht. destruct Ht as [_ Ht].
    now apply splitext_name_dot.
Qed.

Section HiddenFile.
Context {RT : PyRuntime}.
Variable W : World.

(** X20. A destination whose file name is only dots before its last dot
    ([.json], [data/.csv], [..json]) has no extension for the script: after
    a successful, decoded response the run ends with the line of the
    unsupported format, which shows an empty extension, and exit status 1;
    no file is written. *)
Theorem hidden_file_destination_is_unsupported (cl : CommandLine)
  (rq : request) (r : response) (v : pyval) (dir dots tl : pystr)
  (fs : list (pystr * pystr)) :
  issues cl rq -> serve W rq = Answer r -> ok r = true ->
  json_loads (text r) = Done v ->
  is_dir dir -> forallb (N.eqb Chr.DOT) dots = true ->
  existsb (N.eqb Chr.DOT) tl = false ->
  existsb (N.eqb Chr.SLASH) tl = false ->
  opt_output cl = Some (dir ++ dots ++ Chr.DOT :: tl) ->
  run W cl fs
  = outcome 1 [status_line r; py "Error: Unsupported file format ''."] [rq] fs.
Proof.
  intros Hi Hs Hok Hl Hd Hdots Hdot Hsl Ho.
  set (p := dir ++ dots ++ Chr.DOT :: tl) in *.
  assert (Hn : existsb (N.eqb Chr.SLASH) dots = false).
  { clear -Hdots. induction dots as [|c l IH]; [reflexivity|].
    cbn [forallb] in Hdots. apply andb_true_iff in Hdots.
    destruct Hdots as [Hc Hl]. apply N.eqb_eq in Hc. subst c.
    cbn [existsb]. now rewrite IH. }
  assert (Ep : splitext p = (p, [])).
  { unfold p. rewrite splitext_name_dot by assumption. now rewrite Hdots. }
  pose proof (issues_output Hi) as Hout. rewrite Ho in Hout.
  assert (Hp : path_of (client_of cl) = p) by (unfold path_of; now rewrite Hout).
  assert (Ht : truthy (output (client_of cl)) = true).
  { rewrite Hout. unfold p. destruct dir; [destruct dots|]; reflexivity. }
  rewrite (run_issues W fs Hi Hs). unfold try_except.
  erewrite handle_ok_save; [|exact Hok|exact Ht|exact Hl].
  rewrite save_response_unsupported;
    rewrite ?Hp, ?Ep; try discriminate.
  unfold unsupported_line. rewrite Ep. reflexivity.
Qed.

End HiddenFile.

Lemma splitext_of_a_file_name_witness :
  splitext (py "out/data.v2.json") = (py "out/data.v2", py ".json")
  /\ splitext (py "out/.json") = (py "out/.json", []).
Proof.
  split.
  - apply (proj2 (@splitext_of_a_file_name (py "out/") (py "data.v2.json")
                    (or_intror (ex_intro _ (py "out") eq_refl)) eq_refl)
                 (py "data.v2") (py "json") eq_refl eq_refl).
  - apply (proj2 (@splitext_of_a_file_name (py "out/") (py ".json")
                    (or_intror (ex_intro _ (py "out") eq_refl)) eq_refl)
                 [] (py "json") eq_refl eq_refl).
Defined.

Lemma hidden_file_destination_is_unsupported_witness :
  run (Sample.server 200 (py "[1, 2]"))
      (Sample.command "get" "/posts" None (Some ".json"%string)) []
  = outcome 1 [py "HTTP Status Code: 200";
               py "Error: Unsupported file format ''."]
            [GET (py "https://jsonplaceholder.typicode.com/posts")] [].
Proof.
  apply (@hidden_file_destination_is_unsupported Sample.runtime
           (Sample.server 200 (py "[1, 2]"))
           (Sample.command "get" "/posts" None (Some ".json"%string))
           (GET (py "https://jsonplaceholder.typicode.com/posts"))
           {| status_code := 200; text := py "[1, 2]" |}
           (PyList [PyInt 1; PyInt 2]) [] [] (py "json") []
           (issues_get (py "/posts") None (Some (py ".json")))
           eq_refl eq_refl eq_refl (or_introl eq_refl)
           eq_refl eq_refl eq_refl eq_refl).
Defined.

Lemma payload_counts_through_its_value_witness :
  run (Sample.server 201 (py "{}"))
      (Sample.command "post" "/posts" (Some "[1,2]"%string) None) []
  = run (Sample.server 201 (py "{}"))
        (Sample.command "post" "/posts" (Some " [1 , 2] "%string) None) [].
Proof.
  apply (proj2 (@payload_counts_through_its_value Sample.runtime
                  (Sample.server 201 (py "{}")) (py "/posts") None [])
               (py "[1,2]") (py " [1 , 2] ") (PyList [PyInt 1; PyInt 2])
               eq_refl eq_refl eq_refl eq_refl).
Defined.

(** ** A run does not read the files *)

Section Frame.
Context {RT : PyRuntime}.
Variable W : World.

(** A computation on the file opened at [p] whose result, printed lines and
    written text are the same from every state. *)
Definition appends (p : pystr) (A : Type) (m : M A) (res : A + exc)
  (lines : list pystr) (t : pystr) : Prop :=
  forall o e s f c,
    dict_get f p = Some c ->
    m {| stdout := o; stderr := e; sent := s; files := f |}
    = (res, {| stdout := o ++ lines; stderr := e; sent := s;
               files := dict_set f p (c ++ t) |}).

Definition frames (p : pystr) (A : Type) (m : M A) : Prop :=
  exists res lines t, appends p m res lines t.

Lemma appends_still (p : pystr) (A : Type) (m : M A) (res : A + exc) :
  (forall st, m st = (res, st)) -> appends p m res [] [].
Proof.
  intros H o e s f c Hc. rewrite H, !app_nil_r.
  now rewrite (dict_set_same _ _ Hc).
Qed.

Lemma frames_ret p A (a : A) : frames p (ret a).
Proof. exists (inl a), [], []. now apply appends_still. Qed.

Lemma frames_raise p A cls msg : frames p (@raise _ A cls msg).
Proof. exists (inr (Raised cls msg)), [], []. now apply appends_still. Qed.

Lemma frames_sys_exit p A code : frames p (@sys_exit _ A code).
Proof. exists (inr (SystemExit code)), [], []. now apply appends_still. Qed.

Lemma frames_print p line : frames p (print line).
Proof.
  exists (inl tt), [line], []. intros o e s f c Hc. unfold print.
  cbn [stdout stderr sent files]. rewrite app_nil_r.
  now rewrite (dict_set_same _ _ Hc).
Qed.

Lemma frames_write p text : frames p (write W p text).
Proof.
  destruct (forallb (writable W) text) eqn:Ew.
  - exists (inl tt), [], text. intros o e s f c Hc.
    rewrite (@write_append _ W p text c o e s f Ew Hc). now rewrite app_nil_r.
  - exists (inr (Raised UnicodeEncodeError (encode_error_text text))), [], [].
    apply appends_still. intros st. now apply write_refused.
Qed.

Lemma frames_bind p A B (m : M A) (k : A -> M B) :
  frames p m -> (forall a, frames p (k a)) -> frames p (bind m k).
Proof.
  intros (res & l1 & t1 & Hm) Hk. destruct res as [a|x].
  - destruct (Hk a) as (r & l2 & t2 & Ha).
    exists r, (l1 ++ l2), (t1 ++ t2). intros o e s f c Hc.
    unfold bind. rewrite (Hm o e s f c Hc).
    rewrite (Ha _ e s _ (c ++ t1) (dict_get_set _ _ _)).
    now rewrite dict_set_set, !app_assoc.
  - exists (inr x), l1, t1. intros o e s f c Hc.
    unfold bind. now rewrite (Hm o e s f c Hc).
Qed.

Lemma frames_try p A (body : M A) (handlers : list (exc_class * (pystr -> M A))) :
  frames p body ->
  Forall (fun h => forall msg, frames p (snd h msg)) handlers ->
  frames p (try_except body handlers).
Proof.
  intros (res & l1 & t1 & Hb) Hh.
  destruct res as [a|[code|cls msg]].
  - exists (inl a), l1, t1. intros o e s f c Hc. unfold try_except.
    now rewrite (Hb o e s f c Hc).
  - exists (inr (SystemExit code)), l1, t1. intros o e s f c Hc.
    unfold try_except. now rewrite (Hb o e s f c Hc).
  - destruct (find (fun h => subclass cls (fst h)) handlers) as [h|] eqn:Ef.
    + pose proof (find_some _ _ Ef) as [Hin _].
      rewrite Forall_forall in Hh.
      destruct (Hh h Hin msg) as (r & l2 & t2 & Ha).
      exists r, (l1 ++ l2), (t1 ++ t2). intros o e s f c Hc.
      unfold try_except. rewrite (Hb o e s f c Hc), Ef.
      rewrite (Ha _ e s _ (c ++ t1) (dict_get_set _ _ _)).
      now rewrite dict_set_set, !app_assoc.
    + exists (inr (Raised cls msg)), l1, t1. intros o e s f c Hc.
      unfold try_except. now rewrite (Hb o e s f c Hc), Ef.
Qed.

Lemma frames_first_keys p l : frames p (first_keys l).
Proof.
  destruct l as [|[] l]; simpl; try apply frames_raise. apply frames_ret.
Qed.

Lemma frames_dict_to_list p fn v : frames p (dict_to_list fn v).
Proof.
  destruct v; simpl; try apply frames_raise.
  destruct (filter _ _); [apply frames_ret|apply frames_raise].
Qed.

Lemma frames_writerows p fn rows : frames p (writerows W p fn rows).
Proof.
  induction rows as [|r rows IH]; simpl; [apply frames_ret|].
  apply frames_bind; [apply frames_dict_to_list|]. intros row.
  apply frames_bind; [apply frames_write|]. intros _. exact IH.
Qed.

Lemma frames_writeheader p fn : frames p (writeheader W p fn).
Proof.
  unfold writeheader. apply frames_bind; [apply frames_dict_to_list|].
  intros row. apply frames_write.
Qed.

Lemma frames_write_error_handler p :
  Forall (fun h : exc_class * (pystr -> M unit) =>
            forall msg, frames p (snd h msg))
         [(Exception,
           fun e => bind (print (py "File write error: " ++ e))
                         (fun _ => sys_exit 1%Z))].
Proof.
  constructor; [|constructor]. intros msg. cbn [snd].
  apply frames_bind; [apply frames_print|]. intros _. apply frames_sys_exit.
Qed.

(** A computation that prints and may replace the content of [p], the same
    way from every state. *)
Definition replaces (p : pystr) (m : M unit) : Prop :=
  exists (res : unit + exc) (lines : list pystr) (w : option pystr),
    forall o e s f,
      m {| stdout := o; stderr := e; sent := s; files := f |}
      = (res, {| stdout := o ++ lines; stderr := e; sent := s;
                 files := match w with
                          | Some c => dict_set f p c
                          | None => f
                          end |}).

(** A [try] block that opens [p] for writing and goes on in it. *)
Lemma replaces_open (p : pystr) (body : M unit) :
  frames p body ->
  replaces p (try_except (bind (open_w W p) (fun _ => body))
                         write_error_handler).
Proof.
  intros Hb. unfold open_w. destruct (open_error W p) as [msg|] eqn:Eo.
  - exists (inr (SystemExit 1)), [py "File write error: " ++ msg], None.
    intros o e s f. reflexivity.
  - destruct (@frames_try p _ body write_error_handler Hb
                (frames_write_error_handler p)) as (res & lines & t & H).
    exists res, lines, (Some t). intros o e s f.
    specialize (H o e s (dict_set f p []) [] (dict_get_set _ _ _)).
    rewrite dict_set_set in H. cbn [app] in H. rewrite <- H.
    unfold try_except, bind, get_files, set_files. reflexivity.
Qed.

Lemma replaces_save_response (self : RestClient) (v : pyval) :
  replaces (path_of self) (save_response W self v).
Proof.
  unfold save_response.
  destruct (str_eqb _ (py ".json")).
  - apply replaces_open.
    apply frames_bind; [apply frames_write|]. intros _. apply frames_print.
  - destruct (str_eqb _ (py ".csv")).
    + apply replaces_open.
      apply frames_bind; [apply frames_first_keys|]. intros fn.
      apply frames_bind; [apply frames_writeheader|]. intros _.
      apply frames_bind; [apply frames_writerows|]. intros _.
      apply frames_print.
    + eexists (inr (SystemExit 1)), [_], None. intros o e s f. reflexivity.
Qed.

(** The outcome of a run as a function of the files it starts from. *)
Definition framed (cl : CommandLine) (code : Z) (lines errs : list pystr)
  (rqs : list request) (w : option (pystr * pystr)) : Prop :=
  forall fs,
    run W cl fs
    = {| exit_code := code; out := lines; err := errs; calls := rqs;
         disk := match w with
                 | Some (p, c) => dict_set fs p c
                 | None => fs
                 end |}.

Lemma run_framed (cl : CommandLine) :
  exists code lines errs rqs w, framed cl code lines errs rqs w.
Proof.
  destruct (main_before_response W cl [])
    as [e He|ep msg Hpos Hno|rq msg Hi Hs|rq r Hi Hs].
  - destruct e as [t| |extra|].
    + exists 2%Z, [], (usage_text (InvalidChoice t)), [], None. intros fs.
      unfold run, main. rewrite He. reflexivity.
    + exists 2%Z, [], (usage_text MissingArguments), [], None. intros fs.
      unfold run, main. rewrite He. reflexivity.
    + exists 2%Z, [], (usage_text (UnrecognizedArguments extra)), [], None.
      intros fs. unfold run, main. rewrite He. reflexivity.
    + exists 0%Z, [help_text], [], [], None. intros fs.
      unfold run, main. rewrite He. reflexivity.
  - destruct cl as [pos d o]. cbn [positionals] in Hpos. subst pos.
    destruct d as [[|c d]|].
    + exists 1%Z, [py "Invalid input: For POST requests, data is required."],
        [], [], None. intros fs. reflexivity.
    + destruct (json_loads (c :: d)) as [v| |] eqn:El.
      * destruct (Hno (POST (BASE_URL ++ ep) v)). now constructor.
      * exists 1%Z, [py "Invalid input: " ++ json_error_text (c :: d)],
          [], [], None. intros fs.
        unfold run, main, send_request, try_except, bind, loads.
        cbn -[json_loads BASE_URL]. rewrite El. reflexivity.
      * exists 1%Z, [py "Invalid input: " ++ json_error_text (c :: d)],
          [], [], None. intros fs.
        unfold run, main, send_request, try_except, bind, loads.
        cbn -[json_loads BASE_URL]. rewrite El. reflexivity.
    + exists 1%Z, [py "Invalid input: For POST requests, data is required."],
        [], [], None. intros fs. reflexivity.
  - exists 1%Z, [py "Network error: " ++ msg], [], [rq], None. intros fs.
    rewrite run_main, (main_transport_failure W fs Hi Hs). reflexivity.
  - destruct (ok r) eqn:Hok.
    + destruct (json_loads (text r)) as [v| |] eqn:Hl.
      * destruct (truthy (output (client_of cl))) eqn:Ht.
        -- destruct (replaces_save_response (client_of cl) v)
             as (res & lines & w & H).
           exists (exit_status res), (status_line r :: lines), [], [rq],
             (option_map (fun c => (path_of (client_of cl), c)) w).
           intros fs. rewrite (run_issues W fs Hi Hs).
           assert (E : try_except (handle_response W (client_of cl) r)
                         top_handlers (start [rq] fs)
                       = save_response W (client_of cl) v
                           (add_out (start [rq] fs) [status_line r])).
           { destruct (handle_after_response W (client_of cl) r (start [rq] fs))
               as [Hn|_ Hn|v' _ _ Hn|v' _ Hl' _].
             - congruence.
             - destruct (Hn v Hl).
             - congruence.
             - congruence. }
           rewrite E. unfold add_out, start. cbn [stdout stderr sent files].
           rewrite H. destruct w; reflexivity.
        -- exists 0%Z, [status_line r; json_dumps 4 v], [], [rq], None.
           intros fs. rewrite (run_issues W fs Hi Hs). unfold try_except.
           erewrite handle_ok_print; [reflexivity|exact Hok|exact Ht|exact Hl].
      * exists 1%Z, [status_line r;
                     py "Network error: " ++ json_error_text (text r)],
          [], [rq], None.
        intros fs. rewrite (run_issues W fs Hi Hs). unfold try_except.
        rewrite handle_ok_undecodable; [reflexivity|exact Hok|congruence].
      * exists 1%Z, [status_line r;
                     py "Network error: " ++ json_error_text (text r)],
          [], [rq], None.
        intros fs. rewrite (run_issues W fs Hi Hs). unfold try_except.
        rewrite handle_ok_undecodable; [reflexivity|exact Hok|congruence].
    + exists 1%Z, [status_line r; py "Error: Request was not successful."],
        [], [rq], None.
      intros fs. rewrite (run_issues W fs Hi Hs). unfold try_except.
      rewrite handle_not_ok by exact Hok. reflexivity.
Qed.

(** X21. A run does not read the files: its exit status, its output and its
    request are the same from every state of the files, and the files it
    leaves are the ones it found, with at most one of them replaced by a
    content that does not depend on what was there.  So a second run of the
    same command in the same world repeats the first and changes nothing. *)
Theorem run_does_not_read_files (cl : CommandLine) :
  (exists code lines errs rqs w,
     forall fs,
       run W cl fs
       = {| exit_code := code; out := lines; err := errs; calls := rqs;
            disk := match w with
                    | Some (p, c) => dict_set fs p c
                    | None => fs
                    end |})
  /\ forall fs, run W cl (disk (run W cl fs)) = run W cl fs.
Proof.
  destruct (run_framed cl) as (code & lines & errs & rqs & w & H).
  split; [now exists code, lines, errs, rqs, w|].
  intros fs. rewrite (H (disk (run W cl fs))), (H fs). cbn [disk].
  destruct w as [[p c]|]; [|reflexivity]. now rewrite dict_set_set.
Qed.

End Frame.

Lemma csv_later_non_record_stops_the_save_witness :
  run (Sample.server 200 (py "[{}, null]"))
      (SampleRecords.get_to "out.csv") []
  = {| exit_code := 1;
       out := [py "HTTP Status Code: 200";
               py "File write error: 'NoneType' object has no attribute 'keys'"];
       err := []; calls := [SampleRecords.the_request];
       disk := [(py "out.csv", [Chr.CR; Chr.LF; Chr.CR; Chr.LF])] |}.
Proof.
  apply (@csv_later_non_record_stops_the_save Sample.runtime
           (Sample.server 200 (py "[{}, null]"))
           (SampleRecords.get_to "out.csv") SampleRecords.the_request
           (SampleRecords.answer (py "[{}, null]")) (py "out.csv")
           [] PyNone [] [] []
           (issues_get (py "/posts") None (Some (py "out.csv")))
           eq_refl eq_refl eq_refl eq_refl).
  - discriminate.
  - reflexivity.
  - reflexivity.
  - reflexivity.
  - reflexivity.
Defined.
